(** * currency_data_download: a shallow embedding of [main.py]

    The program downloads NBP reference rates for EUR, USD and CHF, derives
    the EUR/USD and CHF/USD ratios, merges the assembled table into a CSV
    history and prints summary statistics.

    Modelling decisions, fixed once for the whole development:
    - Python exceptions are values of [Exn]; a computation is a function
      from the [World] (files, storage medium, network, clock, terminal) to
      a [Result] and the world it leaves behind, also when it raises.
    - A Python [dict] is an insertion-ordered association list with unique
      keys ([dict_set] overwrites in place).
    - A rate is a rational number, the value of the float that holds it;
      an operation on floats gives the exact result rounded to the nearest
      float ([binary64]).
    - What the libraries compute for the program is modelled from their
      behaviour: [pd.to_datetime] and the order in which pandas adds the
      values of a column are parameters, and the text of an exception that
      a library raises is not spelled out.
    - A [DataFrame] is a list of rows; every row carries its [Date] cell and
      its numeric cells by column name, a cell that is missing being NaN.
    - [pd.to_datetime] reads a cell as a [Timestamp], as [NaT], or
      raises. *)

From Stdlib Require Import Ascii String QArith Qround Qabs Qpower Lqa.
From stdpp Require Import base option list sorting gmap strings pretty.

Local Open Scope string_scope.
Local Open Scope Z_scope.

(** ** Exceptions and results *)

Inductive Exn : Type :=
  | HTTPError (status : Z)          (* requests.exceptions.HTTPError *)
  | ConnectionError                 (* any other requests failure *)
  | Exception (msg : string)        (* raise Exception('...') *)
  | JSONDecodeError                 (* response.json() on a non-JSON body *)
  | KeyError (key : string)         (* d[k] with k missing *)
  | ZeroDivisionError               (* x / 0 *)
  | ValueError (msg : string)
  | DateParseError (cell : string)  (* pd.to_datetime on a bad cell *)
  | ParserError                     (* pd.read_csv on an unreadable file *)
  | OSError.                        (* the medium refuses the write *)

Inductive Result (A : Type) : Type :=
  | Ok (a : A)
  | Raised (e : Exn).
Arguments Ok {A} a.
Arguments Raised {A} e.

Definition is_ok {A} (r : Result A) : bool :=
  match r with Ok _ => true | Raised _ => false end.

(** ** Timestamps *)

Inductive Timestamp : Type :=
  | NaT
  | TS (t : Z).

(** [a > b] on timestamps: every comparison with [NaT] is [False]. *)
Definition ts_gt (a b : Timestamp) : bool :=
  match a, b with
  | TS x, TS y => bool_decide (y < x)
  | _, _ => false
  end.

Definition ts_max (a b : Timestamp) : Timestamp :=
  match a, b with
  | NaT, _ => b
  | _, NaT => a
  | TS x, TS y => TS (Z.max x y)
  end.

(** [Series.max()] skips [NaT]; it is [NaT] when nothing else is there. *)
Definition series_max (s : list Timestamp) : Timestamp := foldr ts_max NaT s.

(** ** Tables *)

Record Row : Type := mkRow {
  Date : string;
  cells : list (string * Q)
}.

Record DataFrame : Type := mkDF {
  columns : list string;   (* the numeric columns, after 'Date' *)
  rows : list Row
}.

Definition dates (rs : list Row) : list string := Date <$> rs.

(** [row[column]], NaN being [None]. *)
Fixpoint assoc {V} (k : string) (d : list (string * V)) : option V :=
  match d with
  | [] => None
  | (k', v) :: d' => if String.eqb k k' then Some v else assoc k d'
  end.

Definition cell (column : string) (r : Row) : option Q := assoc column (cells r).

(** [pd.concat([a, b])]: the rows of [a], then those of [b]; the columns of
    [a], then the columns only [b] has. *)
Definition concat (a b : DataFrame) : DataFrame :=
  mkDF (columns a ++ filter (λ c, c ∉ columns a) (columns b)) (rows a ++ rows b).

(** [drop_duplicates(subset=['Date'])]: of the rows with the same [Date]
    cell the first one stays. *)
Fixpoint drop_duplicates (rs : list Row) : list Row :=
  match rs with
  | [] => []
  | r :: rs' => r :: filter (λ r', Date r' ≠ Date r) (drop_duplicates rs')
  end.

(** [df[mask]]: the rows whose mask entry is [True]. *)
Fixpoint boolean_index (rs : list Row) (mask : list bool) : list Row :=
  match rs, mask with
  | r :: rs', b :: mask' =>
      if b then r :: boolean_index rs' mask' else boolean_index rs' mask'
  | _, _ => []
  end.

(** ** The world *)

Inductive FileContent : Type :=
  | Csv (df : DataFrame)   (* a CSV file with a 'Date' column *)
  | Garbled.               (* anything [pd.read_csv] or [['Date']] rejects *)

(** What the storage medium does with a write. [Faulty residue]: the write
    raises, and the target file is left as [residue] (absent when [None]). *)
Inductive Medium : Type :=
  | Healthy
  | Faulty (residue : option FileContent).

Record RateEntry : Type := mkEntry {
  effectiveDate : option string;   (* [None]: the key is missing *)
  mid : option Q
}.

Inductive Body : Type :=
  | NotJson
  | Json (rates : option (list RateEntry)).

Record Response : Type := mkResponse {
  status_code : Z;
  text : string;
  body : Body
}.

Inductive GetOutcome : Type :=
  | NetworkFailure
  | Got (response : Response).

(** What reaches the terminal. [ErrorLine s e] is the line of
    [print(f'{s}{e}')]: the text [s] followed by [str(e)]. The text of an
    exception that a library raises is the library's own, and is kept as
    the exception. *)
Inductive Output : Type :=
  | Line (s : string)
  | ErrorLine (s : string) (e : Exn)
  | Table (field_names : list string) (table_rows : list (list string)).

Record World : Type := mkWorld {
  fs : gmap string FileContent;
  medium : Medium;
  http : string → GetOutcome;
  clock : string * string;         (* strftime of now - 90 days, and of now *)
  stdout : list Output
}.

Definition set_fs (f : gmap string FileContent → gmap string FileContent)
    (w : World) : World :=
  mkWorld (f (fs w)) (medium w) (http w) (clock w) (stdout w).

Definition put_stdout (o : Output) (w : World) : World :=
  mkWorld (fs w) (medium w) (http w) (clock w) (stdout w ++ [o]).

(** ** The monad of effectful computations *)

Definition IO (A : Type) : Type := World → Result A * World.

#[export] Instance IO_ret : MRet IO := λ A a w, (Ok a, w).

#[export] Instance IO_bind : MBind IO := λ A B f m w,
  match m w with
  | (Ok a, w') => f a w'
  | (Raised e, w') => (Raised e, w')
  end.

Definition raise {A} (e : Exn) : IO A := λ w, (Raised e, w).

(** [try: body / except Exception as e: handler(e)]. What [body] did to the
    world before it raised stays done. *)
Definition try_except {A} (body : IO A) (handler : Exn → IO A) : IO A := λ w,
  match body w with
  | (Ok a, w') => (Ok a, w')
  | (Raised e, w') => handler e w'
  end.

Definition lift {A} (r : Result A) : IO A := λ w, (r, w).

Definition print (s : string) : IO unit := λ w, (Ok (), put_stdout (Line s) w).

(** [print(f'{s}{e}')] for an exception [e] *)
Definition print_exn (s : string) (e : Exn) : IO unit :=
  λ w, (Ok (), put_stdout (ErrorLine s e) w).

(** [print(table)] for a [PrettyTable] *)
Definition print_table (names : list string) (table : list (list string))
    : IO unit :=
  λ w, (Ok (), put_stdout (Table names table) w).

Definition run {A} (m : IO A) (w : World) : World := (m w).2.
Definition outcome {A} (m : IO A) (w : World) : Result A := (m w).1.

(** ** Files *)

Definition isfile (filename : string) : IO bool :=
  λ w, (Ok (bool_decide (is_Some (fs w !! filename))), w).

Definition read_csv (filename : string) : IO DataFrame := λ w,
  match fs w !! filename with
  | Some (Csv df) => (Ok df, w)
  | _ => (Raised ParserError, w)
  end.

Definition to_csv (data_frame : DataFrame) (filename : string) : IO unit := λ w,
  match medium w with
  | Healthy => (Ok (), set_fs (<[filename := Csv data_frame]>) w)
  | Faulty residue =>
      (Raised OSError, set_fs (partial_alter (λ _, residue) filename) w)
  end.

(** ** Constants of the module *)

Definition ITERATION_LIMIT : Z := 50.
Definition ALL_CURRENCY_FILE : string := "all_currency_data.csv".
Definition SELECTED_CURRENCY_FILE : string := "selected_currency_data.csv".

Definition nl : string := String "010"%char EmptyString.

(** ** The history store: [save_to_csv] *)

Section Store.

(** [pd.to_datetime] on one cell: [None] when it raises. *)
Variable to_datetime : string → option Timestamp.

(** [pd.to_datetime(series)]: raises at the first cell that does not parse. *)
Fixpoint to_datetime_series (s : list string) : Result (list Timestamp) :=
  match s with
  | [] => Ok []
  | c :: s' =>
      match to_datetime c with
      | None => Raised (DateParseError c)
      | Some t =>
          match to_datetime_series s' with
          | Ok ts => Ok (t :: ts)
          | Raised e => Raised e
          end
      end
  end.

(** [data_frame[incoming_dates > latest_date_existing]] *)
Definition new_entries (latest_date_existing : Timestamp)
    (incoming_dates : list Timestamp) (data_frame : DataFrame) : DataFrame :=
  let mask := (λ t, ts_gt t latest_date_existing) <$> incoming_dates in
  mkDF (columns data_frame) (boolean_index (rows data_frame) mask).

(** Lines 63-68 of [main.py], the computation between the read and the
    write: the rows of [data_frame] later than every stored date, appended
    to the stored rows, one row kept per [Date] cell. *)
Definition updated_data (existing_data data_frame : DataFrame)
    : Result DataFrame :=
  match to_datetime_series (dates (rows existing_data)) with
  | Raised e => Raised e
  | Ok existing_dates =>
      let latest_date_existing := series_max existing_dates in
      match to_datetime_series (dates (rows data_frame)) with
      | Raised e => Raised e
      | Ok incoming_dates =>
          let both :=
            concat existing_data
              (new_entries latest_date_existing incoming_dates data_frame) in
          Ok (mkDF (columns both) (drop_duplicates (rows both)))
      end
  end.

Definition save_to_csv (data_frame : DataFrame) (filename : string) : IO unit :=
  if String.eqb filename SELECTED_CURRENCY_FILE then
    try_except
      (present ← isfile filename;
       if (present : bool) then
         to_csv data_frame filename;;
         print (nl ++ "Data has been successfully updated to " ++ filename)
       else
         to_csv data_frame filename;;
         print (nl ++ "Data has been successfully saved to " ++ filename))
      (λ e, print_exn (nl ++ "Error while saving data to " ++ filename ++ ": ")
              e)
  else if String.eqb filename ALL_CURRENCY_FILE then
    try_except
      (present ← isfile filename;
       if (present : bool) then
         existing_data ← read_csv filename;
         updated ← lift (updated_data existing_data data_frame);
         to_csv updated filename;;
         print (nl ++ "Data has been successfully updated to " ++ filename)
       else
         to_csv data_frame filename;;
         print (nl ++ "Data has been successfully saved to " ++ filename))
      (λ e, print_exn (nl ++ "Error while saving data to " ++ filename ++ ": ")
              e)
  else mret ().

(** The body of the [try] of the history branch, without its handler:
    what [save_to_csv] attempts on [ALL_CURRENCY_FILE]. *)
Definition merge_attempt (data_frame : DataFrame) : IO unit :=
  present ← isfile ALL_CURRENCY_FILE;
  if (present : bool) then
    existing_data ← read_csv ALL_CURRENCY_FILE;
    updated ← lift (updated_data existing_data data_frame);
    to_csv updated ALL_CURRENCY_FILE;;
    print (nl ++ "Data has been successfully updated to " ++ ALL_CURRENCY_FILE)
  else
    to_csv data_frame ALL_CURRENCY_FILE;;
    print (nl ++ "Data has been successfully saved to " ++ ALL_CURRENCY_FILE).

End Store.

(** ** Python dictionaries *)

Definition dict (V : Type) : Type := list (string * V).

Definition keys {V} (d : dict V) : list string := d.*1.
Definition values {V} (d : dict V) : list V := d.*2.

(** [d[k] = v]: an existing key keeps its position. *)
Fixpoint dict_set {V} (k : string) (v : V) (d : dict V) : dict V :=
  match d with
  | [] => [(k, v)]
  | (k', v') :: d' =>
      if String.eqb k k' then (k, v) :: d' else (k', v') :: dict_set k v d'
  end.

(** [d[k]] *)
Definition getitem {V} (d : dict V) (k : string) : Result V :=
  match assoc k d with
  | Some v => Ok v
  | None => Raised (KeyError k)
  end.

(** ** Floats *)

(** Round to the nearest integer, a tie going to the even neighbour. *)
Definition round_half_even (q : Q) : Z :=
  let f := Qfloor q in
  match (q - inject_Z f ?= 1 # 2)%Q with
  | Lt => f
  | Gt => f + 1
  | Eq => if Z.even f then f else f + 1
  end.

Definition pow2 (e : Z) : Q := (2 ^ e)%Q.

(** The exponent of [x], for [x] other than zero: the [e] with
    [2^e <= |x| < 2^(e+1)]. *)
Definition exponent (x : Q) : Z :=
  let e := Z.log2 (Z.abs (Qnum x)) - Z.log2 (Z.pos (Qden x)) in
  if Qle_bool (pow2 e) (Qabs x) then e else e - 1.

(** The float nearest to [x] (IEEE 754 binary64, round to nearest, ties to
    even): [x] rounded to 53 significant bits, or to a multiple of
    [2^-1074] where the floats are subnormal. The exponent is not bounded
    above: a result beyond the largest float, which Python makes [inf],
    has no counterpart here. *)
Definition binary64 (x : Q) : Q :=
  if Qeq_bool x 0 then 0%Q
  else
    let ulp := pow2 (Z.max (exponent x - 52) (-1074)) in
    (inject_Z (round_half_even (x / ulp)) * ulp)%Q.

(** [a + b], [a - b], [a * b] and [a / b] on floats, [b] not being zero
    in the last. *)
Definition fadd (a b : Q) : Q := binary64 (a + b).
Definition fsub (a b : Q) : Q := binary64 (a - b).
Definition fmul (a b : Q) : Q := binary64 (a * b).
Definition truediv (a b : Q) : Q := binary64 (a / b).

(** [round(x, 4)] on a float: the float nearest to the multiple of 0.0001
    that is nearest to [x], a tie going to the even multiple. *)
Definition round4 (x : Q) : Q :=
  binary64 (round_half_even (x * 10000) # 10000).

(** ** The rate source: [fetch_currency_data] *)

Definition contains (needle haystack : string) : bool :=
  match String.index 0 needle haystack with
  | Some _ => true
  | None => false
  end.

Definition requests_get (url : string) : IO Response := λ w,
  match http w url with
  | NetworkFailure => (Raised ConnectionError, w)
  | Got response => (Ok response, w)
  end.

(** [response.raise_for_status()]: raises on 4xx and 5xx. *)
Definition raise_for_status (response : Response) : IO unit :=
  if (400 <=? status_code response) && (status_code response <? 600)
  then raise (HTTPError (status_code response))
  else mret ().

Definition response_json (response : Response) : IO (option (list RateEntry)) :=
  match body response with
  | NotJson => raise JSONDecodeError
  | Json data => mret data
  end.

(** [{entry['effectiveDate']: entry['mid'] for entry in rates}] *)
Fixpoint rates_dict (rates : list RateEntry) (acc : dict Q) : Result (dict Q) :=
  match rates with
  | [] => Ok acc
  | entry :: rest =>
      match effectiveDate entry with
      | None => Raised (KeyError "effectiveDate")
      | Some date =>
          match mid entry with
          | None => Raised (KeyError "mid")
          | Some rate => rates_dict rest (dict_set date rate acc)
          end
      end
  end.

Definition data_not_found : string :=
  nl ++ "Data not found for the specified time range.".
Definition limit_exceeded : string :=
  nl ++ "Request limit exceeded. Please reduce the time range.".
Definition no_rates_found (currency_code : string) : string :=
  nl ++ "No exchange rate data found for " ++ currency_code.

Definition fetch_currency_data (currency_code start_date end_date : string)
    : IO (dict Q) :=
  let url := "https://api.nbp.pl/api/exchangerates/rates/A/" ++ currency_code
             ++ "/" ++ start_date ++ "/" ++ end_date ++ "/?format=json" in
  response ← requests_get url;
  try_except
    (raise_for_status response;;
     if status_code response =? 404 then raise (Exception data_not_found)
     else if (status_code response =? 400)
             && contains "Przekroczony limit" (text response)
     then raise (Exception limit_exceeded)
     else mret ())
    (λ e, match e with
          | HTTPError _ =>
              print (nl ++ "HTTP error occurred while fetching data for "
                     ++ currency_code ++ ". Status code: "
                     ++ pretty (status_code response));;
              raise e
          | _ =>
              print_exn (nl ++ "An error occurred while fetching data for "
                         ++ currency_code ++ ": ") e;;
              raise e
          end);;
  data ← response_json response;
  let rates := default [] data in
  match rates with
  | [] => raise (Exception (no_rates_found currency_code))
  | _ => lift (rates_dict rates [])
  end.

(** ** Derived ratios and the assembled table: [process_currency_data] *)

(** [{date: round(numerator[date] / denominator[date], 4) for date in ks}],
    the comprehension of lines 123 and 124, [ks] being
    [numerator.keys()]. *)
Fixpoint ratio_over (ks : list string) (numerator denominator : dict Q)
    (acc : dict Q) : Result (dict Q) :=
  match ks with
  | [] => Ok acc
  | date :: ks' =>
      match getitem numerator date with
      | Raised e => Raised e
      | Ok n =>
          match getitem denominator date with
          | Raised e => Raised e
          | Ok d =>
              if Qeq_bool d 0 then Raised ZeroDivisionError
              else ratio_over ks' numerator denominator
                     (dict_set date (round4 (truediv n d)) acc)
          end
      end
  end.

Definition ratio_rates (numerator denominator : dict Q) : Result (dict Q) :=
  ratio_over (keys numerator) numerator denominator [].

(** [pd.DataFrame({'Date': date_column, name: series, ...})]: the columns
    are laid side by side by position; they must have one length. *)
Fixpoint frame_rows (date_column : list string) (series : list (string * list Q))
    : list Row :=
  match date_column with
  | [] => []
  | d :: ds =>
      mkRow d (omap (λ c, pair c.1 <$> head c.2) series)
        :: frame_rows ds (prod_map id tail <$> series)
  end.

Definition pd_DataFrame (date_column : list string)
    (series : list (string * list Q)) : Result DataFrame :=
  if forallb (λ c, Nat.eqb (length c.2) (length date_column)) series
  then Ok (mkDF series.*1 (frame_rows date_column series))
  else Raised (ValueError "All arrays must be of the same length").

(** Lines 123-137: the table of one cycle from the three fetched mappings. *)
Definition assemble (eur_rates usd_rates chf_rates : dict Q) : Result DataFrame :=
  match ratio_rates eur_rates usd_rates with
  | Raised e => Raised e
  | Ok eur_usd_rates =>
      match ratio_rates chf_rates usd_rates with
      | Raised e => Raised e
      | Ok chf_usd_rates =>
          pd_DataFrame (keys eur_rates)
            [ ("EUR/PLN", values eur_rates);
              ("USD/PLN", values usd_rates);
              ("CHF/PLN", values chf_rates);
              ("EUR/USD", values eur_usd_rates);
              ("CHF/USD", values chf_usd_rates) ]
      end
  end.

Definition get_default_date_range : IO (string * string) := λ w, (Ok (clock w), w).

Definition process_currency_data : IO DataFrame :=
  range ← get_default_date_range;
  let '(start_date, end_date) := range in
  eur_rates ← fetch_currency_data "EUR" start_date end_date;
  usd_rates ← fetch_currency_data "USD" start_date end_date;
  chf_rates ← fetch_currency_data "CHF" start_date end_date;
  lift (assemble eur_rates usd_rates chf_rates).

(** ** Summary statistics: [analyze_currency_pair] *)

#[export] Instance Qle_dec : RelDecision Qle := λ x y,
  match Qlt_le_dec y x with
  | left H => right (Qlt_not_le _ _ H)
  | right H => left H
  end.

Definition Qsum (xs : list Q) : Q := foldr Qplus 0%Q xs.

Definition list_min (xs : list Q) : option Q :=
  match xs with
  | [] => None
  | x :: xs' => Some (fold_left (λ m y, if decide (m <= y)%Q then m else y) xs' x)
  end.

Definition list_max (xs : list Q) : option Q :=
  match xs with
  | [] => None
  | x :: xs' => Some (fold_left (λ m y, if decide (y <= m)%Q then m else y) xs' x)
  end.

(** [Series.mean()]: the sum of the values, as pandas has added them,
    divided by their number. *)
Definition list_mean (series_sum : list Q → Q) (xs : list Q) : option Q :=
  match xs with
  | [] => None
  | _ => Some (truediv (series_sum xs) (inject_Z (Z.of_nat (length xs))))
  end.

(** The value a fraction [t] of the way from [a] to [b], as numpy
    interpolates: [a + (b - a) * t], and [b - (b - a) * (1 - t)] from
    [t = 0.5] on. *)
Definition lerp (a b t : Q) : Q :=
  let diff_b_a := fsub b a in
  if Qle_bool (1 # 2) t then fsub b (fmul diff_b_a (fsub 1 t))
  else fadd a (fmul diff_b_a t).

(** [Series.quantile(q)] with the default linear interpolation: on the
    sorted values [v], at position [h = (n - 1) * q], the value between
    [v[floor h]] and [v[floor h + 1]] at the fraction [h - floor h]. *)
Definition quantile (q : Q) (xs : list Q) : option Q :=
  match xs with
  | [] => None
  | _ =>
      let v := merge_sort Qle xs in
      let h := (inject_Z (Z.of_nat (length xs) - 1) * q)%Q in
      let lo := Z.to_nat (Qfloor h) in
      let a := nth lo v 0%Q in
      let b := nth (S lo) v a in
      Some (lerp a b (h - inject_Z (Qfloor h)))
  end.

(** The entries of [describe()] that the report reads; [None] is NaN. The
    count, the standard deviation and the quartiles are computed by pandas
    and never read. *)
Record Statistics : Type := mkStatistics {
  stat_mean : option Q;
  stat_50 : option Q;
  stat_min : option Q;
  stat_max : option Q
}.

Definition describe (series_sum : list Q → Q) (xs : list Q) : Statistics :=
  mkStatistics (list_mean series_sum xs) (quantile (1 # 2) xs)
    (list_min xs) (list_max xs).

Definition digit (n : Z) : string := pretty (n mod 10).

(** [f"{x:.4f}"] on a float: the digits of its value rounded to four
    decimals, a tie going to the even digit. *)
Definition format_4f (x : option Q) : string :=
  match x with
  | None => "nan"
  | Some q =>
      let n := round_half_even (Qabs q * 10000) in
      (if Qlt_le_dec q 0 then "-" else EmptyString)
        ++ pretty (n / 10000) ++ "."
        ++ digit (n / 1000) ++ digit (n / 100) ++ digit (n / 10) ++ digit n
  end.

Definition field_names : list string :=
  ["Currency Pair"; "Average Rate"; "Median Rate"; "Minimum Rate"; "Maximum Rate"].

Section Report.

Variable to_datetime : string → option Timestamp.

(** [values.sum()] on the values of a column: pandas adds them as floats,
    in an order that depends on the libraries installed and on the number
    of values; the last bits of the sum depend on it. *)
Variable series_sum : list Q → Q.

(** One turn of the loop of [analyze_currency_pair]: the row added to the
    table for [currency_pair]. Pandas lists 'Date' among the columns of
    the frame; selecting it twice makes [selected_data['Date']] a frame
    with two columns of one name, which [pd.to_datetime] rejects.
    [describe()] has the statistics of the 'Date' column at position 0 and
    those of the pair at position 1. *)
Definition analysis_row (data_frame : DataFrame) (currency_pair : string)
    : Result (list string) :=
  if negb (bool_decide (currency_pair = "Date" ∨ currency_pair ∈ columns data_frame))
  then Raised (ValueError (nl ++ "The currency pair " ++ currency_pair
                            ++ " is not present in the DataFrame."))
  else
    match rows data_frame with
    | [] => Raised (ValueError (nl ++ "No data available for the currency pair "
                                  ++ currency_pair ++ "."))
    | selected_data =>
        if bool_decide (currency_pair = "Date")
        then Raised (ValueError "cannot assemble with duplicate keys")
        else
          match to_datetime_series to_datetime (dates selected_data) with
          | Raised e => Raised e
          | Ok _ =>
              let statistics :=
                describe series_sum (omap (cell currency_pair) selected_data) in
              Ok [ currency_pair;
                   format_4f (stat_mean statistics);
                   format_4f (stat_50 statistics);
                   format_4f (stat_min statistics);
                   format_4f (stat_max statistics) ]
          end
    end.

Fixpoint analysis_rows (data_frame : DataFrame)
    (selected_currency_pairs : list string) : Result (list (list string)) :=
  match selected_currency_pairs with
  | [] => Ok []
  | currency_pair :: rest =>
      match analysis_row data_frame currency_pair with
      | Raised e => Raised e
      | Ok r =>
          match analysis_rows data_frame rest with
          | Raised e => Raised e
          | Ok rs => Ok (r :: rs)
          end
      end
  end.

Definition analyze_currency_pair (data_frame : DataFrame)
    (selected_currency_pairs : list string) : IO unit :=
  table ← lift (analysis_rows data_frame selected_currency_pairs);
  print_table field_names table.

(** [main_auto]: one cycle. *)
Definition main_auto : IO unit :=
  df ← process_currency_data;
  save_to_csv to_datetime df ALL_CURRENCY_FILE.

End Report.

(** ** Calendar dates in the format the program reads and writes *)

Definition digit_of (c : ascii) : option Z :=
  let n := Z.of_nat (nat_of_ascii c) in
  if (48 <=? n) && (n <=? 57) then Some (n - 48) else None.

Definition is_leap (y : Z) : bool :=
  ((y mod 4 =? 0) && negb (y mod 100 =? 0)) || (y mod 400 =? 0).

Definition days_in_month (y m : Z) : Z :=
  if m =? 2 then (if is_leap y then 29 else 28)
  else if (m =? 4) || (m =? 6) || (m =? 9) || (m =? 11) then 30
  else 31.

(** The pieces of [s] between the occurrences of [sep]. *)
Fixpoint split_at (sep : ascii) (s : string) : list string :=
  match s with
  | EmptyString => [EmptyString]
  | String c s' =>
      if Ascii.eqb c sep then EmptyString :: split_at sep s'
      else match split_at sep s' with
           | piece :: rest => String c piece :: rest
           | [] => [String c EmptyString]
           end
  end.

(** The number that a string of digits writes. *)
Fixpoint digits_value (s : string) (acc : Z) : option Z :=
  match s with
  | EmptyString => Some acc
  | String c s' => d ← digit_of c; digits_value s' (10 * acc + d)
  end.

Definition number (s : string) : option Z :=
  match s with
  | EmptyString => None
  | _ => digits_value s 0
  end.

(** [pd.to_datetime] on the cells that the examples use. An empty cell is
    [NaT]. A calendar date written year-month-day, the year in four
    digits, the month and the day in one or two ('2024-03-11',
    '2024-3-11'), is its timestamp: the number yyyymmdd, which orders
    dates as the calendar does. On every other cell the function raises,
    as pandas does on a cell that is no date ('corrupt'); a date in
    another spelling, which pandas may read, is outside this function. *)
Definition iso_to_datetime (s : string) : option Timestamp :=
  match s with
  | EmptyString => Some NaT
  | _ =>
      match split_at "-" s with
      | [year; month; day] =>
          if (String.length year =? 4)%nat && (String.length month <=? 2)%nat
             && (String.length day <=? 2)%nat
          then
            y ← number year; m ← number month; d ← number day;
            if (1 <=? m) && (m <=? 12) && (1 <=? d) && (d <=? days_in_month y m)
            then Some (TS (10000 * y + 100 * m + d))
            else None
          else None
      | _ => None
      end
  end.

(** ** Notions the properties are stated with *)

Section DateKeys.

Variable to_datetime : string → option Timestamp.

(** The DateKey of a row: the calendar date its [Date] cell stands for. *)
Definition date_key (r : Row) : option Z :=
  match to_datetime (Date r) with
  | Some (TS z) => Some z
  | _ => None
  end.

(** Every [Date] cell is accepted by [pd.to_datetime]. *)
Definition parses (rs : list Row) : Prop :=
  Forall (λ r, is_Some (to_datetime (Date r))) rs.


(** The DateKeys of the rows, in the order of the rows; a row whose
    [Date] cell is empty has none. *)
Definition date_keys (rs : list Row) : list Z := omap date_key rs.

(** [M] is the maximum DateKey of [rs]. *)
Definition is_max_date_key (rs : list Row) (M : Z) : Prop :=
  (∃ r, r ∈ rs ∧ date_key r = Some M)
  ∧ ∀ r z, r ∈ rs → date_key r = Some z → z ≤ M.

(** The DateKey of [r] strictly exceeds [M]. *)
Definition exceeds (M : Z) (r : Row) : bool :=
  match date_key r with
  | Some z => bool_decide (M < z)
  | None => false
  end.

(** The latest stored timestamp and the rows later than it, row by row. *)
Definition timestamps (rs : list Row) : list Timestamp :=
  omap (λ r, to_datetime (Date r)) rs.

Definition latest_date (rs : list Row) : Timestamp :=
  series_max (timestamps rs).

Definition newer (latest : Timestamp) (r : Row) : bool :=
  match to_datetime (Date r) with
  | Some t => ts_gt t latest
  | None => false
  end.

(** [r1] is dated strictly before [r2]. *)
Definition before (r1 r2 : Row) : Prop :=
  ∃ a b, date_key r1 = Some a ∧ date_key r2 = Some b ∧ a < b.


End DateKeys.

(** The lines [save_to_csv] prints for [ALL_CURRENCY_FILE]. *)
Definition updated_line : string :=
  nl ++ "Data has been successfully updated to " ++ ALL_CURRENCY_FILE.
Definition saved_line : string :=
  nl ++ "Data has been successfully saved to " ++ ALL_CURRENCY_FILE.
Definition error_line (e : Exn) : Output :=
  ErrorLine (nl ++ "Error while saving data to " ++ ALL_CURRENCY_FILE ++ ": ") e.

(** The persisted history: the table in [ALL_CURRENCY_FILE], if it is one. *)
Definition history (w : World) : option DataFrame :=
  match fs w !! ALL_CURRENCY_FILE with
  | Some (Csv df) => Some df
  | _ => None
  end.

(** What a call of [save_to_csv] on [ALL_CURRENCY_FILE] hands to [to_csv]:
    nothing when it fails before the write. *)
Definition staged (to_datetime : string → option Timestamp)
    (data_frame : DataFrame) (w : World) : option DataFrame :=
  match fs w !! ALL_CURRENCY_FILE with
  | None => Some data_frame
  | Some Garbled => None
  | Some (Csv existing) =>
      match updated_data to_datetime existing data_frame with
      | Ok updated => Some updated
      | Raised _ => None
      end
  end.

(** The standard definitions of the statistics. *)

Definition is_mean (m : Q) (xs : list Q) : Prop :=
  (m * inject_Z (Z.of_nat (length xs)) == Qsum xs)%Q.

Definition is_min (m : Q) (xs : list Q) : Prop :=
  m ∈ xs ∧ ∀ x, x ∈ xs → (m <= x)%Q.

Definition is_max (m : Q) (xs : list Q) : Prop :=
  m ∈ xs ∧ ∀ x, x ∈ xs → (x <= m)%Q.

(** The middle of a sorted list: its middle element when the length is
    odd, the mean of its two middle elements when it is even. *)
Definition middle (v : list Q) : Q :=
  let n := length v in
  if Nat.odd n then nth (n / 2)%nat v 0%Q
  else ((nth (n / 2 - 1)%nat v 0 + nth (n / 2)%nat v 0) / 2)%Q.

Definition is_median (m : Q) (xs : list Q) : Prop :=
  ∃ v, v ≡ₚ xs ∧ Sorted Qle v ∧ (m == middle v)%Q.

(** The sums that adding the values of [xs] as floats can give: the
    values are added two by two in any order and any grouping, and every
    addition is rounded. Adding them one after the other, in blocks of
    eight, or by halves are instances. *)
Inductive float_sum : list Q → Q → Prop :=
  | float_sum_one x : float_sum [x] x
  | float_sum_add xs ys a b :
      float_sum xs a → float_sum ys b → float_sum (xs ++ ys) (fadd a b)
  | float_sum_perm xs ys a : xs ≡ₚ ys → float_sum xs a → float_sum ys a.

(** The values added one after the other. *)
Definition sum_in_order (xs : list Q) : Q :=
  match xs with
  | [] => 0%Q
  | x :: xs' => fold_left fadd xs' x
  end.

(** The sum of the absolute values. *)
Definition magnitude (xs : list Q) : Q := Qsum (Qabs <$> xs).

(** How far the rounding of the additions, of the division and of the
    interpolation can take a statistic of [xs] from its exact value. *)
Definition tolerance (xs : list Q) : Q :=
  (magnitude xs * pow2 (-51) + pow2 (-1073))%Q.

(** A world with the given files, a healthy medium, no network and an
    empty terminal. *)
Definition offline (files : gmap string FileContent) : World :=
  mkWorld files Healthy (λ _, NetworkFailure) ("2023-12-11", "2024-03-10") [].

(** A world whose source answers every request with [response]. *)
Definition answering (response : Response) : World :=
  mkWorld ∅ Healthy (λ _, Got response) ("2023-12-11", "2024-03-10") [].

(** ** Tables and worlds of the examples *)

Definition row_0309 : Row := mkRow "2024-03-09" [("EUR/PLN", 4.30%Q)].
Definition row_0310 : Row := mkRow "2024-03-10" [("EUR/PLN", 4.31%Q)].
Definition row_0310_revised : Row := mkRow "2024-03-10" [("EUR/PLN", 4.35%Q)].
Definition row_0311 : Row := mkRow "2024-03-11" [("EUR/PLN", 4.32%Q)].
Definition row_0312 : Row := mkRow "2024-03-12" [("EUR/PLN", 4.33%Q)].

Definition table (rs : list Row) : DataFrame := mkDF ["EUR/PLN"] rs.

(** A world whose history is the table of [rs]. *)
Definition storing (rs : list Row) : World :=
  offline {[ ALL_CURRENCY_FILE := Csv (table rs) ]}.

(** The mappings of the examples: [d1], [d2], [d3] are three dates. *)
Definition d1 : string := "2024-03-11".
Definition d2 : string := "2024-03-12".
Definition d3 : string := "2024-03-13".

Definition numerator_d1_d2 : dict Q := [(d1, 1.10%Q); (d2, 1.12%Q)].
Definition denominator_d1_d3 : dict Q := [(d1, 1.00%Q); (d3, 1.05%Q)].

(** The mapping of the floats that the decimal rates of [d] denote. *)
Definition floats (d : dict Q) : dict Q := prod_map id binary64 <$> d.

(** The table of the statistics example: column EUR/USD over four days,
    each value the float that the decimal number denotes. *)
Definition eur_usd_values : list Q :=
  binary64 <$> [1.10; 1.12; 1.08; 1.15]%Q.

Definition eur_usd_frame : DataFrame :=
  mkDF ["EUR/USD"]
    ((λ dv, mkRow dv.1 [("EUR/USD", dv.2)])
       <$> zip ["2024-03-11"; "2024-03-12"; "2024-03-13"; "2024-03-14"]
             eur_usd_values).

(** The world after the first merge of the example of C1. *)
Definition merged_once : World :=
  run (save_to_csv iso_to_datetime (table [row_0309; row_0311])
         ALL_CURRENCY_FILE) (storing [row_0310]).

(** A world whose history holds a cell that is no date. *)
Definition storing_bad_date : World :=
  offline {[ ALL_CURRENCY_FILE := Csv (table [mkRow "corrupt" []]) ]}.

(** A world with the history of 2024-03-10 on a medium that fails in the
    middle of a write and leaves the file unreadable. *)
Definition storing_on_faulty_medium : World :=
  mkWorld {[ ALL_CURRENCY_FILE := Csv (table [row_0310]) ]}
    (Faulty (Some Garbled)) (λ _, NetworkFailure)
    ("2023-12-11", "2024-03-10") [].

(** The row of 2024-03-11 with the month written in one digit. *)
Definition row_0311_short : Row := mkRow "2024-3-11" [("EUR/PLN", 4.32%Q)].

(** ** The interactive run: [main_manual] *)

(** [s.split(',')]: the pieces between the commas, empty pieces kept. *)
Fixpoint split_comma (s : string) : list string :=
  match s with
  | EmptyString => [EmptyString]
  | String c s' =>
      if Ascii.eqb c ","%char then EmptyString :: split_comma s'
      else match split_comma s' with
           | piece :: rest => String c piece :: rest
           | [] => [String c EmptyString]
           end
  end.

(** [s.replace(' ', '')] *)
Fixpoint remove_spaces (s : string) : string :=
  match s with
  | EmptyString => EmptyString
  | String c s' =>
      if Ascii.eqb c " "%char then remove_spaces s'
      else String c (remove_spaces s')
  end.

(** [s.upper()] on the letters a to z; every other character is left as
    it is, where Python also maps the letters beyond ASCII. *)
Definition upper_char (c : ascii) : ascii :=
  let n := nat_of_ascii c in
  if (97 <=? n)%nat && (n <=? 122)%nat then ascii_of_nat (n - 32) else c.

Fixpoint upper (s : string) : string :=
  match s with
  | EmptyString => EmptyString
  | String c s' => String (upper_char c) (upper s')
  end.

(** [[pair.replace(' ', '').upper() for pair in user_input.split(',')]] *)
Definition selected_pairs (user_input : string) : list string :=
  (λ pair, upper (remove_spaces pair)) <$> split_comma user_input.

(** [df.drop(columns=columns_to_drop)] *)
Definition drop_columns (df : DataFrame) (columns_to_drop : list string)
    : DataFrame :=
  mkDF (filter (λ col, col ∉ columns_to_drop) (columns df))
       ((λ r, mkRow (Date r)
                (filter (λ kv, kv.1 ∉ columns_to_drop) (cells r)))
          <$> rows df).

Definition prompt : string :=
  nl ++ "Enter the currency pairs you want to analyze (comma-separated, e.g., EUR/PLN,USD/PLN): ".

(** [input(prompt)]: the prompt goes to the terminal, the line the user
    types comes back. *)
Definition input (prompt user_input : string) : IO string :=
  λ w, (Ok user_input, put_stdout (Line prompt) w).

(** [main_manual], the line typed at the prompt being [typed]. *)
Definition main_manual (to_datetime : string → option Timestamp)
    (series_sum : list Q → Q) (typed : string) : IO unit :=
  df ← process_currency_data;
  save_to_csv to_datetime df ALL_CURRENCY_FILE;;
  user_input ← input prompt typed;
  match user_input with
  | EmptyString => raise (ValueError (nl ++ "No currency pairs provided."))
  | _ =>
      let selected_currency_pairs := selected_pairs user_input in
      match selected_currency_pairs with
      | [] => raise (ValueError (nl ++ "No valid currency pairs provided."))
      | _ =>
          let columns_to_drop :=
            filter (λ col, col ∉ "Date" :: selected_currency_pairs)
              (columns df) in
          let filtered_df := drop_columns df columns_to_drop in
          save_to_csv to_datetime filtered_df SELECTED_CURRENCY_FILE;;
          analyze_currency_pair to_datetime series_sum filtered_df
            selected_currency_pairs
      end
  end.

(** ** Further notions the properties are stated with *)

(** The address [fetch_currency_data] requests. *)
Definition request_url (currency_code start_date end_date : string) : string :=
  "https://api.nbp.pl/api/exchangerates/rates/A/" ++ currency_code
  ++ "/" ++ start_date ++ "/" ++ end_date ++ "/?format=json".

(** The rates a response lists for [date], in the order of the response. *)
Definition quoted (date : string) (rates : list RateEntry) : list Q :=
  omap (λ entry, if decide (effectiveDate entry = Some date)
                 then mid entry else None) rates.

(** An entry with both of its fields. *)
Definition complete (entry : RateEntry) : Prop :=
  is_Some (effectiveDate entry) ∧ is_Some (mid entry).

(** The answer of the source is an error status. *)
Definition error_status (response : Response) : Prop :=
  400 ≤ status_code response < 600.

(** A response that lists rates. *)
Definition listing (rates : list RateEntry) : Response :=
  mkResponse 200 "OK" (Json (Some rates)).

(** Three entries of a response: 2024-03-11 is listed twice. *)
Definition entries_revised : list RateEntry :=
  [ mkEntry (Some "2024-03-11") (Some 4.30%Q);
    mkEntry (Some "2024-03-12") (Some 4.31%Q);
    mkEntry (Some "2024-03-11") (Some 4.32%Q) ].

(** Two entries of a response: the second has no 'mid'. *)
Definition entries_missing_mid : list RateEntry :=
  [ mkEntry (Some "2024-03-11") (Some 3.95%Q);
    mkEntry (Some "2024-03-12") None ].

(** Mappings of the examples, each rate the float that the decimal
    number denotes; [usd_d2_d1] lists the two dates in the other order. *)
Definition eur_d1_d2 : dict Q := floats [(d1, 4.3002%Q); (d2, 4.31%Q)].
Definition usd_d1_d2 : dict Q := floats [(d1, 4.0%Q); (d2, 3.9%Q)].
Definition usd_d2_d1 : dict Q := floats [(d2, 3.9%Q); (d1, 4.0%Q)].
Definition chf_d1_d2 : dict Q := floats [(d1, 3.801%Q); (d2, 4.51%Q)].

(** A world with the history of 2024-03-10 whose source lists two later
    days for every currency. *)
Definition entries_0311_0312 : list RateEntry :=
  [ mkEntry (Some "2024-03-11") (Some 4.30%Q);
    mkEntry (Some "2024-03-12") (Some 4.31%Q) ].

Definition online (files : gmap string FileContent) (response : Response)
    : World :=
  mkWorld files Healthy (λ _, Got response) ("2023-12-14", "2024-03-13") [].

(** The worlds a run of cycles goes through: between two cycles the files
    stay, and anything else (the source, the clock, the terminal) may
    change; the medium is healthy when a cycle starts. *)
Inductive cycles (to_datetime : string → option Timestamp)
    : World → World → Prop :=
  | cycles_none w : cycles to_datetime w w
  | cycles_more w w' next :
      cycles to_datetime w w' →
      fs next = fs w' →
      medium next = Healthy →
      cycles to_datetime w (run (main_auto to_datetime) next).

(** The lines [save_to_csv] prints for [SELECTED_CURRENCY_FILE]. *)
Definition selected_line (existed : bool) : string :=
  nl ++ (if existed then "Data has been successfully updated to "
         else "Data has been successfully saved to ")
     ++ SELECTED_CURRENCY_FILE.
Definition selected_error_line (e : Exn) : Output :=
  ErrorLine (nl ++ "Error while saving data to " ++ SELECTED_CURRENCY_FILE
             ++ ": ") e.

(** The row of the report for [currency_pair]. *)
Definition report_row (series_sum : list Q → Q) (data_frame : DataFrame)
    (currency_pair : string) : list string :=
  let statistics :=
    describe series_sum (omap (cell currency_pair) (rows data_frame)) in
  [ currency_pair;
    format_4f (stat_mean statistics);
    format_4f (stat_50 statistics);
    format_4f (stat_min statistics);
    format_4f (stat_max statistics) ].

Definition not_present (currency_pair : string) : string :=
  nl ++ "The currency pair " ++ currency_pair
     ++ " is not present in the DataFrame.".
Definition no_data (currency_pair : string) : string :=
  nl ++ "No data available for the currency pair " ++ currency_pair ++ ".".

(** A table whose EUR/USD column has no value. *)
Definition frame_without_values : DataFrame :=
  mkDF ["EUR/USD"] [mkRow "2024-03-11" []; mkRow "2024-03-12" []].

(** The characters of a string. *)
Definition chars (s : string) : list ascii := list_ascii_of_string s.

(** A letter from a to z. *)
Definition lowercase (c : ascii) : Prop :=
  (97 ≤ nat_of_ascii c ≤ 122)%nat.

(** The table [main_manual] stores in the selection file and reports on. *)
Definition selection (df : DataFrame) (selected_currency_pairs : list string)
    : DataFrame :=
  drop_columns df
    (filter (λ col, col ∉ "Date" :: selected_currency_pairs) (columns df)).

(** * Properties *)

Local Open Scope list_scope.

(** * Facts about floats *)

Lemma round_half_even_close q :
  (Qabs (inject_Z (round_half_even q) - q) <= 1 # 2)%Q.
Proof.
  unfold round_half_even.
  pose proof (Qfloor_le q) as Hle. pose proof (Qlt_floor q) as Hlt.
  rewrite inject_Z_plus in Hlt.
  change (inject_Z 1) with 1%Q in Hlt.
  apply Qabs_Qle_condition.
  destruct (Qcompare_spec (q - inject_Z (Qfloor q)) (1 # 2)) as [He|Hc|Hc].
  - destruct (Z.even (Qfloor q)).
    + split; lra.
    + rewrite inject_Z_plus. change (inject_Z 1) with 1%Q. split; lra.
  - split; lra.
  - rewrite inject_Z_plus. change (inject_Z 1) with 1%Q. split; lra.
Qed.

Lemma pow2_pos e : (0 < pow2 e)%Q.
Proof. by apply Qpower_0_lt. Qed.

Lemma pow2_plus a b : (pow2 (a + b) == pow2 a * pow2 b)%Q.
Proof. by apply Qpower_plus. Qed.

Lemma pow2_inject a : 0 ≤ a → (pow2 a == inject_Z (2 ^ a))%Q.
Proof. intros Ha. unfold pow2. by rewrite Zpower_Qpower. Qed.

(** A negative power of two as a power of one half, which [lra] reads as
    a number. *)
Lemma pow2_neg (k : positive) : (pow2 (Z.neg k) == (1 # 2) ^ Z.pos k)%Q.
Proof.
  unfold pow2. change (Z.neg k) with (- Z.pos k).
  rewrite Qpower_opp, <- Qinv_power. reflexivity.
Qed.

(** The exponent of a number other than zero: [2^e <= |x|]. *)
Lemma exponent_le x : ¬ (x == 0)%Q → (pow2 (exponent x) <= Qabs x)%Q.
Proof.
  intros Hx. unfold exponent.
  set (n := Z.abs (Qnum x)). set (d := Z.pos (Qden x)).
  destruct (Qle_bool _ _) eqn:Hb; [by apply Qle_bool_iff |].
  assert (0 < n) as Hn.
  { unfold n. destruct x as [[|p|p] q]; [|done..].
    exfalso. apply Hx. reflexivity. }
  assert (0 < d) as Hd by done.
  pose proof (Z.log2_spec n Hn) as [Hn1 _].
  pose proof (Z.log2_spec d Hd) as [_ Hd2].
  pose proof (Z.log2_nonneg n) as Ha. pose proof (Z.log2_nonneg d) as Hb'.
  set (a := Z.log2 n) in *. set (b := Z.log2 d) in *.
  replace (a - b - 1) with (a + - (Z.succ b)) by lia.
  rewrite pow2_plus. unfold pow2 at 2. rewrite Qpower_opp.
  fold (pow2 (Z.succ b)). rewrite !pow2_inject by lia.
  assert (Qabs x == inject_Z n / inject_Z d)%Q as ->.
  { unfold n, d. destruct x as [k q]. unfold Qabs. cbn [Qnum Qden].
    rewrite (Qmake_Qdiv (Z.abs k) q). reflexivity. }
  assert (0 < inject_Z (2 ^ Z.succ b))%Q as Hp.
  { rewrite <- pow2_inject by lia. apply pow2_pos. }
  assert (0 < inject_Z d)%Q as Hdq.
  { change 0%Q with (inject_Z 0). by rewrite <- Zlt_Qlt. }
  apply Qle_shift_div_l; [done |].
  assert (inject_Z (2 ^ a) * / inject_Z (2 ^ Z.succ b) * inject_Z d
          == inject_Z (2 ^ a) * inject_Z d / inject_Z (2 ^ Z.succ b))%Q as ->
    by (field; lra).
  apply Qle_shift_div_r; [done |].
  rewrite <- !inject_Z_mult, <- Zle_Qle. nia.
Qed.

Lemma binary64_zero x : (x == 0)%Q → binary64 x = 0%Q.
Proof. intros H%Qeq_bool_iff. unfold binary64. by rewrite H. Qed.

(** Rounding to the nearest float moves a number by at most half a unit
    in its last place: by [|x| * 2^-53], or by [2^-1075] among the
    subnormal numbers. *)
Lemma binary64_close x :
  (Qabs (binary64 x - x) <= Qabs x * pow2 (-53) + pow2 (-1075))%Q.
Proof.
  pose proof (pow2_pos (-53)) as H53. pose proof (pow2_pos (-1075)) as H1075.
  pose proof (Qabs_nonneg x) as Hax.
  unfold binary64. destruct (Qeq_bool x 0) eqn:Hz.
  - apply Qeq_bool_iff in Hz. rewrite Hz.
    change (Qabs (0 - 0)) with 0%Q. change (Qabs 0) with 0%Q. lra.
  - assert (¬ (x == 0)%Q) as Hx.
    { intros H. apply Qeq_bool_iff in H. congruence. }
    set (u := Z.max (exponent x - 52) (-1074)).
    pose proof (pow2_pos u) as Hu.
    pose proof (round_half_even_close (x / pow2 u)) as Hr.
    set (m := inject_Z (round_half_even (x / pow2 u))) in *.
    assert (Qabs (m * pow2 u - x) <= pow2 u * (1 # 2))%Q as Hclose.
    { apply Qabs_Qle_condition in Hr as [H1 H2].
      apply Qabs_Qle_condition.
      set (y := (x / pow2 u)%Q) in *.
      assert (x == y * pow2 u)%Q as Hx' by (unfold y; field; lra).
      rewrite Hx'. split; nra. }
    eapply Qle_trans; [exact Hclose |].
    destruct (Z.max_spec (exponent x - 52) (-1074)) as [[_ Hm]|[_ Hm]];
      fold u in Hm; rewrite Hm.
    + assert (pow2 (-1074) * (1 # 2) == pow2 (-1075))%Q as -> by reflexivity.
      nra.
    + pose proof (exponent_le x Hx) as He.
      replace (exponent x - 52) with (exponent x + -52) by lia.
      rewrite pow2_plus.
      assert (pow2 (-52) * (1 # 2) == pow2 (-53))%Q as H52 by reflexivity.
      pose proof (pow2_pos (exponent x)) as Hpe.
      set (p := pow2 (exponent x)) in *.
      assert (p * pow2 (-52) * (1 # 2) == p * pow2 (-53))%Q as ->.
      { rewrite <- H52. ring. }
      nra.
Qed.

(** The two bounds of [binary64_close], side by side. *)
Lemma binary64_between x :
  (x - (Qabs x * pow2 (-53) + pow2 (-1075)) <= binary64 x
   ∧ binary64 x <= x + (Qabs x * pow2 (-53) + pow2 (-1075)))%Q.
Proof.
  pose proof (binary64_close x) as [H1 H2]%Qabs_Qle_condition. split; lra.
Qed.

Lemma Qabs_between x : (- Qabs x <= x ∧ x <= Qabs x)%Q.
Proof.
  pose proof (Qle_Qabs x). pose proof (Qle_Qabs (- x)) as H'.
  rewrite Qabs_opp in H'. split; lra.
Qed.

Lemma Qabs_bound x y : (- y <= x)%Q → (x <= y)%Q → (Qabs x <= y)%Q.
Proof. intros. by apply Qabs_Qle_condition. Qed.


(** * Facts about timestamps *)

Lemma ts_gt_spec a b : ts_gt a b = true ↔ ∃ x y, a = TS x ∧ b = TS y ∧ y < x.
Proof.
  destruct a as [|x], b as [|y]; simpl; try (split; [done | naive_solver]).
  rewrite bool_decide_eq_true. naive_solver.
Qed.

Lemma series_max_NaT s : series_max s = NaT ↔ Forall (λ t, t = NaT) s.
Proof.
  induction s as [|t s IH]; simpl; [by split; [constructor|] |].
  rewrite Forall_cons, <- IH.
  destruct t, (series_max s); simpl; naive_solver.
Qed.

Lemma series_max_TS s m :
  series_max s = TS m → TS m ∈ s ∧ ∀ z, TS z ∈ s → z ≤ m.
Proof.
  revert m. induction s as [|t s IH]; intros m; simpl; [done |].
  destruct t as [|x], (series_max s) as [|y] eqn:E; simpl; intros Hm;
    simplify_eq.
  - destruct (IH _ eq_refl) as [Hin Hle]. split; [by right |].
    intros z Hz. apply elem_of_cons in Hz as [|]; [done | auto].
  - apply series_max_NaT in E. split; [by left |].
    intros z Hz. apply elem_of_cons in Hz as [|Hz]; [by simplify_eq |].
    rewrite Forall_forall in E. by specialize (E _ Hz).
  - destruct (IH _ eq_refl) as [Hin Hle]. split.
    + destruct (Z.max_spec x y) as [[_ ->]|[_ ->]]; [by right | by left].
    + intros z Hz. apply elem_of_cons in Hz as [|Hz]; [simplify_eq; lia |].
      specialize (Hle _ Hz). lia.
Qed.

(** * Facts about [drop_duplicates] and [boolean_index] *)

Lemma drop_duplicates_elem_of r rs : r ∈ drop_duplicates rs → r ∈ rs.
Proof.
  revert r. induction rs as [|r0 rs IH]; intros r; simpl; [done |].
  rewrite !elem_of_cons, list_elem_of_filter. naive_solver.
Qed.

Lemma drop_duplicates_dates k rs :
  k ∈ dates (drop_duplicates rs) ↔ k ∈ dates rs.
Proof.
  unfold dates. induction rs as [|r0 rs IH]; simpl; [done |].
  rewrite !elem_of_cons, <- IH, !list_elem_of_fmap.
  setoid_rewrite list_elem_of_filter.
  destruct (decide (k = Date r0)); naive_solver.
Qed.

Lemma drop_duplicates_NoDup rs : NoDup (dates (drop_duplicates rs)).
Proof.
  unfold dates. induction rs as [|r0 rs IH]; simpl; [constructor |].
  constructor.
  - rewrite list_elem_of_fmap. intros (r & Hr & Hin).
    apply list_elem_of_filter in Hin as [Hne _]. congruence.
  - clear -IH. induction (drop_duplicates rs) as [|r l IHl]; simpl; [constructor |].
    inv IH. rewrite filter_cons. case_decide; simpl; [|auto].
    constructor; [|auto].
    rewrite list_elem_of_fmap. intros (r' & Hr' & Hin).
    apply list_elem_of_filter in Hin as [_ Hin].
    match goal with H : _ ∉ _ |- _ => apply H end.
    rewrite list_elem_of_fmap. eauto.
Qed.

Lemma drop_duplicates_id rs : NoDup (dates rs) → drop_duplicates rs = rs.
Proof.
  unfold dates. induction rs as [|r0 rs IH]; simpl; [done |].
  intros Hnd. inv Hnd. rewrite IH by done. f_equal.
  match goal with H : _ ∉ _ |- _ => rename H into Hnotin end.
  clear -Hnotin. induction rs as [|r rs IHrs]; [done |].
  rewrite fmap_cons, not_elem_of_cons in Hnotin. destruct Hnotin.
  rewrite filter_cons. case_decide; [f_equal; auto | congruence].
Qed.

Lemma drop_duplicates_app a b :
  drop_duplicates (a ++ b)
  = drop_duplicates a ++ filter (λ r, Date r ∉ dates a) (drop_duplicates b).
Proof.
  induction a as [|r0 a IH]; simpl.
  - symmetry. induction (drop_duplicates b) as [|r l IHl]; [done |].
    rewrite filter_cons. case_decide as Hd; [by f_equal |].
    by apply elem_of_nil in Hd.
  - f_equal. rewrite IH, filter_app. f_equal.
    rewrite list_filter_filter. apply list_filter_iff.
    intros r. unfold dates. simpl. rewrite not_elem_of_cons. naive_solver.
Qed.

Lemma boolean_index_filter (P : Row → bool) (f : Timestamp → bool)
    (g : string → option Timestamp) rs tss :
  Forall2 (λ r t, g (Date r) = Some t) rs tss →
  (∀ r t, g (Date r) = Some t → P r = f t) →
  boolean_index rs (f <$> tss) = filter (λ r, P r) rs.
Proof.
  intros HF HP. induction HF as [|r t rs tss Hr _ IH]; [done |].
  rewrite fmap_cons, filter_cons, <- IH. cbn [boolean_index].
  rewrite <- (HP _ _ Hr). by destruct (P r).
Qed.

(** * Facts about the history store *)

Section StoreFacts.

Variable to_datetime : string → option Timestamp.

Local Abbreviation parsed := (timestamps to_datetime).

Lemma to_datetime_series_Ok s tss :
  to_datetime_series to_datetime s = Ok tss
  ↔ Forall2 (λ c t, to_datetime c = Some t) s tss.
Proof.
  revert tss. induction s as [|c s IH]; intros tss; simpl.
  - split; [intros [= <-]; constructor | by inversion 1].
  - destruct (to_datetime c) as [t|] eqn:Hc.
    + destruct (to_datetime_series to_datetime s) as [ts|e] eqn:Hs.
      * split.
        -- intros [= <-]. constructor; [done | by apply IH].
        -- inversion 1 as [|? t' ? ts' Ht Hts]; subst.
           apply IH in Hts. congruence.
      * split; [done |].
        inversion 1 as [|? t' ? ts' Ht Hts]; subst.
        by apply IH in Hts.
    + split; [done |]. inversion 1; congruence.
Qed.

Lemma parses_Forall2 rs :
  parses to_datetime rs →
  Forall2 (λ r t, to_datetime (Date r) = Some t) rs (parsed rs).
Proof.
  induction 1 as [|r rs [t Ht] _ IH]; simpl; [constructor |].
  rewrite Ht. by constructor.
Qed.

Lemma to_datetime_series_parses rs :
  parses to_datetime rs →
  to_datetime_series to_datetime (dates rs) = Ok (parsed rs).
Proof.
  intros H. apply to_datetime_series_Ok. unfold dates.
  apply Forall2_fmap_l. by apply parses_Forall2.
Qed.

Lemma to_datetime_series_Ok_parses rs tss :
  to_datetime_series to_datetime (dates rs) = Ok tss →
  parses to_datetime rs ∧ tss = parsed rs.
Proof.
  intros H. assert (parses to_datetime rs) as Hp.
  { apply to_datetime_series_Ok in H. unfold dates in H.
    apply Forall2_fmap_l in H. unfold parses.
    induction H; constructor; eauto. }
  split; [done |]. rewrite to_datetime_series_parses in H by done. congruence.
Qed.

Lemma elem_of_timestamps t (rs : list Row) :
  t ∈ parsed rs ↔ ∃ r, r ∈ rs ∧ to_datetime (Date r) = Some t.
Proof. unfold timestamps. rewrite list_elem_of_omap. naive_solver. Qed.

Lemma latest_date_max rs M :
  is_max_date_key to_datetime rs M → latest_date to_datetime rs = TS M.
Proof.
  intros [(r & Hr & Hk) Hle]. unfold latest_date.
  assert (TS M ∈ parsed rs) as HM.
  { apply elem_of_timestamps. exists r. split; [done |].
    unfold date_key in Hk. by repeat case_match; simplify_eq. }
  destruct (series_max (parsed rs)) as [|m] eqn:E.
  - apply series_max_NaT in E. rewrite Forall_forall in E.
    by specialize (E _ HM).
  - apply series_max_TS in E as [Hin Hmax]. f_equal.
    apply elem_of_timestamps in Hin as (r' & Hr' & Ht').
    specialize (Hle r' m Hr'). unfold date_key in Hle. rewrite Ht' in Hle.
    specialize (Hle eq_refl). specialize (Hmax _ HM). lia.
Qed.

Lemma newer_exceeds M r : newer to_datetime (TS M) r = exceeds to_datetime M r.
Proof.
  unfold newer, exceeds, date_key.
  by destruct (to_datetime (Date r)) as [[|z]|].
Qed.

Lemma newer_NaT r : newer to_datetime NaT r = false.
Proof. unfold newer. by destruct (to_datetime (Date r)) as [[|z]|]. Qed.

(** What lines 63-68 compute when every date parses. *)
Lemma updated_data_parses existing data_frame :
  parses to_datetime (rows existing) →
  parses to_datetime (rows data_frame) →
  updated_data to_datetime existing data_frame
  = Ok (mkDF (columns existing
              ++ filter (λ c, c ∉ columns existing) (columns data_frame))
             (drop_duplicates
                (rows existing
                 ++ filter (λ r, newer to_datetime
                                   (latest_date to_datetime (rows existing)) r)
                      (rows data_frame)))).
Proof.
  intros He Hi. unfold updated_data.
  rewrite !to_datetime_series_parses by done. simpl. do 4 f_equal.
  apply boolean_index_filter with (g := to_datetime).
  - by apply parses_Forall2.
  - intros r t Hr. unfold newer. by rewrite Hr.
Qed.

Lemma updated_data_Ok existing data_frame updated :
  updated_data to_datetime existing data_frame = Ok updated →
  parses to_datetime (rows existing) ∧ parses to_datetime (rows data_frame).
Proof.
  unfold updated_data. intros H.
  destruct (to_datetime_series _ (dates (rows existing))) eqn:E1; [|done].
  destruct (to_datetime_series _ (dates (rows data_frame))) eqn:E2; [|done].
  apply to_datetime_series_Ok_parses in E1 as [? _].
  apply to_datetime_series_Ok_parses in E2 as [? _]. done.
Qed.

Lemma save_to_csv_history data_frame :
  save_to_csv to_datetime data_frame ALL_CURRENCY_FILE
  = try_except (merge_attempt to_datetime data_frame)
      (λ e, λ w, (Ok (), put_stdout (error_line e) w)).
Proof. reflexivity. Qed.

Lemma merge_attempt_existing w existing data_frame :
  fs w !! ALL_CURRENCY_FILE = Some (Csv existing) →
  merge_attempt to_datetime data_frame w
  = match updated_data to_datetime existing data_frame with
    | Raised e => (Raised e, w)
    | Ok updated =>
        match medium w with
        | Healthy =>
            (Ok (), put_stdout (Line updated_line)
                      (set_fs (<[ALL_CURRENCY_FILE := Csv updated]>) w))
        | Faulty residue =>
            (Raised OSError,
             set_fs (partial_alter (λ _, residue) ALL_CURRENCY_FILE) w)
        end
    end.
Proof.
  intros Hf. unfold merge_attempt, mbind, IO_bind, isfile, read_csv, lift.
  rewrite Hf. rewrite bool_decide_eq_true_2 by eauto. cbv beta iota.
  rewrite Hf. destruct (updated_data to_datetime existing data_frame); [|done].
  unfold to_csv. by destruct (medium w).
Qed.

Lemma merge_attempt_garbled w data_frame :
  fs w !! ALL_CURRENCY_FILE = Some Garbled →
  merge_attempt to_datetime data_frame w = (Raised ParserError, w).
Proof.
  intros Hf. unfold merge_attempt, mbind, IO_bind, isfile, read_csv.
  rewrite Hf. rewrite bool_decide_eq_true_2 by eauto. cbv beta iota.
  by rewrite Hf.
Qed.

Lemma merge_attempt_absent w data_frame :
  fs w !! ALL_CURRENCY_FILE = None →
  merge_attempt to_datetime data_frame w
  = match medium w with
    | Healthy =>
        (Ok (), put_stdout (Line saved_line)
                  (set_fs (<[ALL_CURRENCY_FILE := Csv data_frame]>) w))
    | Faulty residue =>
        (Raised OSError,
         set_fs (partial_alter (λ _, residue) ALL_CURRENCY_FILE) w)
    end.
Proof.
  intros Hf. unfold merge_attempt, mbind, IO_bind, isfile.
  rewrite Hf. rewrite bool_decide_eq_false_2 by (by intros [? ?]).
  unfold to_csv. by destruct (medium w).
Qed.

End StoreFacts.

Section StoreEffects.

Variable to_datetime : string → option Timestamp.

Local Abbreviation save df := (save_to_csv to_datetime df ALL_CURRENCY_FILE).

Lemma history_Some w df :
  history w = Some df ↔ fs w !! ALL_CURRENCY_FILE = Some (Csv df).
Proof.
  unfold history. destruct (fs w !! ALL_CURRENCY_FILE) as [[]|]; naive_solver.
Qed.

(** The handler turns every failure of the attempt into a printed line
    and a normal return. *)
Lemma save_to_csv_attempt data_frame w :
  save data_frame w
  = match merge_attempt to_datetime data_frame w with
    | (Ok (), w') => (Ok (), w')
    | (Raised e, w') => (Ok (), put_stdout (error_line e) w')
    end.
Proof.
  rewrite save_to_csv_history. unfold try_except.
  by destruct (merge_attempt to_datetime data_frame w) as [[[]|e] w'].
Qed.

(** The attempt, case by case. *)
Lemma merge_attempt_staged data_frame w :
  merge_attempt to_datetime data_frame w
  = match staged to_datetime data_frame w with
    | None =>
        (Raised match fs w !! ALL_CURRENCY_FILE with
                | Some (Csv existing) =>
                    match updated_data to_datetime existing data_frame with
                    | Raised e => e
                    | Ok _ => ParserError
                    end
                | _ => ParserError
                end, w)
    | Some df =>
        match medium w with
        | Healthy =>
            (Ok (),
             put_stdout
               (Line (if fs w !! ALL_CURRENCY_FILE is Some _ then updated_line
                      else saved_line))
               (set_fs (<[ALL_CURRENCY_FILE := Csv df]>) w))
        | Faulty residue =>
            (Raised OSError,
             set_fs (partial_alter (λ _, residue) ALL_CURRENCY_FILE) w)
        end
    end.
Proof.
  unfold staged.
  destruct (fs w !! ALL_CURRENCY_FILE) as [[existing|]|] eqn:Hf.
  - rewrite (merge_attempt_existing _ _ existing) by done.
    by destruct (updated_data to_datetime existing data_frame).
  - by apply merge_attempt_garbled.
  - by apply merge_attempt_absent.
Qed.

Lemma save_fs data_frame w :
  fs (run (save data_frame) w)
  = match staged to_datetime data_frame w with
    | None => fs w
    | Some df =>
        match medium w with
        | Healthy => <[ALL_CURRENCY_FILE := Csv df]> (fs w)
        | Faulty residue => partial_alter (λ _, residue) ALL_CURRENCY_FILE (fs w)
        end
    end.
Proof.
  unfold run. rewrite save_to_csv_attempt, merge_attempt_staged.
  destruct (staged to_datetime data_frame w); [|done].
  by destruct (medium w).
Qed.

Lemma save_medium data_frame w :
  medium (run (save data_frame) w) = medium w.
Proof.
  unfold run. rewrite save_to_csv_attempt, merge_attempt_staged.
  destruct (staged to_datetime data_frame w); [|done].
  by destruct (medium w) eqn:E.
Qed.

Lemma save_outcome data_frame w : outcome (save data_frame) w = Ok ().
Proof.
  unfold outcome. rewrite save_to_csv_attempt.
  by destruct (merge_attempt to_datetime data_frame w) as [[[]|e] w'].
Qed.

(** A healthy medium and a readable history whose dates parse, merged
    with a table whose dates parse: the history becomes the stored rows
    followed by the later rows of the table, one row kept per date. *)
Lemma save_history w existing data_frame :
  history w = Some existing →
  medium w = Healthy →
  parses to_datetime (rows existing) →
  parses to_datetime (rows data_frame) →
  ∃ merged,
    fs (run (save data_frame) w) = <[ALL_CURRENCY_FILE := Csv merged]> (fs w)
    ∧ history (run (save data_frame) w) = Some merged
    ∧ rows merged
      = drop_duplicates
          (rows existing
           ++ filter (λ r, newer to_datetime
                             (latest_date to_datetime (rows existing)) r)
                (rows data_frame)).
Proof.
  intros Hh Hm He Hi. apply history_Some in Hh.
  pose proof (updated_data_parses to_datetime _ _ He Hi) as Hu.
  match type of Hu with _ = Ok ?u =>
    exists u;
    assert (fs (run (save data_frame) w)
            = <[ALL_CURRENCY_FILE := Csv u]> (fs w)) as Hfs
  end.
  { rewrite save_fs. unfold staged. rewrite Hh, Hm, Hu. reflexivity. }
  split; [exact Hfs |]. split; [|reflexivity].
  apply history_Some. by rewrite Hfs, lookup_insert_eq.
Qed.

(** When the attempt fails before the write, nothing is written. *)
Lemma save_unchanged w data_frame :
  staged to_datetime data_frame w = None →
  fs (run (save data_frame) w) = fs w.
Proof. intros H. by rewrite save_fs, H. Qed.

End StoreEffects.

Lemma NoDup_dates_filter (P : Row → Prop) `{!∀ r, Decision (P r)} rs :
  NoDup (dates rs) → NoDup (dates (filter P rs)).
Proof.
  unfold dates. induction rs as [|r rs IH]; simpl; [done |].
  intros Hnd. inv Hnd. rewrite filter_cons. case_decide; simpl; [|auto].
  constructor; [|auto].
  rewrite list_elem_of_fmap. intros (r' & Hr' & Hin).
  apply list_elem_of_filter in Hin as [_ Hin].
  match goal with H : _ ∉ _ |- _ => apply H end.
  rewrite list_elem_of_fmap. eauto.
Qed.

Section MergeClaims.

Variable to_datetime : string → option Timestamp.

Local Abbreviation save df := (save_to_csv to_datetime df ALL_CURRENCY_FILE).

Lemma exceeds_spec M r :
  exceeds to_datetime M r = true
  ↔ ∃ z, date_key to_datetime r = Some z ∧ M < z.
Proof.
  unfold exceeds. destruct (date_key to_datetime r) as [z|].
  - rewrite bool_decide_eq_true. naive_solver.
  - naive_solver.
Qed.

Lemma date_key_Date r1 r2 :
  Date r1 = Date r2 → date_key to_datetime r1 = date_key to_datetime r2.
Proof. unfold date_key. by intros ->. Qed.

(** Rows later than the stored maximum carry dates that are not stored. *)
Lemma exceeds_fresh rs M r :
  is_max_date_key to_datetime rs M →
  exceeds to_datetime M r = true → Date r ∉ dates rs.
Proof.
  intros [_ Hle] (z & Hz & Hlt)%exceeds_spec.
  unfold dates. rewrite list_elem_of_fmap. intros (r' & Heq & Hin).
  rewrite (date_key_Date _ _ Heq) in Hz. specialize (Hle _ _ Hin Hz). lia.
Qed.

(** C1. Merging a table into a history whose maximum DateKey is [M]
    keeps the stored rows and appends after them exactly the rows of
    the table whose DateKey strictly exceeds [M]; the rows of the table
    dated [M] or earlier are not appended. Histories and tables have one
    row per DateKey. *)
Theorem C1_merge_appends_rows_after_max w existing data_frame M :
  history w = Some existing →
  medium w = Healthy →
  parses to_datetime (rows existing) →
  parses to_datetime (rows data_frame) →
  NoDup (dates (rows existing)) →
  NoDup (dates (rows data_frame)) →
  is_max_date_key to_datetime (rows existing) M →
  ∃ merged,
    history (run (save data_frame) w) = Some merged
    ∧ rows merged
      = rows existing
        ++ filter (λ r, exceeds to_datetime M r) (rows data_frame)
    ∧ ∀ r z, r ∈ rows data_frame → date_key to_datetime r = Some z →
             z ≤ M → r ∉ drop (length (rows existing)) (rows merged).
Proof.
  intros Hh Hm He Hi Hnd1 Hnd2 HM.
  destruct (save_history to_datetime w existing data_frame Hh Hm He Hi)
    as (merged & _ & Hh' & Hrows).
  rewrite (latest_date_max _ _ _ HM) in Hrows.
  rewrite (list_filter_iff _ (λ r, exceeds to_datetime M r)) in Hrows
    by (intros r; by rewrite newer_exceeds).
  rewrite drop_duplicates_id in Hrows.
  - exists merged. split; [done |]. split; [done |].
    intros r z Hr Hz Hle. rewrite Hrows, drop_app_length.
    rewrite list_elem_of_filter. intros [Hex _].
    apply Is_true_true, exceeds_spec in Hex as (z' & Hz' & Hlt).
    simplify_eq. lia.
  - unfold dates. rewrite fmap_app. apply NoDup_app. split; [done |]. split.
    + intros k Hk1 Hk2. apply list_elem_of_fmap in Hk2 as (r & -> & Hr).
      apply list_elem_of_filter in Hr as [Hex _].
      by eapply exceeds_fresh; [done | by apply Is_true_true |].
    + by apply NoDup_dates_filter.
Qed.

(** C3. A merge never removes or alters a stored row: the stored rows
    stay, each at its position, and the result has at least as many rows;
    nothing is appended for a DateKey that is already stored, whatever
    value the incoming table carries for it. *)
Theorem C3_merge_keeps_stored_rows w existing data_frame :
  history w = Some existing →
  medium w = Healthy →
  NoDup (dates (rows existing)) →
  ∃ merged appended,
    history (run (save data_frame) w) = Some merged
    ∧ rows merged = rows existing ++ appended
    ∧ (length (rows existing) ≤ length (rows merged))%nat
    ∧ (∀ i r, rows existing !! i = Some r → rows merged !! i = Some r)
    ∧ ∀ r, r ∈ appended → Date r ∉ dates (rows existing).
Proof.
  intros Hh Hm Hnd.
  assert (∃ merged appended,
             history (run (save data_frame) w) = Some merged
             ∧ rows merged = rows existing ++ appended
             ∧ ∀ r, r ∈ appended → Date r ∉ dates (rows existing))
    as (merged & appended & Hh' & Hrows & Hfresh).
  { destruct (staged to_datetime data_frame w) as [updated|] eqn:Hst.
    - pose proof Hst as Hst'. unfold staged in Hst'.
      rewrite (proj1 (history_Some _ _) Hh) in Hst'.
      destruct (updated_data to_datetime existing data_frame) as [u|] eqn:Hu;
        [|done].
      simplify_eq.
      destruct (updated_data_Ok _ _ _ _ Hu) as [He Hi].
      destruct (save_history to_datetime w existing data_frame Hh Hm He Hi)
        as (merged & _ & Hh' & Hrows).
      rewrite drop_duplicates_app, drop_duplicates_id in Hrows by done.
      eexists merged, _. split; [done |]. split; [exact Hrows |].
      by intros r [? _]%list_elem_of_filter.
    - exists existing, []. split; [|split].
      + apply history_Some. rewrite save_unchanged by done.
        by apply history_Some.
      + by rewrite app_nil_r.
      + by intros r ?%elem_of_nil. }
  exists merged, appended. split; [done |]. split; [done |].
  split; [rewrite Hrows, length_app; lia |]. split; [|done].
  intros i r Hi. rewrite Hrows. by apply lookup_app_l_Some.
Qed.

End MergeClaims.

(** The example of C1: the history ends on 2024-03-10, the table has rows
    for 2024-03-09 and 2024-03-11; the row of 2024-03-10 stays, nothing is
    appended for 2024-03-09, the row of 2024-03-11 is appended. *)
Lemma C1_example_0310 :
  is_max_date_key iso_to_datetime [row_0310] 20240310
  ∧ ∃ merged,
      history (run (save_to_csv iso_to_datetime (table [row_0309; row_0311])
                      ALL_CURRENCY_FILE) (storing [row_0310])) = Some merged
      ∧ rows merged = [row_0310; row_0311].
Proof.
  assert (is_max_date_key iso_to_datetime [row_0310] 20240310) as HM.
  { split.
    - exists row_0310. split; [by left | reflexivity].
    - intros r z ->%list_elem_of_singleton [= <-]. done. }
  split; [exact HM |].
  destruct (C1_merge_appends_rows_after_max iso_to_datetime
              (storing [row_0310]) (table [row_0310])
              (table [row_0309; row_0311]) 20240310)
    as (merged & Hh & Hrows & _).
  - reflexivity.
  - reflexivity.
  - repeat constructor; by eexists.
  - repeat constructor; by eexists.
  - apply NoDup_singleton.
  - apply (bool_decide_unpack _). by vm_compute.
  - exact HM.
  - exists merged. split; [exact Hh | exact Hrows].
Defined.

(** An example of C3: the history holds 2024-03-10, the table carries a
    revised value for 2024-03-10 and a row for 2024-03-11. *)
Lemma C3_example_revised :
  ∃ merged appended,
    history (run (save_to_csv iso_to_datetime
                    (table [row_0310_revised; row_0311])
                    ALL_CURRENCY_FILE) (storing [row_0310])) = Some merged
    ∧ rows merged = [row_0310] ++ appended
    ∧ row_0310_revised ∉ rows merged.
Proof.
  destruct (C3_merge_keeps_stored_rows iso_to_datetime
              (storing [row_0310]) (table [row_0310])
              (table [row_0310_revised; row_0311]))
    as (merged & appended & Hh & Hrows & _ & _ & Hfresh).
  - reflexivity.
  - reflexivity.
  - apply NoDup_singleton.
  - exists merged, appended. split; [exact Hh |]. split; [exact Hrows |].
    rewrite Hrows. intros [Hin|Hin]%elem_of_app.
    + apply list_elem_of_singleton in Hin. discriminate Hin.
    + apply Hfresh in Hin. apply Hin. by left.
Defined.

Section Idempotence.

Variable to_datetime : string → option Timestamp.

Local Abbreviation save df := (save_to_csv to_datetime df ALL_CURRENCY_FILE).
Local Abbreviation latest := (latest_date to_datetime).

Lemma parses_app rs1 rs2 :
  parses to_datetime (rs1 ++ rs2)
  ↔ parses to_datetime rs1 ∧ parses to_datetime rs2.
Proof. apply Forall_app. Qed.

Lemma parses_subseteq rs1 rs2 :
  (∀ r, r ∈ rs1 → r ∈ rs2) → parses to_datetime rs2 → parses to_datetime rs1.
Proof. unfold parses. rewrite !Forall_forall. auto. Qed.

(** A timestamp of the rows is one of the de-duplicated rows, and back. *)
Lemma timestamps_drop_duplicates t rs :
  t ∈ timestamps to_datetime (drop_duplicates rs)
  ↔ t ∈ timestamps to_datetime rs.
Proof.
  rewrite !elem_of_timestamps. split.
  - intros (r & Hr & Ht). eauto using drop_duplicates_elem_of.
  - intros (r & Hr & Ht).
    assert (Date r ∈ dates (drop_duplicates rs)) as Hk.
    { apply drop_duplicates_dates. unfold dates.
      apply list_elem_of_fmap. eauto. }
    apply list_elem_of_fmap in Hk as (r' & Heq & Hr').
    exists r'. split; [done |]. by rewrite <- Heq.
Qed.

Lemma newer_spec l r :
  newer to_datetime l r = true
  ↔ ∃ z m, to_datetime (Date r) = Some (TS z) ∧ l = TS m ∧ m < z.
Proof.
  unfold newer. destruct (to_datetime (Date r)) as [t|].
  - rewrite ts_gt_spec. naive_solver.
  - naive_solver.
Qed.

(** After a merge no row of the merged table is later than the history. *)
Lemma nothing_newer_after_merge rs incoming :
  filter (λ r, newer to_datetime
                 (latest (drop_duplicates
                            (rs ++ filter (λ r, newer to_datetime (latest rs) r)
                                    incoming))) r)
    incoming = [].
Proof.
  set (F := filter (λ r, newer to_datetime (latest rs) r) incoming).
  apply elem_of_nil_inv. intros r [Hnew Hr]%list_elem_of_filter.
  apply Is_true_true, newer_spec in Hnew as (z & m' & Hz & Hm' & Hlt).
  apply series_max_TS in Hm' as [Hin' Hmax].
  assert (∀ y, TS y ∈ timestamps to_datetime (rs ++ F) → y ≤ m') as Hall.
  { intros y Hy. apply Hmax. by apply timestamps_drop_duplicates. }
  apply (proj1 (timestamps_drop_duplicates _ _)) in Hin'.
  destruct (newer to_datetime (latest rs) r) eqn:Hold.
  - (* [r] was appended by the merge: its date is in the history *)
    assert (TS z ∈ timestamps to_datetime (rs ++ F)) as Hzin.
    { apply elem_of_timestamps. exists r. split; [|done].
      apply elem_of_app. right. apply list_elem_of_filter.
      split; [by apply Is_true_true | done]. }
    specialize (Hall _ Hzin). lia.
  - (* [r] was not later than the old maximum, which is still stored *)
    assert (∃ m, latest rs = TS m) as [m Hm].
    { destruct (latest rs) as [|m] eqn:Hl; [|by eexists].
      exfalso. apply elem_of_timestamps in Hin' as (r0 & Hr0 & Ht0).
      apply elem_of_app in Hr0 as [Hr0|Hr0].
      - apply series_max_NaT in Hl. rewrite Forall_forall in Hl.
        assert (TS m' ∈ timestamps to_datetime rs) as Hx
          by (apply elem_of_timestamps; eauto).
        by specialize (Hl _ Hx).
      - apply list_elem_of_filter in Hr0 as [Hn _].
        by rewrite newer_NaT in Hn. }
    rewrite Hm in Hold.
    pose proof Hm as Hm2. apply series_max_TS in Hm2 as [Hmin _].
    assert (m ≤ m') as Hle.
    { apply Hall. unfold timestamps in *. rewrite omap_app.
      apply elem_of_app. by left. }
    unfold newer in Hold. rewrite Hz in Hold. simpl in Hold.
    apply bool_decide_eq_false in Hold. lia.
Qed.

Lemma columns_absorbed (a b : list string) :
  filter (λ c, c ∉ a ++ filter (λ c, c ∉ a) b) b = [].
Proof.
  apply elem_of_nil_inv. intros c [Hc Hb]%list_elem_of_filter.
  apply Hc. rewrite elem_of_app, list_elem_of_filter.
  destruct (decide (c ∈ a)); auto.
Qed.

(** Merging the same table once more changes nothing. *)
Lemma updated_data_twice existing data_frame updated :
  updated_data to_datetime existing data_frame = Ok updated →
  updated_data to_datetime updated data_frame = Ok updated.
Proof.
  intros Hu. destruct (updated_data_Ok _ _ _ _ Hu) as [He Hi].
  rewrite updated_data_parses in Hu by done. injection Hu as <-.
  rewrite updated_data_parses; [|simpl|done].
  - simpl. rewrite columns_absorbed, nothing_newer_after_merge, !app_nil_r.
    by rewrite drop_duplicates_id by apply drop_duplicates_NoDup.
  - eapply parses_subseteq; [intros r; apply drop_duplicates_elem_of |].
    apply parses_app. split; [done |].
    eapply parses_subseteq; [|exact Hi].
    by intros r [_ ?]%list_elem_of_filter.
Qed.

Lemma staged_fs data_frame w w' :
  fs w' = fs w → staged to_datetime data_frame w' = staged to_datetime data_frame w.
Proof. unfold staged. by intros ->. Qed.

(** C2. Merging a table into an existing history and then merging the
    same table again leaves the history as the first merge left it: the
    second merge finds no row later than the history and appends none. *)
Theorem C2_merge_idempotent w data_frame :
  is_Some (fs w !! ALL_CURRENCY_FILE) →
  fs (run (save data_frame) (run (save data_frame) w))
  = fs (run (save data_frame) w)
  ∧ ∀ merged stored_dates incoming_dates,
      medium w = Healthy →
      history (run (save data_frame) w) = Some merged →
      to_datetime_series to_datetime (dates (rows merged)) = Ok stored_dates →
      to_datetime_series to_datetime (dates (rows data_frame))
      = Ok incoming_dates →
      rows (new_entries (series_max stored_dates) incoming_dates data_frame)
      = [].
Proof.
  intros Hsome. split.
  - rewrite (save_fs _ _ (run _ w)), save_medium.
    destruct (staged to_datetime data_frame w) as [u|] eqn:Hst.
    + destruct (medium w) as [|residue] eqn:Hm.
      * assert (fs (run (save data_frame) w)
                = <[ALL_CURRENCY_FILE := Csv u]> (fs w)) as Hfs
          by (by rewrite save_fs, Hst, Hm).
        assert (staged to_datetime data_frame (run (save data_frame) w)
                = Some u) as ->.
        { unfold staged in *. rewrite Hfs, lookup_insert_eq.
          destruct (fs w !! ALL_CURRENCY_FILE) as [[existing|]|];
            [|done|by destruct Hsome].
          destruct (updated_data to_datetime existing data_frame) eqn:Hu;
            [|done].
          simplify_eq. by rewrite (updated_data_twice _ _ _ Hu). }
        by rewrite Hfs, insert_insert_eq.
      * assert (fs (run (save data_frame) w)
                = partial_alter (λ _, residue) ALL_CURRENCY_FILE (fs w)) as Hfs
          by (by rewrite save_fs, Hst, Hm).
        destruct (staged to_datetime data_frame (run (save data_frame) w));
          [|done].
        by rewrite Hfs, partial_alter_partial_alter_eq.
    + rewrite (staged_fs data_frame w (run (save data_frame) w))
        by (by apply save_unchanged).
      by rewrite Hst.
  - intros merged stored_dates incoming_dates Hm Hh Hs Hi.
    apply to_datetime_series_Ok_parses in Hs as [Hps ->].
    apply to_datetime_series_Ok_parses in Hi as [Hpi ->].
    unfold new_entries. simpl.
    rewrite (boolean_index_filter
               (newer to_datetime (latest (rows merged))) _ to_datetime);
      [|by apply parses_Forall2|by intros r t Hr; unfold newer; rewrite Hr].
    destruct (fs w !! ALL_CURRENCY_FILE) as [[existing|]|] eqn:Hf;
      [| |by destruct Hsome].
    + destruct (updated_data to_datetime existing data_frame) as [u|e] eqn:Hu.
      * destruct (updated_data_Ok _ _ _ _ Hu) as [He _].
        destruct (save_history to_datetime w existing data_frame)
          as (merged' & _ & Hh' & Hrows); [by apply history_Some|done..|].
        rewrite Hh in Hh'. injection Hh' as <-.
        rewrite Hrows. apply nothing_newer_after_merge.
      * exfalso. apply history_Some in Hh.
        rewrite save_unchanged in Hh by (unfold staged; by rewrite Hf, Hu).
        rewrite Hf in Hh. injection Hh as <-.
        rewrite updated_data_parses in Hu by done. done.
    + apply history_Some in Hh.
      rewrite save_unchanged in Hh by (unfold staged; by rewrite Hf).
      by rewrite Hf in Hh.
Qed.

End Idempotence.

(** An instance of C2: the example of C1, run twice. *)
Lemma C2_example_twice :
  fs (run (save_to_csv iso_to_datetime (table [row_0309; row_0311])
             ALL_CURRENCY_FILE) merged_once) = fs merged_once
  ∧ history merged_once = Some (table [row_0310; row_0311]).
Proof.
  split.
  - unfold merged_once.
    apply (C2_merge_idempotent iso_to_datetime (storing [row_0310])
             (table [row_0309; row_0311])).
    by eexists.
  - reflexivity.
Defined.

Section Ordering.

Variable to_datetime : string → option Timestamp.

Local Abbreviation save df := (save_to_csv to_datetime df ALL_CURRENCY_FILE).










(** C8, amended. Whatever makes the attempt fail, [save_to_csv] catches
    it: the call prints the error and returns normally, nothing reaches
    the caller. A failure other than that of the write itself happens
    before the write and leaves every file as it was. *)
Theorem C8_failure_is_printed_and_history_kept w data_frame e :
  outcome (merge_attempt to_datetime data_frame) w = Raised e →
  outcome (save data_frame) w = Ok ()
  ∧ stdout (run (save data_frame) w) = stdout w ++ [error_line e]
  ∧ (e ≠ OSError → fs (run (save data_frame) w) = fs w).
Proof.
  unfold outcome, run. rewrite save_to_csv_attempt, merge_attempt_staged.
  destruct (staged to_datetime data_frame w) as [u|].
  - destruct (medium w); simpl; [done |]. by intros [= <-].
  - simpl. by intros [= <-].
Qed.

End Ordering.


(** Why C4 as amended asks for one row per DateKey in the incoming
    table: rows are compared by their [Date] cells as written. A table
    that lists 2024-03-11 in two spellings has two rows of one DateKey,
    and the merge appends both. *)
Lemma two_spellings_of_a_date_are_two_rows :
  history (run (save_to_csv iso_to_datetime
                  (table [row_0311; row_0311_short]) ALL_CURRENCY_FILE)
             (storing [row_0310]))
  = Some (table [row_0310; row_0311; row_0311_short])
  ∧ date_keys iso_to_datetime [row_0310; row_0311; row_0311_short]
    = [20240310; 20240311; 20240311].
Proof. split; reflexivity. Qed.


(** C8 fails as stated, in both of its parts. The history file is
    unreadable: the attempt raises [ParserError], and [save_to_csv]
    returns normally. The medium fails in the middle of the write: the
    attempt raises [OSError], [save_to_csv] returns normally, and the
    history that was stored is lost. *)
Lemma C8_counterexample_swallowed :
  (outcome (merge_attempt iso_to_datetime (table [row_0311]))
     (offline {[ ALL_CURRENCY_FILE := Garbled ]}) = Raised ParserError
   ∧ outcome (save_to_csv iso_to_datetime (table [row_0311]) ALL_CURRENCY_FILE)
       (offline {[ ALL_CURRENCY_FILE := Garbled ]}) = Ok ())
  ∧ (outcome (merge_attempt iso_to_datetime (table [row_0311]))
       storing_on_faulty_medium = Raised OSError
     ∧ outcome (save_to_csv iso_to_datetime (table [row_0311])
                  ALL_CURRENCY_FILE) storing_on_faulty_medium = Ok ()
     ∧ history storing_on_faulty_medium = Some (table [row_0310])
     ∧ history (run (save_to_csv iso_to_datetime (table [row_0311])
                       ALL_CURRENCY_FILE) storing_on_faulty_medium) = None).
Proof. repeat split; reflexivity. Qed.

(** An instance of C8 as amended: the stored cell is no date. *)
Lemma C8_example_bad_date :
  outcome (save_to_csv iso_to_datetime (table [row_0311]) ALL_CURRENCY_FILE)
    storing_bad_date = Ok ()
  ∧ stdout (run (save_to_csv iso_to_datetime (table [row_0311])
                   ALL_CURRENCY_FILE) storing_bad_date)
    = [ErrorLine (nl ++ "Error while saving data to all_currency_data.csv: ")
         (DateParseError "corrupt")]
  ∧ fs (run (save_to_csv iso_to_datetime (table [row_0311])
               ALL_CURRENCY_FILE) storing_bad_date) = fs storing_bad_date.
Proof.
  destruct (C8_failure_is_printed_and_history_kept iso_to_datetime
              storing_bad_date (table [row_0311])
              (DateParseError "corrupt"))
    as (H1 & H2 & H3).
  - reflexivity.
  - split; [exact H1 |]. split; [exact H2 |]. apply H3. discriminate.
Defined.

(** * Facts about dictionaries *)

Section Dict.

Context {V : Type}.
Implicit Types (d : dict V) (k : string) (v : V).

Lemma assoc_cons k k' v d :
  assoc k ((k', v) :: d) = if decide (k = k') then Some v else assoc k d.
Proof.
  simpl. destruct (String.eqb_spec k k'); by case_decide.
Qed.

Lemma assoc_is_Some k d : is_Some (assoc k d) ↔ k ∈ keys d.
Proof.
  unfold keys. induction d as [|[k' v] d IH].
  - simpl. rewrite elem_of_nil. split; [by intros [? ?] | done].
  - rewrite assoc_cons, fmap_cons, elem_of_cons. simpl.
    case_decide; [|rewrite IH]; naive_solver.
Qed.

Lemma assoc_None k d : assoc k d = None ↔ k ∉ keys d.
Proof. rewrite <- assoc_is_Some, eq_None_not_Some. done. Qed.

Lemma getitem_Ok d k v : getitem d k = Ok v ↔ assoc k d = Some v.
Proof. unfold getitem. destruct (assoc k d); naive_solver. Qed.

Lemma getitem_Raised d k e :
  getitem d k = Raised e ↔ e = KeyError k ∧ k ∉ keys d.
Proof.
  rewrite <- assoc_None. unfold getitem. destruct (assoc k d); naive_solver.
Qed.

(** Setting a key that is not there appends it. *)
Lemma dict_set_fresh k v d : k ∉ keys d → dict_set k v d = d ++ [(k, v)].
Proof.
  unfold keys. induction d as [|[k' v'] d IH]; simpl; [done |].
  rewrite not_elem_of_cons. intros [Hne Hk].
  destruct (String.eqb_spec k k'); [done |]. by rewrite IH.
Qed.

Lemma keys_dict_set k v d :
  keys (dict_set k v d) = if decide (k ∈ keys d) then keys d else keys d ++ [k].
Proof.
  unfold keys. induction d as [|[k' v'] d IH]; [done |].
  cbn [dict_set]. destruct (String.eqb_spec k k') as [->|Hne].
  - rewrite !fmap_cons. cbn [fst]. by rewrite decide_True by (by left).
  - rewrite !fmap_cons, IH. cbn [fst].
    destruct (decide (k ∈ d.*1)) as [Hin|Hin].
    + by rewrite decide_True by (by right).
    + rewrite decide_False; [done |].
      rewrite elem_of_cons. naive_solver.
Qed.

Lemma NoDup_keys_dict_set k v d : NoDup (keys d) → NoDup (keys (dict_set k v d)).
Proof.
  intros Hnd. rewrite keys_dict_set. case_decide; [done |].
  apply NoDup_app. split; [done |]. split; [|apply NoDup_singleton].
  intros x Hx ->%list_elem_of_singleton. done.
Qed.

Lemma dict_set_nonempty k v d : dict_set k v d ≠ [].
Proof. destruct d as [|[k' v'] d]; simpl; [done |]. by case_match. Qed.

End Dict.

(** * Facts about the derived ratios *)

(** The entry the comprehension makes of an entry of the numerator. *)
Lemma ratio_over_Ok ks numerator denominator acc result :
  NoDup (keys acc ++ ks) →
  ratio_over ks numerator denominator acc = Ok result →
  ∃ entries,
    result = acc ++ entries
    ∧ keys entries = ks
    ∧ Forall (λ e, ∃ n d, assoc e.1 numerator = Some n
                          ∧ assoc e.1 denominator = Some d
                          ∧ ¬ (d == 0)%Q
                          ∧ e.2 = round4 (truediv n d)) entries.
Proof.
  revert acc. induction ks as [|k ks IH]; intros acc Hnd; simpl.
  - intros [= <-]. exists []. by rewrite app_nil_r.
  - destruct (getitem numerator k) as [n|] eqn:Hn; [|done].
    destruct (getitem denominator k) as [d|] eqn:Hd; [|done].
    destruct (Qeq_bool d 0) eqn:Hz; [done |].
    apply NoDup_app in Hnd as (Hacc & Hdisj & Hks). inv Hks.
    assert (k ∉ keys acc) as Hk by (intros ?; eapply Hdisj; [done | by left]).
    rewrite (dict_set_fresh _ _ _ Hk). intros Hr.
    apply IH in Hr as (entries & -> & Hkeys & Hall).
    + exists ((k, round4 (truediv n d)) :: entries).
      split; [by rewrite <- app_assoc |]. split; [unfold keys in *; simpl; by f_equal |].
      constructor; [|done]. exists n, d. simpl.
      apply getitem_Ok in Hn, Hd. split; [done |]. split; [done |].
      split; [|done]. intros Heq. apply Qeq_bool_iff in Heq. congruence.
    + unfold keys in *. rewrite fmap_app. simpl. rewrite <- app_assoc. simpl.
      apply NoDup_app. split; [done |]. split.
      * intros x Hx [->|Hin]%elem_of_cons; [done |].
        eapply Hdisj; [done | by right].
      * by constructor.
Qed.

(** The comprehension succeeds when every date is in both mappings with a
    denominator that is not zero. *)
Lemma ratio_over_succeeds ks numerator denominator acc :
  (∀ k, k ∈ ks → k ∈ keys numerator
                 ∧ ∃ d, assoc k denominator = Some d ∧ ¬ (d == 0)%Q) →
  ∃ result, ratio_over ks numerator denominator acc = Ok result.
Proof.
  revert acc. induction ks as [|k ks IH]; intros acc Hall; simpl; [by eexists |].
  destruct (Hall k) as [Hn (d & Hd & Hnz)]; [by left |].
  apply assoc_is_Some in Hn as [n Hn].
  rewrite (proj2 (getitem_Ok _ _ _) Hn), (proj2 (getitem_Ok _ _ _) Hd).
  destruct (Qeq_bool d 0) eqn:Hz; [by apply Qeq_bool_iff in Hz |].
  apply IH. intros k' Hk'. apply Hall. by right.
Qed.

(** How the comprehension fails: at a date missing from a mapping, or at
    a denominator that is zero. *)
Lemma ratio_over_Raised ks numerator denominator acc e :
  ratio_over ks numerator denominator acc = Raised e →
  ∃ k, k ∈ ks
       ∧ ((e = KeyError k ∧ (k ∉ keys numerator ∨ k ∉ keys denominator))
          ∨ (e = ZeroDivisionError
             ∧ ∃ d, assoc k denominator = Some d ∧ (d == 0)%Q)).
Proof.
  revert acc. induction ks as [|k ks IH]; intros acc; simpl; [done |].
  destruct (getitem numerator k) as [n|e1] eqn:Hn.
  - destruct (getitem denominator k) as [d|e2] eqn:Hd.
    + destruct (Qeq_bool d 0) eqn:Hz.
      * intros [= <-]. exists k. split; [by left |]. right. split; [done |].
        exists d. apply getitem_Ok in Hd. by apply Qeq_bool_iff in Hz.
      * intros (k' & Hk' & H)%IH. exists k'. split; [by right | done].
    + intros [= <-]. apply getitem_Raised in Hd as [-> Hd].
      exists k. split; [by left | auto].
  - intros [= <-]. apply getitem_Raised in Hn as [-> Hn].
    exists k. split; [by left | auto].
Qed.


Lemma ratio_over_Ok_keys ks numerator denominator acc result :
  ratio_over ks numerator denominator acc = Ok result →
  ∀ k, k ∈ ks → k ∈ keys numerator
                ∧ ∃ d, assoc k denominator = Some d ∧ ¬ (d == 0)%Q.
Proof.
  revert acc. induction ks as [|k0 ks IH]; intros acc; simpl.
  - by intros _ k ?%elem_of_nil.
  - destruct (getitem numerator k0) eqn:Hn; [|done].
    destruct (getitem denominator k0) as [d|] eqn:Hd; [|done].
    destruct (Qeq_bool d 0) eqn:Hz; [done |].
    intros Hr k [->|Hk]%elem_of_cons; [|by eapply IH].
    apply getitem_Ok in Hn, Hd. split; [apply assoc_is_Some; by eexists |].
    exists d. split; [done |]. intros Heq. apply Qeq_bool_iff in Heq. congruence.
Qed.

Lemma assoc_elem_of {V} (d : dict V) k v :
  NoDup (keys d) → (k, v) ∈ d → assoc k d = Some v.
Proof.
  unfold keys. induction d as [|[k' v'] d IH]; [by intros _ ?%elem_of_nil |].
  rewrite fmap_cons, assoc_cons. cbn [fst]. intros Hnd Hin. inv Hnd.
  apply elem_of_cons in Hin as [[= -> ->]|Hin]; [by rewrite decide_True |].
  rewrite decide_False; [auto |]. intros ->.
  match goal with H : _ ∉ _ |- _ => apply H end.
  apply list_elem_of_fmap. by exists (k', v).
Qed.


(** C6, amended. When every date of the numerator is in the denominator,
    the derivation raises [ZeroDivisionError] exactly when a shared date
    has a denominator equal to zero, and succeeds when none has. *)
Theorem C6_zero_division_when_keys_covered (numerator denominator : dict Q) :
  (∀ k, k ∈ keys numerator → k ∈ keys denominator) →
  (ratio_rates numerator denominator = Raised ZeroDivisionError
   ↔ ∃ k n d, assoc k numerator = Some n ∧ assoc k denominator = Some d
              ∧ (d == 0)%Q)
  ∧ ((∀ k n d, assoc k numerator = Some n → assoc k denominator = Some d →
               ¬ (d == 0)%Q) →
     ∃ result, ratio_rates numerator denominator = Ok result).
Proof.
  intros Hcov. split; [split |].
  - intros (k & Hk & [[? _]|[_ (d & Hd & Hz)]])%ratio_over_Raised; [done |].
    apply assoc_is_Some in Hk as [n Hn]. by exists k, n, d.
  - intros (k & n & d & Hn & Hd & Hz).
    destruct (ratio_rates numerator denominator) as [result|e] eqn:Hr.
    + assert (k ∈ keys numerator) as Hk by (apply assoc_is_Some; by eexists).
      destruct (ratio_over_Ok_keys _ _ _ _ _ Hr k Hk) as (_ & d' & Hd' & Hnz).
      by simplify_eq.
    + apply ratio_over_Raised in Hr
        as (k' & Hk' & [[_ [?|?]]|[-> _]]); [done | | done].
      exfalso. auto.
  - intros Hnz. apply ratio_over_succeeds. intros k Hk. split; [done |].
    destruct (proj2 (assoc_is_Some k denominator) (Hcov _ Hk)) as [d Hd].
    apply assoc_is_Some in Hk as [n Hn]. exists d. eauto.
Qed.



(** C6 fails as stated: no denominator is zero, and the derivation fails
    all the same, with [KeyError]. *)
Lemma C6_counterexample_fails_without_zero :
  Forall (λ e, ¬ (e.2 == 0)%Q) denominator_d1_d3
  ∧ ratio_rates numerator_d1_d2 denominator_d1_d3 = Raised (KeyError d2).
Proof. split; [repeat constructor; discriminate | reflexivity]. Qed.

(** An instance of C6 as amended: a zero denominator at the shared date
    [d2]. *)
Lemma C6_example_zero :
  ratio_rates numerator_d1_d2 [(d1, 1.00%Q); (d2, 0%Q)] = Raised ZeroDivisionError.
Proof.
  apply (C6_zero_division_when_keys_covered numerator_d1_d2
           [(d1, 1.00%Q); (d2, 0%Q)]).
  - intros k Hk. exact Hk.
  - exists d2, 1.12%Q, 0%Q. split; [reflexivity |]. split; reflexivity.
Defined.

(** * Facts about the assembled table *)

Lemma frame_rows_dates date_column series :
  dates (frame_rows date_column series) = date_column.
Proof.
  unfold dates. revert series.
  induction date_column as [|d ds IH]; intros series; simpl; [done |].
  by rewrite IH.
Qed.

Lemma pd_DataFrame_Ok date_column series df :
  pd_DataFrame date_column series = Ok df →
  rows df = frame_rows date_column series
  ∧ Forall (λ c, length c.2 = length date_column) series.
Proof.
  unfold pd_DataFrame.
  destruct (forallb _ series) eqn:Hall; [|done]. intros [= <-].
  split; [done |]. apply Forall_forall. intros c Hc.
  rewrite forallb_forall in Hall. apply Nat.eqb_eq, Hall.
  by apply list_elem_of_In.
Qed.


(** Two duplicate-free lists of one length, one within the other, hold
    the same elements. *)
Lemma NoDup_subseteq_length_Permutation (l k : list string) :
  NoDup l → (∀ x, x ∈ l → x ∈ k) → length k = length l → l ≡ₚ k.
Proof.
  intros Hnd Hsub Hlen.
  apply submseteq_length_Permutation; [by apply NoDup_submseteq | lia].
Qed.




(** * Facts about the statistics *)

Lemma Qle_total : Total Qle.
Proof.
  intros x y. destruct (Qlt_le_dec x y) as [H|H]; [left | right]; [|done].
  by apply Qlt_le_weak.
Qed.

Lemma fold_min_spec xs m0 :
  let m := fold_left (λ m y, if decide (m <= y)%Q then m else y) xs m0 in
  (m = m0 ∨ m ∈ xs) ∧ (m <= m0)%Q ∧ ∀ x, x ∈ xs → (m <= x)%Q.
Proof.
  revert m0. induction xs as [|y xs IH]; intros m0; simpl.
  - split; [by left |]. split; [apply Qle_refl |]. by intros x ?%elem_of_nil.
  - destruct (IH (if decide (m0 <= y)%Q then m0 else y)) as (Hin & Hle & Hall).
    case_decide as Hc.
    + split; [destruct Hin as [->|?]; [by left | by right; right] |].
      split; [done |]. intros x [->|Hx]%elem_of_cons; [|auto].
      by apply Qle_trans with m0.
    + assert (y <= m0)%Q as Hy.
      { destruct (Qlt_le_dec y m0); [by apply Qlt_le_weak | done]. }
      split; [destruct Hin as [->|?]; right; [by left | by right] |].
      split; [by apply Qle_trans with y |].
      intros x [->|Hx]%elem_of_cons; auto.
Qed.

Lemma fold_max_spec xs m0 :
  let m := fold_left (λ m y, if decide (y <= m)%Q then m else y) xs m0 in
  (m = m0 ∨ m ∈ xs) ∧ (m0 <= m)%Q ∧ ∀ x, x ∈ xs → (x <= m)%Q.
Proof.
  revert m0. induction xs as [|y xs IH]; intros m0; simpl.
  - split; [by left |]. split; [apply Qle_refl |]. by intros x ?%elem_of_nil.
  - destruct (IH (if decide (y <= m0)%Q then m0 else y)) as (Hin & Hle & Hall).
    case_decide as Hc.
    + split; [destruct Hin as [->|?]; [by left | by right; right] |].
      split; [done |]. intros x [->|Hx]%elem_of_cons; [|auto].
      by apply Qle_trans with m0.
    + assert (m0 <= y)%Q as Hy.
      { destruct (Qlt_le_dec m0 y); [by apply Qlt_le_weak | done]. }
      split; [destruct Hin as [->|?]; right; [by left | by right] |].
      split; [by apply Qle_trans with y |].
      intros x [->|Hx]%elem_of_cons; auto.
Qed.

Lemma list_min_is_min xs m : list_min xs = Some m → is_min m xs.
Proof.
  destruct xs as [|x xs]; [done |]. intros [= <-].
  destruct (fold_min_spec xs x) as (Hin & Hle & Hall). split.
  - destruct Hin as [->|?]; [by left | by right].
  - intros y [->|Hy]%elem_of_cons; auto.
Qed.

Lemma list_max_is_max xs m : list_max xs = Some m → is_max m xs.
Proof.
  destruct xs as [|x xs]; [done |]. intros [= <-].
  destruct (fold_max_spec xs x) as (Hin & Hle & Hall). split.
  - destruct Hin as [->|?]; [by left | by right].
  - intros y [->|Hy]%elem_of_cons; auto.
Qed.

Lemma Qsum_cons x xs : Qsum (x :: xs) = (x + Qsum xs)%Q.
Proof. reflexivity. Qed.

Lemma magnitude_cons x xs : magnitude (x :: xs) = (Qabs x + magnitude xs)%Q.
Proof. reflexivity. Qed.

Lemma Qsum_app xs ys : (Qsum (xs ++ ys) == Qsum xs + Qsum ys)%Q.
Proof.
  induction xs as [|x xs IH]; [change (Qsum []) with 0%Q; simpl; ring |].
  rewrite <- app_comm_cons, !Qsum_cons, IH. ring.
Qed.

Lemma Qsum_perm xs ys : xs ≡ₚ ys → (Qsum xs == Qsum ys)%Q.
Proof.
  induction 1 as [|x xs ys _ IH|x y xs|xs ys zs _ IH1 _ IH2];
    rewrite ?Qsum_cons.
  - reflexivity.
  - by rewrite IH.
  - ring.
  - by rewrite IH1.
Qed.

Lemma magnitude_app xs ys :
  (magnitude (xs ++ ys) == magnitude xs + magnitude ys)%Q.
Proof. unfold magnitude. by rewrite fmap_app, Qsum_app. Qed.

Lemma magnitude_perm xs ys : xs ≡ₚ ys → (magnitude xs == magnitude ys)%Q.
Proof. intros H. unfold magnitude. apply Qsum_perm. by rewrite H. Qed.

Lemma magnitude_nonneg xs : (0 <= magnitude xs)%Q.
Proof.
  induction xs as [|x xs IH]; [apply Qle_refl |].
  rewrite magnitude_cons. pose proof (Qabs_nonneg x). lra.
Qed.

Lemma Qsum_le_magnitude xs : (Qabs (Qsum xs) <= magnitude xs)%Q.
Proof.
  induction xs as [|x xs IH]; [apply Qle_refl |].
  rewrite magnitude_cons, Qsum_cons.
  eapply Qle_trans; [apply Qabs_triangle |]. lra.
Qed.

Lemma elem_of_magnitude x xs : x ∈ xs → (Qabs x <= magnitude xs)%Q.
Proof.
  intros (l1 & l2 & ->)%list_elem_of_split.
  rewrite magnitude_app. change (x :: l2) with ([x] ++ l2).
  rewrite magnitude_app.
  pose proof (magnitude_nonneg l1). pose proof (magnitude_nonneg l2).
  rewrite (magnitude_cons x []). change (magnitude []) with 0%Q. lra.
Qed.

(** Two neighbours of a list weigh no more than the whole list. *)
Lemma neighbours_magnitude (v : list Q) i a b :
  v !! i = Some a → v !! S i = Some b →
  (Qabs a + Qabs b <= magnitude v)%Q.
Proof.
  intros Ha Hb.
  rewrite <- (take_drop_middle v i a Ha).
  rewrite magnitude_app.
  assert (drop (S i) v = b :: drop (S (S i)) v) as ->.
  { rewrite <- (take_drop_middle v (S i) b Hb) at 1.
    rewrite drop_app_length'; [done |].
    rewrite length_take. apply lookup_lt_Some in Hb. lia. }
  change (a :: b :: drop (S (S i)) v) with ([a; b] ++ drop (S (S i)) v).
  rewrite magnitude_app.
  pose proof (magnitude_nonneg (take i v)).
  pose proof (magnitude_nonneg (drop (S (S i)) v)).
  rewrite (magnitude_cons a [b]), (magnitude_cons b []).
  change (magnitude []) with 0%Q. lra.
Qed.

(** Adding the values one after the other is one of the sums of
    [float_sum]. *)
Lemma float_sum_in_order xs : xs ≠ [] → float_sum xs (sum_in_order xs).
Proof.
  destruct xs as [|x xs]; [done |]. intros _. cbn [sum_in_order].
  assert (∀ ys a, float_sum ys a →
                  float_sum (ys ++ xs) (fold_left fadd xs a)) as Hgen.
  { induction xs as [|y xs IH]; intros ys a Ha; cbn [fold_left].
    - by rewrite app_nil_r.
    - replace (ys ++ y :: xs) with ((ys ++ [y]) ++ xs)
        by (by rewrite <- app_assoc).
      apply IH. apply float_sum_add; [done | constructor]. }
  apply (Hgen [x]). constructor.
Qed.

Lemma float_sum_length xs s : float_sum xs s → (1 ≤ length xs)%nat.
Proof.
  induction 1 as [x|xs ys a b _ IH1 _ IH2|xs ys a Hp _ IH]; cbn [length].
  - done.
  - rewrite length_app. lia.
  - by rewrite <- Hp.
Qed.

(** The rounding of the additions: a float sum of [n] values is within
    [(n - 1) * (magnitude * 2^-52 + 2^-1074)] of their sum. *)
Lemma float_sum_close xs s :
  float_sum xs s →
  Z.of_nat (length xs) ≤ 2 ^ 52 →
  (Qabs (s - Qsum xs)
   <= (inject_Z (Z.of_nat (length xs)) - 1)
      * (magnitude xs * pow2 (-52) + pow2 (-1074)))%Q.
Proof.
  induction 1 as [x|xs ys a b Ha IH1 Hb IH2|xs ys a Hp _ IH]; intros Hlen.
  - rewrite Qsum_cons. change (Qsum []) with 0%Q.
    change (inject_Z (Z.of_nat (length [x]))) with 1%Q.
    apply Qabs_bound; lra.
  - apply float_sum_length in Ha as Hn1. apply float_sum_length in Hb as Hn2.
    rewrite length_app in *.
    specialize (IH1 ltac:(lia)). specialize (IH2 ltac:(lia)).
    rewrite Nat2Z.inj_add, inject_Z_plus, Qsum_app, magnitude_app.
    pose proof (magnitude_nonneg xs) as HA1.
    pose proof (magnitude_nonneg ys) as HA2.
    pose proof (Qsum_le_magnitude xs) as [HS1 HS1']%Qabs_Qle_condition.
    pose proof (Qsum_le_magnitude ys) as [HS2 HS2']%Qabs_Qle_condition.
    apply Qabs_Qle_condition in IH1 as [IH1 IH1'].
    apply Qabs_Qle_condition in IH2 as [IH2 IH2'].
    assert (1 <= inject_Z (Z.of_nat (length xs)))%Q as HN1.
    { change 1%Q with (inject_Z 1). rewrite <- Zle_Qle. lia. }
    assert (1 <= inject_Z (Z.of_nat (length ys)))%Q as HN2.
    { change 1%Q with (inject_Z 1). rewrite <- Zle_Qle. lia. }
    assert (inject_Z (Z.of_nat (length xs)) + inject_Z (Z.of_nat (length ys))
            <= inject_Z (2 ^ 52))%Q as HN.
    { rewrite <- inject_Z_plus, <- Zle_Qle. lia. }
    change (inject_Z (2 ^ 52)) with 4503599627370496%Q in HN.
    set (N1 := inject_Z (Z.of_nat (length xs))) in *.
    set (N2 := inject_Z (Z.of_nat (length ys))) in *.
    set (S1 := Qsum xs) in *. set (S2 := Qsum ys) in *.
    set (A1 := magnitude xs) in *. set (A2 := magnitude ys) in *.
    unfold fadd. pose proof (binary64_between (a + b)) as [Hr Hr'].
    pose proof (Qabs_between (a + b)) as [Hab Hab'].
    set (r := binary64 (a + b)) in *. set (ab := Qabs (a + b)) in *.
    rewrite !pow2_neg in *.
    set (c := ((A1 + A2) * (1 # 2) ^ 52 + (1 # 2) ^ 1074)%Q).
    set (c1 := (A1 * (1 # 2) ^ 52 + (1 # 2) ^ 1074)%Q) in *.
    set (c2 := (A2 * (1 # 2) ^ 52 + (1 # 2) ^ 1074)%Q) in *.
    assert (0 <= c1 ∧ c1 <= c ∧ 0 <= c2 ∧ c2 <= c)%Q as (Hc1 & Hc1' & Hc2 & Hc2')
      by (unfold c, c1, c2; repeat split; lra).
    assert ((N1 - 1) * c1 <= (N1 - 1) * c)%Q as HT1 by nra.
    assert ((N2 - 1) * c2 <= (N2 - 1) * c)%Q as HT2 by nra.
    assert (((N1 - 1) * c + (N2 - 1) * c) * (1 # 2) ^ 53 <= c * (1 # 2))%Q
      as HT by nra.
    assert ((N1 + N2 - 1) * c == (N1 - 1) * c + (N2 - 1) * c + c)%Q as ->
      by ring.
    set (T1 := ((N1 - 1) * c)%Q) in *. set (T2 := ((N2 - 1) * c)%Q) in *.
    set (B1 := ((N1 - 1) * c1)%Q) in *. set (B2 := ((N2 - 1) * c2)%Q) in *.
    assert (ab <= A1 + A2 + B1 + B2)%Q as Hab''.
    { unfold ab. apply Qabs_bound; lra. }
    unfold c in *. apply Qabs_bound; lra.
  - rewrite <- (Permutation_length Hp), <- (Qsum_perm _ _ Hp),
      <- (magnitude_perm _ _ Hp).
    apply IH. by rewrite (Permutation_length Hp).
Qed.

Lemma Qdiv_bound x y n :
  (1 <= n)%Q → (Qabs x <= y)%Q → (Qabs (x / n) <= y)%Q.
Proof.
  intros Hn [H1 H2]%Qabs_Qle_condition.
  assert (0 < / n ∧ / n <= 1)%Q as [Hi Hi'].
  { split; [apply Qinv_lt_0_compat; lra |].
    apply Qle_shift_inv_r; lra. }
  unfold Qdiv. set (i := (/ n)%Q) in *. apply Qabs_bound; nra.
Qed.

Lemma Qdiv_bound_share x c n :
  (1 <= n)%Q → (0 <= c)%Q → (Qabs x <= (n - 1) * c)%Q →
  (Qabs (x / n) <= c)%Q.
Proof.
  intros Hn Hc [H1 H2]%Qabs_Qle_condition.
  assert (0 < n)%Q as Hpos by lra.
  apply Qabs_bound.
  - apply Qle_shift_div_l; [done |]. nra.
  - apply Qle_shift_div_r; [done |]. nra.
Qed.

(** The mean that the report shows, against the mean of the values. *)
Lemma list_mean_close series_sum xs m :
  float_sum xs (series_sum xs) →
  Z.of_nat (length xs) ≤ 2 ^ 52 →
  list_mean series_sum xs = Some m →
  ∃ exact, is_mean exact xs ∧ (Qabs (m - exact) <= tolerance xs)%Q.
Proof.
  intros Hs Hlen Hm.
  pose proof (float_sum_length _ _ Hs) as Hn.
  pose proof (float_sum_close _ _ Hs Hlen) as Hclose.
  destruct xs as [|x0 xs0] eqn:Hxs; [done |]. rewrite <- Hxs in *.
  assert (list_mean series_sum xs
          = Some (truediv (series_sum xs)
                    (inject_Z (Z.of_nat (length xs))))) as Hm'
    by (by rewrite Hxs).
  rewrite Hm' in Hm. injection Hm as <-. clear Hm' Hxs x0 xs0.
  assert (1 <= inject_Z (Z.of_nat (length xs)))%Q as HN.
  { change 1%Q with (inject_Z 1). rewrite <- Zle_Qle. lia. }
  set (n := inject_Z (Z.of_nat (length xs))) in *.
  exists (Qsum xs / n)%Q. split.
  { unfold is_mean. fold n. field. lra. }
  unfold tolerance, truediv.
  pose proof (magnitude_nonneg xs) as HA.
  set (s := series_sum xs) in *.
  pose proof (binary64_between (s / n)) as [Hr Hr'].
  pose proof (Qabs_between (s / n)) as [Hq Hq'].
  rewrite !pow2_neg in *.
  set (c := (magnitude xs * (1 # 2) ^ 52 + (1 # 2) ^ 1074)%Q) in *.
  assert (0 <= c)%Q as Hc by (unfold c; lra).
  pose proof (Qdiv_bound_share _ _ _ HN Hc Hclose) as [Hd Hd']%Qabs_Qle_condition.
  pose proof (Qdiv_bound _ _ _ HN (Qsum_le_magnitude xs))
    as [Hmu Hmu']%Qabs_Qle_condition.
  assert ((s - Qsum xs) / n == s / n - Qsum xs / n)%Q as Hsplit
    by (field; lra).
  rewrite Hsplit in Hd, Hd'.
  set (q := (s / n)%Q) in *. set (mu := (Qsum xs / n)%Q) in *.
  set (A := magnitude xs) in *.
  assert (Qabs q <= A + c)%Q as Hq'' by (apply Qabs_bound; lra).
  set (aq := Qabs q) in *. unfold c in *.
  apply Qabs_bound; lra.
Qed.

Lemma lerp_zero a b t : (t == 0)%Q → lerp a b t = fadd a 0%Q.
Proof.
  intros Ht. unfold lerp.
  destruct (Qle_bool (1 # 2) t) eqn:Hb.
  - apply Qle_bool_iff in Hb. lra.
  - unfold fmul. rewrite (binary64_zero (fsub b a * t)); [done |].
    rewrite Ht. ring.
Qed.

Lemma fadd_zero_close a :
  (Qabs (fadd a 0 - a) <= Qabs a * pow2 (-53) + pow2 (-1075))%Q.
Proof.
  unfold fadd. pose proof (binary64_close (a + 0)) as H.
  assert (a + 0 == a)%Q as Ha by ring.
  rewrite Ha in H at 2 3. exact H.
Qed.

Lemma Qmult_abs_bound x y X Y :
  (Qabs x <= X)%Q → (Qabs y <= Y)%Q → (Qabs (x * y) <= X * Y)%Q.
Proof.
  intros Hx Hy. rewrite Qabs_Qmult.
  pose proof (Qabs_nonneg x). pose proof (Qabs_nonneg y). nra.
Qed.

(** Half way between two floats, as numpy interpolates, against the
    mean of the two. *)
Lemma lerp_half_close a b t :
  (t == 1 # 2)%Q →
  (Qabs (lerp a b t - (a + b) / 2)
   <= (Qabs a + Qabs b) * pow2 (-51) + pow2 (-1073))%Q.
Proof.
  intros Ht. unfold lerp.
  destruct (Qle_bool (1 # 2) t) eqn:Hb.
  2:{ assert (Qle_bool (1 # 2) t = true) as Hb'
        by (apply Qle_bool_iff; lra). congruence. }
  unfold fsub, fmul.
  pose proof (Qabs_between a) as [Ha Ha']. pose proof (Qabs_between b) as [Hb1 Hb1'].
  pose proof (Qabs_nonneg a) as Ha0. pose proof (Qabs_nonneg b) as Hb0.
  pose proof (binary64_between (1 - t)) as [Hw Hw'].
  assert (Qabs (1 - t) <= 1 # 2)%Q as Hwt by (apply Qabs_bound; lra).
  pose proof (binary64_between (b - a)) as [Hd Hd'].
  assert (Qabs (b - a) <= Qabs a + Qabs b)%Q as Hba by (apply Qabs_bound; lra).
  set (w := binary64 (1 - t)) in *. set (diff := binary64 (b - a)) in *.
  pose proof (binary64_between (diff * w)) as [Hp Hp'].
  set (p := binary64 (diff * w)) in *.
  pose proof (binary64_between (b - p)) as [Hr Hr'].
  set (r := binary64 (b - p)) in *.
  rewrite !pow2_neg in *.
  set (A := Qabs a) in *. set (B := Qabs b) in *.
  set (wt := Qabs (1 - t)) in *. set (dba := Qabs (b - a)) in *.
  set (delta := ((1 # 2) * (1 # 2) ^ 53 + (1 # 2) ^ 1075)%Q).
  set (D := ((A + B) + (A + B) * (1 # 2) ^ 53 + (1 # 2) ^ 1075)%Q).
  assert (Qabs diff <= D)%Q as HD by (unfold D; apply Qabs_bound; lra).
  assert (Qabs (w - (1 # 2)) <= delta)%Q as Hdelta
    by (unfold delta; apply Qabs_bound; lra).
  pose proof (Qmult_abs_bound _ _ _ _ HD Hdelta) as [Hm Hm']%Qabs_Qle_condition.
  assert (diff * (w - (1 # 2)) == diff * w - diff * (1 # 2))%Q as Hsplit by ring.
  rewrite Hsplit in Hm, Hm'.
  apply Qabs_Qle_condition in HD as [HD HD'].
  set (pw := (diff * w)%Q) in *.
  assert (Qabs pw <= D * (1 # 2) + D * delta)%Q as Hpw
    by (apply Qabs_bound; lra).
  pose proof (Qabs_between pw) as [Hpw1 Hpw2].
  set (apw := Qabs pw) in *.
  assert (Qabs (b - p) <= B + (apw + apw * (1 # 2) ^ 53 + (1 # 2) ^ 1075))%Q
    as Hbp by (apply Qabs_bound; lra).
  set (abp := Qabs (b - p)) in *.
  unfold D, delta in *.
  assert ((a + b) / 2 == (a + b) * (1 # 2))%Q as -> by (by field).
  apply Qabs_bound; lra.
Qed.

(** The 50% quantile that the report shows, against the median of the
    values. *)
Lemma quantile_half_close xs m :
  quantile (1 # 2) xs = Some m →
  ∃ exact, is_median exact xs ∧ (Qabs (m - exact) <= tolerance xs)%Q.
Proof.
  destruct xs as [|x0 xs0] eqn:Hxs; [done |]. rewrite <- Hxs.
  assert (length xs ≠ 0%nat) as Hlen by (by rewrite Hxs).
  unfold quantile. rewrite Hxs at 1. intros [= <-].
  set (v := merge_sort Qle xs).
  assert (v ≡ₚ xs) as Hperm by apply merge_sort_Permutation.
  assert (length v = length xs) as Hv by (by apply Permutation_length).
  exists (middle v). split.
  { exists v. split; [done |].
    split; [apply (@Sorted_merge_sort _ Qle _ Qle_total) | reflexivity]. }
  unfold tolerance. rewrite <- (magnitude_perm _ _ Hperm).
  pose proof (magnitude_nonneg v) as HA.
  unfold middle. rewrite Hv.
  set (n := length xs) in *.
  set (h := (inject_Z (Z.of_nat n - 1) * (1 # 2))%Q).
  assert (Qfloor h = (Z.of_nat n - 1) `div` 2) as Hfl.
  { unfold h, Qfloor, Qmult, inject_Z. simpl. f_equal. lia. }
  change (((Z.of_nat n - 1) * 1) `div` Z.pos (1 * 2)) with (Qfloor h).
  rewrite Hfl.
  destruct (Nat.odd n) eqn:Hodd.
  - (* odd length: the position is a whole number *)
    apply Nat.odd_spec in Hodd as [k Hk].
    assert ((Z.of_nat n - 1) `div` 2 = Z.of_nat k) as Hdiv
      by (symmetry; apply Z.div_unique with 0; lia).
    rewrite Hdiv, Nat2Z.id.
    assert ((n / 2)%nat = k) as ->
      by (symmetry; apply Nat.div_unique with 1%nat; lia).
    assert (h - inject_Z (Z.of_nat k) == 0)%Q as Ht.
    { unfold h, Qeq, Qminus, Qplus, Qmult, Qopp, inject_Z. simpl. lia. }
    rewrite (lerp_zero _ _ _ Ht).
    destruct (lookup_lt_is_Some_2 v k) as [a Ha]; [lia |].
    rewrite (nth_lookup_Some v k 0%Q a Ha).
    pose proof (fadd_zero_close a) as [H1 H2]%Qabs_Qle_condition.
    pose proof (elem_of_magnitude a v (list_elem_of_lookup_2 _ _ _ Ha)) as Hle.
    pose proof (Qabs_nonneg a) as Ha0.
    rewrite !pow2_neg in *. set (A := Qabs a) in *.
    apply Qabs_bound; lra.
  - (* even length: the position is half way between the middle two *)
    assert (Nat.even n = true) as Heven
      by (rewrite <- Nat.negb_odd, Hodd; done).
    apply Nat.even_spec in Heven as [k Hk].
    assert (k ≠ 0%nat) as Hk0 by lia.
    assert ((Z.of_nat n - 1) `div` 2 = Z.of_nat (k - 1)) as Hdiv
      by (symmetry; apply Z.div_unique with 1; lia).
    rewrite Hdiv, Nat2Z.id.
    assert ((n / 2)%nat = k) as ->
      by (symmetry; apply Nat.div_unique with 0%nat; lia).
    replace (S (k - 1)) with k by lia.
    assert (h - inject_Z (Z.of_nat (k - 1)) == 1 # 2)%Q as Ht.
    { unfold h, Qeq, Qminus, Qplus, Qmult, Qopp, inject_Z. simpl. lia. }
    destruct (lookup_lt_is_Some_2 v (k - 1)) as [a Ha]; [lia |].
    destruct (lookup_lt_is_Some_2 v k) as [b Hb]; [lia |].
    rewrite (nth_lookup_Some v (k - 1) 0%Q a Ha).
    rewrite (nth_lookup_Some v k _ b Hb).
    rewrite (nth_lookup_Some v k _ b Hb).
    pose proof (lerp_half_close a b _ Ht) as [H1 H2]%Qabs_Qle_condition.
    assert (v !! S (k - 1) = Some b) as Hb' by (by replace (S (k - 1)) with k by lia).
    pose proof (neighbours_magnitude v (k - 1) a b Ha Hb') as Hle.
    rewrite !pow2_neg in *.
    set (A := Qabs a) in *. set (B := Qabs b) in *.
    apply Qabs_bound; lra.
Qed.

(** C9. For a column of the table with at least one value, the report
    shows the minimum and the maximum of the values of the column, and
    their mean and their median as pandas computes them on floats: the
    mean is a float sum of the values divided by their number, the
    median the value in the middle of the sorted values or the value
    half way between the two in the middle; each is within the rounding
    of these operations of the standard mean and median. The table
    printed shows the four with four decimals. The values are at most
    [2^52] in number and, added up, within the range of the floats. *)
Theorem C9_summary_statistics to_datetime series_sum data_frame currency_pair
    xs w :
  currency_pair ∈ columns data_frame →
  currency_pair ≠ "Date" →
  parses to_datetime (rows data_frame) →
  omap (cell currency_pair) (rows data_frame) = xs →
  xs ≠ [] →
  float_sum xs (series_sum xs) →
  Z.of_nat (length xs) ≤ 2 ^ 52 →
  (magnitude xs <= pow2 1023)%Q →
  ∃ mean median least greatest,
    analyze_currency_pair to_datetime series_sum data_frame [currency_pair] w
    = (Ok (),
       put_stdout
         (Table field_names
            [[currency_pair; format_4f (Some mean); format_4f (Some median);
              format_4f (Some least); format_4f (Some greatest)]]) w)
    ∧ is_min least xs ∧ is_max greatest xs
    ∧ (∃ exact, is_median exact xs ∧ (Qabs (median - exact) <= tolerance xs)%Q)
    ∧ (∃ exact, is_mean exact xs ∧ (Qabs (mean - exact) <= tolerance xs)%Q).
Proof.
  intros Hcol Hdate Hp Hxs Hne Hsum Hlen _.
  destruct (list_mean series_sum xs) as [mean|] eqn:H1; [|by destruct xs].
  destruct (quantile (1 # 2) xs) as [median|] eqn:H2; [|by destruct xs].
  destruct (list_min xs) as [least|] eqn:H3; [|by destruct xs].
  destruct (list_max xs) as [greatest|] eqn:H4; [|by destruct xs].
  exists mean, median, least, greatest. split; [|split; [|split; [|split]]].
  - unfold analyze_currency_pair, mbind, IO_bind, lift, print_table.
    unfold analysis_rows, analysis_row.
    rewrite bool_decide_eq_true_2 by auto. cbn [negb].
    destruct (rows data_frame) as [|r rs] eqn:Hrows; [by subst xs |].
    rewrite bool_decide_eq_false_2 by done.
    rewrite to_datetime_series_parses by done.
    unfold describe. cbn [stat_mean stat_50 stat_min stat_max].
    by rewrite Hxs, H1, H2, H3, H4.
  - by apply list_min_is_min.
  - by apply list_max_is_max.
  - by apply quantile_half_close.
  - by eapply list_mean_close.
Qed.

(** The example of C9: column EUR/USD over the rows 1.10, 1.12, 1.08 and
    1.15, the values added one after the other. The report shows the
    mean 1.1125, the median 1.11, the minimum 1.08 and the maximum
    1.15. *)
Lemma C9_example_eur_usd :
  ∃ mean median least greatest,
    analyze_currency_pair iso_to_datetime sum_in_order eur_usd_frame
      ["EUR/USD"] (offline ∅)
    = (Ok (),
       put_stdout
         (Table field_names
            [["EUR/USD"; format_4f (Some mean); format_4f (Some median);
              format_4f (Some least); format_4f (Some greatest)]])
         (offline ∅))
    ∧ [format_4f (Some mean); format_4f (Some median);
       format_4f (Some least); format_4f (Some greatest)]
      = ["1.1125"; "1.1100"; "1.0800"; "1.1500"]
    ∧ is_min least eur_usd_values ∧ is_max greatest eur_usd_values
    ∧ (∃ exact, is_median exact eur_usd_values
                ∧ (Qabs (median - exact) <= tolerance eur_usd_values)%Q)
    ∧ (∃ exact, is_mean exact eur_usd_values
                ∧ (Qabs (mean - exact) <= tolerance eur_usd_values)%Q).
Proof.
  destruct (C9_summary_statistics iso_to_datetime sum_in_order eur_usd_frame
              "EUR/USD" eur_usd_values (offline ∅))
    as (mean & median & least & greatest & Hp & H3 & H4 & H2 & H1).
  - by left.
  - discriminate.
  - repeat constructor; by eexists.
  - reflexivity.
  - discriminate.
  - by apply float_sum_in_order.
  - by vm_compute.
  - apply Qle_bool_iff. by vm_compute.
  - exists mean, median, least, greatest. split; [exact Hp |].
    split; [|exact (conj H3 (conj H4 (conj H2 H1)))].
    assert (analyze_currency_pair iso_to_datetime sum_in_order eur_usd_frame
              ["EUR/USD"] (offline ∅)
            = (Ok (),
               put_stdout
                 (Table field_names
                    [["EUR/USD"; "1.1125"; "1.1100"; "1.0800"; "1.1500"]])
                 (offline ∅))) as Hrun by (by vm_compute).
    rewrite Hrun in Hp.
    apply (f_equal (λ p, match stdout p.2 with
                         | [Table _ [_ :: statistics]] => statistics
                         | _ => []
                         end)) in Hp.
    symmetry. exact Hp.
Defined.

(** * Facts about the rate source *)

Lemma rates_dict_Raised rates acc e :
  rates_dict rates acc = Raised e → ∃ k, e = KeyError k.
Proof.
  revert acc. induction rates as [|entry rest IH]; intros acc; simpl; [done |].
  destruct (effectiveDate entry); [|by intros [= <-]; eexists].
  destruct (mid entry); [|by intros [= <-]; eexists]. apply IH.
Qed.

Lemma rates_dict_Ok rates acc result :
  rates_dict rates acc = Ok result →
  NoDup (keys acc) → (rates ≠ [] ∨ acc ≠ []) →
  NoDup (keys result) ∧ result ≠ [].
Proof.
  revert acc. induction rates as [|entry rest IH]; intros acc; simpl.
  - intros [= <-] Hnd [?|?]; done.
  - destruct (effectiveDate entry) as [date|]; [|done].
    destruct (mid entry) as [rate|]; [|done].
    intros Hr Hnd _. apply (IH _ Hr).
    + by apply NoDup_keys_dict_set.
    + right. apply dict_set_nonempty.
Qed.

Lemma no_rates_found_distinct currency_code :
  no_rates_found currency_code ≠ data_not_found
  ∧ no_rates_found currency_code ≠ limit_exceeded.
Proof. split; intros H; discriminate H. Qed.

Section Fetch.

Variables currency_code start_date end_date : string.

Local Abbreviation fetch :=
  (fetch_currency_data currency_code start_date end_date).

(** A response with an error status: [raise_for_status] raises before
    the status is looked at. *)
Lemma fetch_error_status response :
  400 ≤ status_code response < 600 →
  outcome fetch (answering response) = Raised (HTTPError (status_code response)).
Proof.
  intros Hs. unfold outcome, fetch_currency_data, mbind, IO_bind,
    requests_get, try_except, raise_for_status, answering. simpl.
  replace ((400 <=? status_code response) && (status_code response <? 600))
    with true by (symmetry; apply andb_true_iff; lia).
  reflexivity.
Qed.

(** The source cannot be reached: the failure propagates. *)
Lemma fetch_network_failure files :
  outcome fetch (offline files) = Raised ConnectionError.
Proof. reflexivity. Qed.

(** A success without rates is reported, not returned as an empty
    mapping. *)
Lemma fetch_empty_rates status text data :
  ¬ (400 ≤ status < 600) →
  default [] data = [] →
  outcome fetch (answering (mkResponse status text (Json data)))
  = Raised (Exception (no_rates_found currency_code)).
Proof.
  intros Hs Hd. unfold outcome, fetch_currency_data, mbind, IO_bind,
    requests_get, try_except, raise_for_status, response_json, answering.
  simpl.
  replace ((400 <=? status) && (status <? 600)) with false
    by (symmetry; apply andb_false_iff; lia).
  replace (status =? 404) with false by (symmetry; apply Z.eqb_neq; lia).
  replace (status =? 400) with false by (symmetry; apply Z.eqb_neq; lia).
  simpl. by rewrite Hd.
Qed.

(** What [fetch_currency_data] returns is a dictionary that is not
    empty. *)
Lemma fetch_Ok_nonempty w result :
  outcome fetch w = Ok result → NoDup (keys result) ∧ result ≠ [].
Proof.
  unfold outcome, fetch_currency_data, mbind, IO_bind, requests_get,
    try_except, raise_for_status, response_json.
  destruct (http w _) as [|response]; [done |].
  destruct ((400 <=? status_code response) && (status_code response <? 600));
    [done |].
  simpl. destruct (status_code response =? 404); [done |].
  destruct ((status_code response =? 400) && _); [done |].
  simpl. destruct (body response) as [|data]; [done |]. simpl.
  destruct (default [] data) as [|entry rest] eqn:Hd; [done |].
  unfold lift. cbn [fst]. intros Hr.
  apply (rates_dict_Ok (entry :: rest) [] result Hr); [constructor | by left].
Qed.

(** C7. The two branches of [fetch_currency_data] that tell "no data
    for the range" and "range too large" from other failures are never
    taken: a 404 and a 400 response raise the [HTTPError] of every other
    error status, whatever the text of the response. *)
Theorem C7_not_found_raises_HTTPError text body :
  outcome fetch (answering (mkResponse 404 text body)) = Raised (HTTPError 404)
  ∧ outcome fetch (answering (mkResponse 400 text body))
    = Raised (HTTPError 400).
Proof. split; reflexivity. Qed.

(** The exceptions of the two branches are raised in no world. *)
Lemma fetch_never_not_found_nor_limit w :
  outcome fetch w ≠ Raised (Exception data_not_found)
  ∧ outcome fetch w ≠ Raised (Exception limit_exceeded).
Proof.
  unfold outcome, fetch_currency_data, mbind, IO_bind, requests_get,
    try_except, raise_for_status, response_json.
  destruct (http w _) as [|response]; [done |].
  destruct ((400 <=? status_code response) && (status_code response <? 600))
    eqn:Hs.
  - simpl. done.
  - simpl. apply andb_false_iff in Hs.
    replace (status_code response =? 404) with false
      by (symmetry; apply Z.eqb_neq; lia).
    replace (status_code response =? 400) with false
      by (symmetry; apply Z.eqb_neq; lia).
    simpl. destruct (body response) as [|data]; [done |]. simpl.
    destruct (default [] data) as [|entry rest] eqn:Hd.
    { destruct (no_rates_found_distinct currency_code).
      split; intros [= ?]; done. }
    unfold lift.
    destruct (rates_dict (entry :: rest) []) as [d|e] eqn:Hr; [done |].
    apply rates_dict_Raised in Hr as [k ->]. done.
Qed.

End Fetch.

(** * One row per date: an invariant the program maintains

    The theorems on merging take histories and tables with one row per
    date. The program only ever builds such tables, and only ever writes
    such histories. *)

Lemma bind_Ok {A B} (m : IO A) (f : A → IO B) w b w' :
  (m ≫= f) w = (Ok b, w') → ∃ a w1, m w = (Ok a, w1) ∧ f a w1 = (Ok b, w').
Proof.
  unfold mbind, IO_bind. destruct (m w) as [[a|e] w1]; [eauto | done].
Qed.

(** The table of a cycle has one row per date. *)
Lemma process_currency_data_unique_dates w df :
  outcome process_currency_data w = Ok df → NoDup (dates (rows df)).
Proof.
  unfold outcome.
  destruct (process_currency_data w) as [r w'] eqn:Hrun. simpl. intros ->.
  unfold process_currency_data in Hrun.
  apply bind_Ok in Hrun as ([start_date end_date] & w0 & _ & Hrun).
  apply bind_Ok in Hrun as (eur_rates & w1 & Heur & Hrun).
  apply bind_Ok in Hrun as (usd_rates & w2 & _ & Hrun).
  apply bind_Ok in Hrun as (chf_rates & w3 & _ & Hrun).
  unfold lift in Hrun. injection Hrun as Hdf _.
  assert (NoDup (keys eur_rates)) as Hnd.
  { eapply (fetch_Ok_nonempty _ _ _ w0). unfold outcome. by rewrite Heur. }
  unfold assemble in Hdf.
  destruct (ratio_rates eur_rates usd_rates); [|done].
  destruct (ratio_rates chf_rates usd_rates); [|done].
  apply pd_DataFrame_Ok in Hdf as [-> _]. by rewrite frame_rows_dates.
Qed.

(** Storing a table with one row per date leaves a history with one row
    per date. *)
Lemma save_to_csv_unique_dates to_datetime data_frame w :
  medium w = Healthy →
  NoDup (dates (rows data_frame)) →
  (∀ h, history w = Some h → NoDup (dates (rows h))) →
  ∀ h, history (run (save_to_csv to_datetime data_frame ALL_CURRENCY_FILE) w)
       = Some h →
       NoDup (dates (rows h)).
Proof.
  intros Hm Hdf Hinv h Hh. apply history_Some in Hh.
  rewrite save_fs, Hm in Hh.
  destruct (staged to_datetime data_frame w) as [u|] eqn:Hst.
  - rewrite lookup_insert_eq in Hh. injection Hh as ->.
    unfold staged in Hst.
    destruct (fs w !! ALL_CURRENCY_FILE) as [[existing|]|]; [|done|by simplify_eq].
    destruct (updated_data to_datetime existing data_frame) as [u|] eqn:Hu;
      [|done].
    simplify_eq. destruct (updated_data_Ok _ _ _ _ Hu) as [He Hi].
    rewrite updated_data_parses in Hu by done. injection Hu as <-.
    apply drop_duplicates_NoDup.
  - by apply Hinv, history_Some.
Qed.

(** * Further properties of the rate source *)

Section FetchWorld.

Variables currency_code start_date end_date : string.

Local Abbreviation fetch :=
  (fetch_currency_data currency_code start_date end_date).
Local Abbreviation url := (request_url currency_code start_date end_date).

Lemma error_status_true response :
  error_status response →
  (400 <=? status_code response) && (status_code response <? 600) = true.
Proof. unfold error_status. intros. apply andb_true_iff. lia. Qed.

Lemma error_status_false response :
  ¬ error_status response →
  (400 <=? status_code response) && (status_code response <? 600) = false
  ∧ (status_code response =? 404) = false
  ∧ (status_code response =? 400) = false.
Proof.
  unfold error_status. intros. rewrite andb_false_iff, !Z.eqb_neq. lia.
Qed.

(** The whole of [fetch_currency_data], case by case. *)
Lemma fetch_cases w :
  fetch w
  = match http w url with
    | NetworkFailure => (Raised ConnectionError, w)
    | Got response =>
        if (400 <=? status_code response) && (status_code response <? 600)
        then (Raised (HTTPError (status_code response)),
              put_stdout
                (Line (nl +:+ "HTTP error occurred while fetching data for "
                       +:+ currency_code +:+ ". Status code: "
                       +:+ pretty (status_code response))) w)
        else
          match body response with
          | NotJson => (Raised JSONDecodeError, w)
          | Json data =>
              match default [] data with
              | [] => (Raised (Exception (no_rates_found currency_code)), w)
              | rates => (rates_dict rates [], w)
              end
          end
    end.
Proof.
  unfold fetch_currency_data, mbind, IO_bind, requests_get, try_except,
    raise_for_status, response_json.
  change (http w _) with (http w url).
  destruct (http w url) as [|response]; [done |].
  destruct ((400 <=? status_code response) && (status_code response <? 600))
    eqn:Hs; [done |].
  assert (¬ error_status response) as Hok.
  { unfold error_status. apply andb_false_iff in Hs. lia. }
  destruct (error_status_false _ Hok) as (_ & -> & ->).
  cbn [andb]. unfold mret, IO_ret, raise.
  destruct (body response) as [|data]; [done |].
  by destruct (default [] data).
Qed.

End FetchWorld.

Lemma assoc_dict_set {V} k k' (v : V) d :
  assoc k' (dict_set k v d) = if decide (k' = k) then Some v else assoc k' d.
Proof.
  induction d as [|[k0 v0] d IH]; cbn [dict_set].
  - by rewrite assoc_cons.
  - destruct (String.eqb_spec k k0) as [->|Hne].
    + rewrite !assoc_cons. by case_decide.
    + rewrite !assoc_cons, IH. repeat case_decide; congruence.
Qed.

Lemma complete_fields entry :
  complete entry ↔ ∃ date rate, effectiveDate entry = Some date
                                ∧ mid entry = Some rate.
Proof. unfold complete, is_Some. naive_solver. Qed.

(** The comprehension over the entries succeeds exactly when every entry
    has its two fields. *)
Lemma rates_dict_is_ok rates acc :
  is_ok (rates_dict rates acc) = true ↔ Forall complete rates.
Proof.
  revert acc. induction rates as [|entry rest IH]; intros acc; simpl.
  - split; [constructor | done].
  - rewrite Forall_cons, complete_fields.
    destruct (effectiveDate entry) as [date|]; [|naive_solver].
    destruct (mid entry) as [rate|]; [|naive_solver].
    rewrite IH. naive_solver.
Qed.

(** It fails at the first entry that lacks a field, naming the field. *)
Lemma rates_dict_first_incomplete good entry rest acc :
  Forall complete good → ¬ complete entry →
  rates_dict (good ++ entry :: rest) acc
  = Raised (KeyError match effectiveDate entry with
                     | None => "effectiveDate"
                     | Some _ => "mid"
                     end).
Proof.
  intros Hgood Hbad. revert acc.
  induction Hgood as [|e good (date & rate & Hd & Hm)%complete_fields _ IH];
    intros acc; simpl.
  - destruct (effectiveDate entry) as [date|] eqn:Hd; [|done].
    destruct (mid entry) as [rate|] eqn:Hm; [|done].
    exfalso. apply Hbad, complete_fields. eauto.
  - rewrite Hd, Hm. apply IH.
Qed.

Lemma quoted_cons date entry rest :
  quoted date (entry :: rest)
  = match (if decide (effectiveDate entry = Some date)
           then mid entry else None) with
    | Some rate => rate :: quoted date rest
    | None => quoted date rest
    end.
Proof. reflexivity. Qed.

(** For each date the mapping holds the last rate listed for it. *)
Lemma rates_dict_last rates acc result date :
  rates_dict rates acc = Ok result →
  assoc date result
  = match last (quoted date rates) with
    | Some rate => Some rate
    | None => assoc date acc
    end.
Proof.
  revert acc. induction rates as [|entry rest IH]; intros acc.
  - by intros [= <-].
  - cbn [rates_dict]. rewrite quoted_cons.
    destruct (effectiveDate entry) as [d|] eqn:Hd; [|done].
    destruct (mid entry) as [m|] eqn:Hm; [|done].
    intros Hr. rewrite (IH _ Hr), assoc_dict_set.
    destruct (decide (Some d = Some date)) as [[= ->]|Hne].
    + rewrite decide_True by done. rewrite last_cons.
      by destruct (last (quoted date rest)).
    + rewrite decide_False by congruence. done.
Qed.

(** When every date is listed once, the mapping is the list of the
    entries. *)
Lemma rates_dict_listed_once rates acc result :
  rates_dict rates acc = Ok result →
  NoDup (keys acc ++ omap effectiveDate rates) →
  ∃ pairs,
    result = acc ++ pairs
    ∧ Forall2 (λ entry kv, effectiveDate entry = Some kv.1
                           ∧ mid entry = Some kv.2) rates pairs.
Proof.
  revert acc. induction rates as [|entry rest IH]; intros acc; simpl.
  - intros [= <-] _. exists []. by rewrite app_nil_r.
  - destruct (effectiveDate entry) as [d|] eqn:Hd; [|done].
    destruct (mid entry) as [m|] eqn:Hm; [|done].
    intros Hr Hnd. simpl in Hnd.
    apply NoDup_app in Hnd as (Hacc & Hdisj & Hrest).
    assert (d ∉ keys acc) as Hfresh
      by (intros Hin; apply (Hdisj _ Hin); by left).
    rewrite (dict_set_fresh _ _ _ Hfresh) in Hr.
    apply IH in Hr as (pairs & -> & HF).
    + exists ((d, m) :: pairs). split; [by rewrite <- app_assoc |].
      by constructor.
    + unfold keys in *. rewrite fmap_app. cbn [fmap list_fmap fst].
      rewrite <- app_assoc. cbn [app]. apply NoDup_app.
      split; [done |]. split; [|done].
      intros x Hx Hin. by apply (Hdisj x).
Qed.

Section FetchProperties.

Variables currency_code start_date end_date : string.

Local Abbreviation fetch :=
  (fetch_currency_data currency_code start_date end_date).
Local Abbreviation url := (request_url currency_code start_date end_date).

(** X1. An answer with a status from 400 to 599 makes
    [fetch_currency_data] raise [HTTPError] with that status, after it
    printed one line that names the currency and the status; nothing else
    in the world changes. *)
Theorem X1_fetch_error_status_raises_and_prints w response :
  http w url = Got response →
  error_status response →
  fetch w
  = (Raised (HTTPError (status_code response)),
     put_stdout
       (Line (nl +:+ "HTTP error occurred while fetching data for "
              +:+ currency_code +:+ ". Status code: "
              +:+ pretty (status_code response))) w).
Proof.
  intros Hw Hs. rewrite fetch_cases, Hw.
  by rewrite (error_status_true _ Hs).
Qed.

(** X2. A success answer whose body has no 'rates' key, or an empty
    'rates' array, is not returned as an empty mapping: the function
    raises the exception 'No exchange rate data found for' the currency
    and prints nothing. *)
Theorem X2_fetch_no_rates_raises w response data :
  http w url = Got response →
  ¬ error_status response →
  body response = Json data →
  default [] data = [] →
  fetch w = (Raised (Exception (no_rates_found currency_code)), w).
Proof.
  intros Hw Hs Hb Hd. rewrite fetch_cases, Hw.
  destruct (error_status_false _ Hs) as (-> & _ & _).
  by rewrite Hb, Hd.
Qed.

(** X3. What [fetch_currency_data] returns comes from a success answer
    that lists rates: the mapping is never empty, its dates are distinct,
    and it holds for each date the last rate the answer lists for it; when
    the answer lists every date once, the mapping is the list of the
    entries, in the order of the answer. *)
Theorem X3_fetch_returns_the_listed_rates w result :
  outcome fetch w = Ok result →
  ∃ response rates,
    http w url = Got response
    ∧ ¬ error_status response
    ∧ body response = Json (Some rates)
    ∧ result ≠ []
    ∧ NoDup (keys result)
    ∧ (∀ date, assoc date result = last (quoted date rates))
    ∧ (NoDup (omap effectiveDate rates) →
       Forall2 (λ entry kv, effectiveDate entry = Some kv.1
                            ∧ mid entry = Some kv.2) rates result).
Proof.
  unfold outcome. rewrite fetch_cases.
  destruct (http w url) as [|response] eqn:Hw; [done |].
  destruct ((400 <=? status_code response) && (status_code response <? 600))
    eqn:Hs; [done |].
  destruct (body response) as [|[[|entry rest]|]] eqn:Hb; [done..| |done].
  intros Hr. change (rates_dict (entry :: rest) [] = Ok result) in Hr.
  set (rates := entry :: rest) in *.
  exists response, rates. split; [done |]. split.
  { unfold error_status. apply andb_false_iff in Hs. lia. }
  split; [done |].
  destruct (rates_dict_Ok rates [] result Hr) as [Hnd Hne];
    [constructor | by left |].
  split; [done |]. split; [done |]. split.
  - intros date. rewrite (rates_dict_last _ _ _ date Hr).
    by destruct (last (quoted date rates)).
  - intros Hnd'. by destruct (rates_dict_listed_once _ _ _ Hr Hnd')
      as (pairs & -> & HF).
Qed.

(** X4. With a success answer that lists rates, the function returns
    exactly when every entry has an 'effectiveDate' and a 'mid'; the first
    entry that lacks one makes it raise [KeyError] for the field that is
    missing, 'effectiveDate' being looked up first. *)
Theorem X4_fetch_incomplete_entry_raises_KeyError w response rates :
  http w url = Got response →
  ¬ error_status response →
  body response = Json (Some rates) →
  rates ≠ [] →
  (is_ok (outcome fetch w) = true ↔ Forall complete rates)
  ∧ ∀ good entry rest,
      rates = good ++ entry :: rest →
      Forall complete good → ¬ complete entry →
      outcome fetch w
      = Raised (KeyError match effectiveDate entry with
                         | None => "effectiveDate"
                         | Some _ => "mid"
                         end).
Proof.
  intros Hw Hs Hb Hne.
  assert (outcome fetch w = rates_dict rates []) as ->.
  { unfold outcome. rewrite fetch_cases, Hw.
    destruct (error_status_false _ Hs) as (-> & _ & _).
    rewrite Hb. cbn [default]. by destruct rates. }
  split; [apply rates_dict_is_ok |].
  intros good entry rest -> Hgood Hbad.
  by apply rates_dict_first_incomplete.
Qed.

(** X5. The two exceptions that [fetch_currency_data] has for "no data
    in the range" and "range too large" are raised in no world, whatever
    the source answers. *)
Theorem X5_fetch_never_raises_not_found_nor_limit w :
  outcome fetch w ≠ Raised (Exception data_not_found)
  ∧ outcome fetch w ≠ Raised (Exception limit_exceeded).
Proof.
  unfold outcome. rewrite fetch_cases.
  destruct (http w url) as [|response]; [done |].
  destruct ((400 <=? status_code response) && (status_code response <? 600));
    [done |].
  destruct (body response) as [|data]; [done |].
  destruct (default [] data) as [|entry rest] eqn:Hd.
  - destruct (no_rates_found_distinct currency_code).
    split; intros [= ?]; done.
  - cbn [fst]. destruct (rates_dict (entry :: rest) []) as [d|e] eqn:Hr;
      [done |].
    apply rates_dict_Raised in Hr as [k ->]. done.
Qed.

(** X6. [fetch_currency_data] never writes a file, and it prints only for
    an error status: when the source cannot be reached or answers with
    another status, the world is left exactly as it was, whether the
    function returns or raises. *)
Theorem X6_fetch_leaves_the_world w :
  fs (run fetch w) = fs w
  ∧ medium (run fetch w) = medium w
  ∧ ((∀ response, http w url = Got response → ¬ error_status response) →
     run fetch w = w).
Proof.
  unfold run. rewrite fetch_cases.
  destruct (http w url) as [|response] eqn:Hw; [done |].
  destruct ((400 <=? status_code response) && (status_code response <? 600))
    eqn:Hs.
  - split; [done |]. split; [done |]. intros Hok. exfalso.
    apply (Hok _ eq_refl). unfold error_status.
    apply andb_true_iff in Hs. lia.
  - destruct (body response) as [|data]; [done |].
    by destruct (default [] data).
Qed.

End FetchProperties.

(** An instance of X1: the source answers 500. *)
Lemma X1_example_500 :
  outcome (fetch_currency_data "EUR" "2023-12-11" "2024-03-10")
    (answering (mkResponse 500 "Internal Server Error" NotJson))
  = Raised (HTTPError 500)
  ∧ stdout (run (fetch_currency_data "EUR" "2023-12-11" "2024-03-10")
              (answering (mkResponse 500 "Internal Server Error" NotJson)))
    = [Line (nl +:+ "HTTP error occurred while fetching data for EUR. Status code: 500")].
Proof.
  pose proof (X1_fetch_error_status_raises_and_prints
                "EUR" "2023-12-11" "2024-03-10"
                (answering (mkResponse 500 "Internal Server Error" NotJson))
                (mkResponse 500 "Internal Server Error" NotJson)) as H.
  unfold outcome, run. rewrite H.
  - split; reflexivity.
  - reflexivity.
  - unfold error_status. simpl. lia.
Defined.

(** An instance of X2: a success answer with an empty 'rates' array. *)
Lemma X2_example_empty_rates :
  outcome (fetch_currency_data "CHF" "2023-12-11" "2024-03-10")
    (answering (listing []))
  = Raised (Exception (no_rates_found "CHF")).
Proof.
  unfold outcome.
  rewrite (X2_fetch_no_rates_raises "CHF" "2023-12-11" "2024-03-10"
             (answering (listing [])) (listing []) (Some [])).
  - reflexivity.
  - reflexivity.
  - unfold error_status. simpl. lia.
  - reflexivity.
  - reflexivity.
Defined.

(** An instance of X3: the answer lists 2024-03-11 twice; the second rate
    is the one that is kept. *)
Lemma X3_example_revised :
  ∃ result,
    outcome (fetch_currency_data "EUR" "2023-12-11" "2024-03-10")
      (answering (listing entries_revised)) = Ok result
    ∧ keys result = ["2024-03-11"; "2024-03-12"]
    ∧ assoc "2024-03-11" result = Some 4.32%Q.
Proof.
  eexists. split; [reflexivity |]. split; [reflexivity |].
  destruct (X3_fetch_returns_the_listed_rates
              "EUR" "2023-12-11" "2024-03-10"
              (answering (listing entries_revised)) _ eq_refl)
    as (response & rates & Hw & _ & Hb & _ & _ & Hlast & _).
  injection Hw as <-. injection Hb as <-. apply Hlast.
Defined.

(** An instance of X4: the second entry has no 'mid'. *)
Lemma X4_example_missing_mid :
  outcome (fetch_currency_data "USD" "2023-12-11" "2024-03-10")
    (answering (listing entries_missing_mid))
  = Raised (KeyError "mid").
Proof.
  apply (X4_fetch_incomplete_entry_raises_KeyError
           "USD" "2023-12-11" "2024-03-10"
           (answering (listing entries_missing_mid))
           (listing entries_missing_mid) entries_missing_mid)
    with (good := [mkEntry (Some "2024-03-11") (Some 3.95%Q)])
         (entry := mkEntry (Some "2024-03-12") None) (rest := []).
  - reflexivity.
  - unfold error_status. simpl. lia.
  - reflexivity.
  - discriminate.
  - reflexivity.
  - repeat constructor; by eexists.
  - intros [_ [? [=]]].
Defined.

(** * Further properties of the assembled table *)

Lemma frame_rows_lookup date_column series i d :
  date_column !! i = Some d →
  frame_rows date_column series !! i
  = Some (mkRow d (omap (λ c, pair c.1 <$> c.2 !! i) series)).
Proof.
  revert i series. induction date_column as [|d0 ds IH]; intros [|i] series;
    try done.
  - intros [= ->]. cbn [frame_rows lookup list_lookup]. do 2 f_equal.
    induction series as [|[name col] series IHs]; [done |].
    cbn [omap list_omap fst snd]. rewrite head_lookup, IHs. done.
  - intros Hi. cbn [frame_rows]. rewrite lookup_cons. rewrite (IH _ _ Hi).
    do 2 f_equal. clear.
    induction series as [|[name col] series IHs]; [done |].
    cbn [fmap list_fmap omap list_omap prod_map fst snd id].
    rewrite lookup_tail. fold (@fmap list _ _ _ (prod_map (@id string) (@tail Q)) series).
    by rewrite IHs.
Qed.

Lemma frame_rows_length date_column series :
  length (frame_rows date_column series) = length date_column.
Proof.
  rewrite <- (frame_rows_dates date_column series) at 2.
  unfold dates. by rewrite length_fmap.
Qed.

(** What a successful assembly went through. *)
Lemma assemble_Ok eur_rates usd_rates chf_rates df :
  assemble eur_rates usd_rates chf_rates = Ok df →
  ∃ eur_usd_rates chf_usd_rates,
    ratio_rates eur_rates usd_rates = Ok eur_usd_rates
    ∧ ratio_rates chf_rates usd_rates = Ok chf_usd_rates
    ∧ length usd_rates = length eur_rates
    ∧ length chf_rates = length eur_rates
    ∧ df = mkDF ["EUR/PLN"; "USD/PLN"; "CHF/PLN"; "EUR/USD"; "CHF/USD"]
             (frame_rows (keys eur_rates)
                [ ("EUR/PLN", values eur_rates);
                  ("USD/PLN", values usd_rates);
                  ("CHF/PLN", values chf_rates);
                  ("EUR/USD", values eur_usd_rates);
                  ("CHF/USD", values chf_usd_rates) ]).
Proof.
  unfold assemble.
  destruct (ratio_rates eur_rates usd_rates) as [eur_usd|]; [|done].
  destruct (ratio_rates chf_rates usd_rates) as [chf_usd|]; [|done].
  intros Hdf. exists eur_usd, chf_usd. do 2 (split; [done |]).
  pose proof (pd_DataFrame_Ok _ _ _ Hdf) as [_ Hlen].
  apply Forall_cons in Hlen as [_ Hlen].
  apply Forall_cons in Hlen as [Hu Hlen].
  apply Forall_cons in Hlen as [Hc _].
  cbn [snd] in Hu, Hc. unfold keys, values in Hu, Hc.
  rewrite !length_fmap in Hu, Hc. do 2 (split; [done |]).
  unfold pd_DataFrame in Hdf. destruct (forallb _ _); [|done].
  by injection Hdf as <-.
Qed.

(** The derived mapping, entry by entry. *)
Lemma ratio_rates_lookup numerator denominator result i date n :
  NoDup (keys numerator) →
  ratio_rates numerator denominator = Ok result →
  numerator !! i = Some (date, n) →
  ∃ d, assoc date denominator = Some d
       ∧ ¬ (d == 0)%Q
       ∧ result !! i = Some (date, round4 (truediv n d)).
Proof.
  intros Hnd Hr Hi. unfold dict in *. unfold ratio_rates in Hr.
  apply ratio_over_Ok in Hr as (entries & -> & Hkeys & Hall); [|done].
  cbn [app].
  assert (keys entries !! i = Some date) as Hk.
  { rewrite Hkeys. unfold keys. by rewrite list_lookup_fmap, Hi. }
  unfold keys in Hk. rewrite list_lookup_fmap in Hk.
  destruct (entries !! i) as [[k v]|] eqn:He; [|done].
  cbn in Hk. injection Hk as ->.
  rewrite Forall_lookup in Hall.
  destruct (Hall _ _ He) as (n' & d & Hn' & Hd & Hnz & Hv). cbn in *.
  assert (assoc date numerator = Some n) as Hn.
  { apply assoc_elem_of; [done |]. by eapply list_elem_of_lookup_2. }
  simplify_eq. eauto.
Qed.

Lemma fetch_Ok_same_world currency_code start_date end_date w result w' :
  fetch_currency_data currency_code start_date end_date w = (Ok result, w') →
  w' = w.
Proof.
  rewrite fetch_cases.
  destruct (http w _) as [|response]; [done |].
  destruct ((400 <=? status_code response) && (status_code response <? 600));
    [done |].
  destruct (body response) as [|data]; [done |].
  destruct (default [] data); [done |]. by intros [= _ <-].
Qed.

Lemma fetch_outcome_run currency_code start_date end_date w :
  fetch_currency_data currency_code start_date end_date w
  = (outcome (fetch_currency_data currency_code start_date end_date) w,
     run (fetch_currency_data currency_code start_date end_date) w).
Proof. unfold outcome, run. by destruct (fetch_currency_data _ _ _ w). Qed.

(** [process_currency_data], fetch by fetch. *)
Lemma process_cases w :
  outcome process_currency_data w
  = match outcome (fetch_currency_data "EUR" (clock w).1 (clock w).2) w with
    | Raised e => Raised e
    | Ok eur_rates =>
        match outcome (fetch_currency_data "USD" (clock w).1 (clock w).2) w with
        | Raised e => Raised e
        | Ok usd_rates =>
            match outcome (fetch_currency_data "CHF" (clock w).1 (clock w).2) w
            with
            | Raised e => Raised e
            | Ok chf_rates => assemble eur_rates usd_rates chf_rates
            end
        end
    end
  ∧ fs (run process_currency_data w) = fs w.
Proof.
  unfold outcome at 1, run at 1, process_currency_data, mbind, IO_bind,
    get_default_date_range, lift.
  destruct (clock w) as [start_date end_date]. cbn [fst snd].
  pose proof (Hrun := fun c => fetch_outcome_run c start_date end_date w).
  rewrite (Hrun "EUR").
  destruct (outcome (fetch_currency_data "EUR" start_date end_date) w)
    as [eur|e] eqn:H1.
  - assert (run (fetch_currency_data "EUR" start_date end_date) w = w) as ->.
    { eapply fetch_Ok_same_world. rewrite (Hrun "EUR"), H1. reflexivity. }
    rewrite (Hrun "USD").
    destruct (outcome (fetch_currency_data "USD" start_date end_date) w)
      as [usd|e] eqn:H2.
    + assert (run (fetch_currency_data "USD" start_date end_date) w = w) as ->.
      { eapply fetch_Ok_same_world. rewrite (Hrun "USD"), H2. reflexivity. }
      rewrite (Hrun "CHF").
      destruct (outcome (fetch_currency_data "CHF" start_date end_date) w)
        as [chf|e] eqn:H3.
      * assert (run (fetch_currency_data "CHF" start_date end_date) w = w)
          as ->; [|done].
        eapply fetch_Ok_same_world. rewrite (Hrun "CHF"), H3. reflexivity.
      * split; [done |]. cbn [snd]. unfold run. rewrite fetch_cases.
        destruct (http w _) as [|r]; [done |].
        destruct (_ && _); [done |]. destruct (body r); [done |].
        by destruct (default [] _).
    + split; [done |]. cbn [snd]. unfold run. rewrite fetch_cases.
      destruct (http w _) as [|r]; [done |].
      destruct (_ && _); [done |]. destruct (body r); [done |].
      by destruct (default [] _).
  - split; [done |]. cbn [snd]. unfold run. rewrite fetch_cases.
    destruct (http w _) as [|r]; [done |].
    destruct (_ && _); [done |]. destruct (body r); [done |].
    by destruct (default [] _).
Qed.

(** X7. The three requests of [process_currency_data] are made one after
    the other in the same world: the first that raises decides the outcome
    and no table is built from part of the data; when all three return,
    the table is the assembly of the three mappings. The function never
    writes a file. *)
Theorem X7_process_first_failing_fetch_decides w :
  outcome process_currency_data w
  = match outcome (fetch_currency_data "EUR" (clock w).1 (clock w).2) w with
    | Raised e => Raised e
    | Ok eur_rates =>
        match outcome (fetch_currency_data "USD" (clock w).1 (clock w).2) w with
        | Raised e => Raised e
        | Ok usd_rates =>
            match outcome (fetch_currency_data "CHF" (clock w).1 (clock w).2) w
            with
            | Raised e => Raised e
            | Ok chf_rates => assemble eur_rates usd_rates chf_rates
            end
        end
    end
  ∧ fs (run process_currency_data w) = fs w.
Proof. apply process_cases. Qed.

(** The rows of the assembled table, position by position. *)
Lemma assemble_rows_lookup
    (eur_rates usd_rates chf_rates : dict Q) df :
  NoDup (keys eur_rates) → NoDup (keys chf_rates) →
  assemble eur_rates usd_rates chf_rates = Ok df →
  columns df = ["EUR/PLN"; "USD/PLN"; "CHF/PLN"; "EUR/USD"; "CHF/USD"]
  ∧ length (rows df) = length eur_rates
  ∧ ∀ i date eur,
      eur_rates !! i = Some (date, eur) →
      ∃ usd_date usd chf_date chf usd_at_date usd_at_chf_date,
        usd_rates !! i = Some (usd_date, usd)
        ∧ chf_rates !! i = Some (chf_date, chf)
        ∧ assoc date usd_rates = Some usd_at_date
        ∧ assoc chf_date usd_rates = Some usd_at_chf_date
        ∧ rows df !! i
          = Some (mkRow date
                    [ ("EUR/PLN", eur); ("USD/PLN", usd); ("CHF/PLN", chf);
                      ("EUR/USD", round4 (truediv eur usd_at_date));
                      ("CHF/USD", round4 (truediv chf usd_at_chf_date)) ]).
Proof.
  intros Hne Hnc
    (eur_usd & chf_usd & H1 & H2 & Hlu & Hlc & ->)%assemble_Ok.
  unfold dict in *. split; [done |]. split.
  { cbn [rows]. rewrite frame_rows_length. unfold keys. by rewrite length_fmap. }
  intros i date eur Hi.
  assert (i < length eur_rates)%nat as Hlt by (by eapply lookup_lt_Some).
  destruct (lookup_lt_is_Some_2 usd_rates i) as [[usd_date usd] Hu]; [lia |].
  destruct (lookup_lt_is_Some_2 chf_rates i) as [[chf_date chf] Hc]; [lia |].
  destruct (ratio_rates_lookup _ _ _ _ _ _ Hne H1 Hi) as (ud & Hud & _ & Heu).
  destruct (ratio_rates_lookup _ _ _ _ _ _ Hnc H2 Hc) as (uc & Huc & _ & Hcu).
  exists usd_date, usd, chf_date, chf, ud, uc. do 4 (split; [done |]).
  cbn [rows]. rewrite (frame_rows_lookup _ _ i date)
    by (unfold keys; by rewrite list_lookup_fmap, Hi).
  unfold values, dict in *. cbn [omap list_omap fst snd].
  rewrite !list_lookup_fmap, Hi, Hu, Hc, Heu, Hcu. reflexivity.
Qed.

(** X8. The table of a cycle is laid out by position: the row at position
    [i] is dated by the [i]-th date of the EUR mapping and carries the
    [i]-th rate of each of the three mappings, whatever dates the USD and
    CHF mappings have at that position; its EUR/USD cell is the ratio for
    the date of the row, its CHF/USD cell the ratio for the [i]-th date of
    the CHF mapping. *)
Theorem X8_assembled_rows_by_position
    (eur_rates usd_rates chf_rates : dict Q) df :
  NoDup (keys eur_rates) → NoDup (keys chf_rates) →
  assemble eur_rates usd_rates chf_rates = Ok df →
  columns df = ["EUR/PLN"; "USD/PLN"; "CHF/PLN"; "EUR/USD"; "CHF/USD"]
  ∧ length (rows df) = length eur_rates
  ∧ ∀ i date eur,
      eur_rates !! i = Some (date, eur) →
      ∃ usd_date usd chf_date chf usd_at_date usd_at_chf_date,
        usd_rates !! i = Some (usd_date, usd)
        ∧ chf_rates !! i = Some (chf_date, chf)
        ∧ assoc date usd_rates = Some usd_at_date
        ∧ assoc chf_date usd_rates = Some usd_at_chf_date
        ∧ rows df !! i
          = Some (mkRow date
                    [ ("EUR/PLN", eur); ("USD/PLN", usd); ("CHF/PLN", chf);
                      ("EUR/USD", round4 (truediv eur usd_at_date));
                      ("CHF/USD", round4 (truediv chf usd_at_chf_date)) ]).
Proof. apply assemble_rows_lookup. Qed.

(** An instance of X8: the USD mapping lists [d2] first. The row of [d1]
    carries the USD rate of [d2], 3.9, and the ratio of the rates of
    [d1], 4.3002 / 4.0, rounded to 1.0751. *)
Lemma X8_example_misaligned :
  ∃ df r,
    assemble eur_d1_d2 usd_d2_d1 chf_d1_d2 = Ok df
    ∧ rows df !! 0%nat = Some r
    ∧ Date r = d1
    ∧ assoc d2 usd_d2_d1 = Some (binary64 3.9)
    ∧ cell "USD/PLN" r = Some (binary64 3.9)
    ∧ cell "EUR/USD" r = Some (binary64 1.0751).
Proof.
  destruct (assemble eur_d1_d2 usd_d2_d1 chf_d1_d2) as [df|] eqn:Hdf;
    [|vm_compute in Hdf; discriminate Hdf].
  destruct (X8_assembled_rows_by_position eur_d1_d2 usd_d2_d1 chf_d1_d2 df)
    as (_ & _ & Hrows).
  - apply (bool_decide_unpack _). by vm_compute.
  - apply (bool_decide_unpack _). by vm_compute.
  - exact Hdf.
  - destruct (Hrows 0%nat d1 (binary64 4.3002) eq_refl)
      as (ud & u & cd & c & x & y & Hu & Hc & Hx & Hy & Hr).
    change (Some (d2, binary64 3.9) = Some (ud, u)) in Hu.
    injection Hu as <- <-.
    change (Some (d1, binary64 3.801) = Some (cd, c)) in Hc.
    injection Hc as <- <-.
    change (Some (binary64 4.0) = Some x) in Hx. injection Hx as <-.
    eexists df, _. split; [reflexivity |]. split; [exact Hr |].
    split; [reflexivity |]. split; [reflexivity |]. split; [reflexivity |].
    by vm_compute.
Defined.

Lemma assoc_Some_elem_of {V} (d : dict V) k v : assoc k d = Some v → (k, v) ∈ d.
Proof.
  induction d as [|[k' v'] d IH]; [done |]. rewrite assoc_cons.
  case_decide as Hk; [intros [= ->]; subst; by left | right; auto].
Qed.

Lemma assoc_lookup {V} (d : dict V) k v :
  assoc k d = Some v → ∃ i, (d : list _) !! i = Some (k, v).
Proof. intros H%assoc_Some_elem_of. by apply list_elem_of_lookup_1. Qed.

Lemma keys_lookup {V} (d : dict V) i k v :
  (d : list _) !! i = Some (k, v) → keys d !! i = Some k.
Proof. intros H. unfold keys. by rewrite list_lookup_fmap, H. Qed.

Lemma ratio_rates_length numerator denominator result :
  NoDup (keys numerator) →
  ratio_rates numerator denominator = Ok result →
  length result = length numerator.
Proof.
  intros Hnd Hr. unfold ratio_rates in Hr.
  apply ratio_over_Ok in Hr as (entries & -> & Hkeys & _); [|done].
  cbn [app]. apply (f_equal length) in Hkeys. unfold keys in Hkeys.
  by rewrite !length_fmap in Hkeys.
Qed.

(** The assembly succeeds when the three mappings have the same dates
    and no USD rate is zero. *)
Lemma assemble_succeeds (eur_rates usd_rates chf_rates : dict Q) :
  NoDup (keys eur_rates) → NoDup (keys chf_rates) →
  keys eur_rates ≡ₚ keys usd_rates →
  keys chf_rates ≡ₚ keys usd_rates →
  Forall (λ kv, ¬ (kv.2 == 0)%Q) usd_rates →
  ∃ df, assemble eur_rates usd_rates chf_rates = Ok df.
Proof.
  intros Hne Hnc He Hc Hnz.
  assert (∀ numerator, keys numerator ≡ₚ keys usd_rates →
            ∃ result, ratio_rates numerator usd_rates = Ok result) as Hratio.
  { intros numerator Hk. apply ratio_over_succeeds.
    intros k Hin. split; [done |]. rewrite Hk in Hin.
    apply assoc_is_Some in Hin as [d Hd]. exists d. split; [done |].
    rewrite Forall_forall in Hnz.
    apply (Hnz (k, d)). by apply assoc_Some_elem_of. }
  destruct (Hratio _ He) as [eur_usd H1].
  destruct (Hratio _ Hc) as [chf_usd H2].
  unfold assemble. rewrite H1, H2. unfold pd_DataFrame.
  apply ratio_rates_length in H1, H2; [|done..].
  apply Permutation_length in He, Hc.
  unfold keys, values in *. rewrite !length_fmap in He, Hc.
  assert (length usd_rates = length eur_rates) as Hlu by lia.
  assert (length chf_rates = length eur_rates) as Hlc by lia.
  assert (length chf_usd = length eur_rates) as H2' by lia.
  cbn [forallb snd]. rewrite !length_fmap, Hlu, Hlc, H1, H2', !Nat.eqb_refl.
  cbn [andb]. by eexists.
Qed.

(** What a successful assembly tells about the three mappings. *)
Lemma assemble_Ok_keys (eur_rates usd_rates chf_rates : dict Q) df :
  NoDup (keys eur_rates) → NoDup (keys usd_rates) → NoDup (keys chf_rates) →
  assemble eur_rates usd_rates chf_rates = Ok df →
  keys eur_rates ≡ₚ keys usd_rates
  ∧ keys chf_rates ≡ₚ keys usd_rates
  ∧ Forall (λ kv, ¬ (kv.2 == 0)%Q) usd_rates.
Proof.
  intros Hne Hnu Hnc
    (eur_usd & chf_usd & H1 & H2 & Hlu & Hlc & _)%assemble_Ok.
  assert (∀ k, k ∈ keys eur_rates →
               ∃ d, assoc k usd_rates = Some d ∧ ¬ (d == 0)%Q) as Heur
    by (intros k Hk; by destruct (ratio_over_Ok_keys _ _ _ _ _ H1 k Hk)).
  assert (∀ k, k ∈ keys chf_rates →
               ∃ d, assoc k usd_rates = Some d ∧ ¬ (d == 0)%Q) as Hchf
    by (intros k Hk; by destruct (ratio_over_Ok_keys _ _ _ _ _ H2 k Hk)).
  assert (keys eur_rates ≡ₚ keys usd_rates) as He.
  { apply NoDup_subseteq_length_Permutation; [done | |].
    - intros k (d & Hd & _)%Heur. apply assoc_is_Some. by eexists.
    - unfold keys. by rewrite !length_fmap. }
  split; [done |]. split.
  - apply NoDup_subseteq_length_Permutation; [done | |].
    + intros k (d & Hd & _)%Hchf. apply assoc_is_Some. by eexists.
    + unfold keys. rewrite !length_fmap. lia.
  - apply Forall_forall. intros [k d] Hin. cbn [snd].
    assert (k ∈ keys eur_rates) as Hk.
    { rewrite He. unfold keys. apply list_elem_of_fmap. by exists (k, d). }
    destruct (Heur _ Hk) as (d' & Hd' & Hnz).
    by rewrite (assoc_elem_of _ _ _ Hnu Hin) in Hd'; simplify_eq.
Qed.

(** X9. When the three mappings list the same dates in the same order
    and no USD rate is zero, the table is built, it is dated by these
    dates, and the row of every date carries the rates of that date: the
    three fetched rates and the two ratios rounded to four decimals. *)
Theorem X9_assembled_rows_by_date_when_aligned
    (eur_rates usd_rates chf_rates : dict Q) :
  NoDup (keys eur_rates) →
  keys usd_rates = keys eur_rates →
  keys chf_rates = keys eur_rates →
  Forall (λ kv, ¬ (kv.2 == 0)%Q) usd_rates →
  ∃ df,
    assemble eur_rates usd_rates chf_rates = Ok df
    ∧ dates (rows df) = keys eur_rates
    ∧ ∀ date eur usd chf,
        assoc date eur_rates = Some eur →
        assoc date usd_rates = Some usd →
        assoc date chf_rates = Some chf →
        mkRow date [ ("EUR/PLN", eur); ("USD/PLN", usd); ("CHF/PLN", chf);
                     ("EUR/USD", round4 (truediv eur usd));
                     ("CHF/USD", round4 (truediv chf usd)) ] ∈ rows df.
Proof.
  intros Hne Hku Hkc Hnz.
  assert (NoDup (keys usd_rates)) as Hnu by (by rewrite Hku).
  assert (NoDup (keys chf_rates)) as Hnc by (by rewrite Hkc).
  destruct (assemble_succeeds eur_rates usd_rates chf_rates) as [df Hdf];
    [done | done | by rewrite Hku | by rewrite Hkc, Hku | done |].
  exists df. split; [done |].
  destruct (assemble_rows_lookup _ _ _ _ Hne Hnc Hdf) as (_ & _ & Hrows).
  split.
  { apply assemble_Ok in Hdf as (? & ? & _ & _ & _ & _ & ->).
    apply frame_rows_dates. }
  intros date eur usd chf He Hu Hc.
  destruct (assoc_lookup _ _ _ He) as [i Hi].
  destruct (Hrows i date eur Hi)
    as (usd_date & usd' & chf_date & chf' & ud & uc
        & Hui & Hci & Hud & Huc & Hrow).
  assert (usd_date = date) as ->.
  { apply keys_lookup in Hui, Hi. rewrite Hku, Hi in Hui. by simplify_eq. }
  assert (chf_date = date) as ->.
  { apply keys_lookup in Hci, Hi. rewrite Hkc, Hi in Hci. by simplify_eq. }
  assert (assoc date usd_rates = Some usd') as Hu'
    by (apply assoc_elem_of; [done | by eapply list_elem_of_lookup_2]).
  assert (assoc date chf_rates = Some chf') as Hc'
    by (apply assoc_elem_of; [done | by eapply list_elem_of_lookup_2]).
  simplify_eq. by eapply list_elem_of_lookup_2.
Qed.

(** X10. For three mappings with distinct dates, the table of a cycle is
    built exactly when the three have the same dates and no USD rate is
    zero. *)
Theorem X10_assembly_succeeds_iff (eur_rates usd_rates chf_rates : dict Q) :
  NoDup (keys eur_rates) → NoDup (keys usd_rates) → NoDup (keys chf_rates) →
  is_ok (assemble eur_rates usd_rates chf_rates) = true
  ↔ keys eur_rates ≡ₚ keys usd_rates
    ∧ keys chf_rates ≡ₚ keys usd_rates
    ∧ Forall (λ kv, ¬ (kv.2 == 0)%Q) usd_rates.
Proof.
  intros Hne Hnu Hnc. split.
  - destruct (assemble eur_rates usd_rates chf_rates) as [df|] eqn:Hdf;
      [|done].
    intros _. by eapply assemble_Ok_keys.
  - intros (He & Hc & Hnz).
    by destruct (assemble_succeeds eur_rates usd_rates chf_rates)
      as [df ->].
Qed.

(** An instance of X9: the three mappings list [d1] and [d2] in that
    order. The row of [d1] carries the rates 4.3002, 4.0 and 3.801 and
    the ratios 1.0751 and 0.9503. *)
Lemma X9_example_aligned :
  ∃ df,
    assemble eur_d1_d2 usd_d1_d2 chf_d1_d2 = Ok df
    ∧ mkRow d1 [ ("EUR/PLN", binary64 4.3002); ("USD/PLN", binary64 4.0);
                 ("CHF/PLN", binary64 3.801);
                 ("EUR/USD", binary64 1.0751);
                 ("CHF/USD", binary64 0.9503) ] ∈ rows df.
Proof.
  destruct (X9_assembled_rows_by_date_when_aligned
              eur_d1_d2 usd_d1_d2 chf_d1_d2) as (df & Hdf & _ & Hrow).
  - apply (bool_decide_unpack _). by vm_compute.
  - reflexivity.
  - reflexivity.
  - repeat constructor; intros H; vm_compute in H; discriminate H.
  - exists df. split; [exact Hdf |].
    replace (binary64 1.0751)
      with (round4 (truediv (binary64 4.3002) (binary64 4.0)))
      by (by vm_compute).
    replace (binary64 0.9503)
      with (round4 (truediv (binary64 3.801) (binary64 4.0)))
      by (by vm_compute).
    apply Hrow; reflexivity.
Defined.

(** An instance of X10: a USD rate of zero; no table is built. *)
Lemma X10_example_zero_rate :
  is_ok (assemble eur_d1_d2 [(d1, 3.90%Q); (d2, 0%Q)] chf_d1_d2) = false.
Proof.
  apply not_true_is_false. intros Hok.
  apply (X10_assembly_succeeds_iff eur_d1_d2 [(d1, 3.90%Q); (d2, 0%Q)]
           chf_d1_d2) in Hok as (_ & _ & Hnz).
  - apply Forall_cons in Hnz as [_ Hnz].
    apply Forall_cons in Hnz as [Hnz _]. by apply Hnz.
  - apply (bool_decide_unpack _). by vm_compute.
  - apply (bool_decide_unpack _). by vm_compute.
  - apply (bool_decide_unpack _). by vm_compute.
Defined.

(** * The rounding of the derived ratios *)



(** * The cycle: [main_auto] *)

Lemma process_Ok_same_world w df w' :
  process_currency_data w = (Ok df, w') → w' = w.
Proof.
  unfold process_currency_data. intros Hrun.
  apply bind_Ok in Hrun as ([start_date end_date] & w0 & Hc & Hrun).
  unfold get_default_date_range in Hc. injection Hc as _ <-.
  apply bind_Ok in Hrun as (eur_rates & w1 & ->%fetch_Ok_same_world & Hrun).
  apply bind_Ok in Hrun as (usd_rates & w2 & ->%fetch_Ok_same_world & Hrun).
  apply bind_Ok in Hrun as (chf_rates & w3 & ->%fetch_Ok_same_world & Hrun).
  unfold lift in Hrun. by injection Hrun as _ <-.
Qed.

Section Cycle.

Variable to_datetime : string → option Timestamp.

Lemma main_auto_unfold w :
  main_auto to_datetime w
  = match process_currency_data w with
    | (Ok df, w') => save_to_csv to_datetime df ALL_CURRENCY_FILE w'
    | (Raised e, w') => (Raised e, w')
    end.
Proof.
  unfold main_auto, mbind, IO_bind.
  by destruct (process_currency_data w) as [[]].
Qed.

(** X12. A cycle whose download fails raises the failure to its caller
    and leaves every file as it was; a cycle whose download succeeds is
    the merge of the downloaded table, and returns normally whatever the
    merge runs into. *)
Theorem X12_cycle_outcome w :
  (∀ e, outcome process_currency_data w = Raised e →
        outcome (main_auto to_datetime) w = Raised e
        ∧ fs (run (main_auto to_datetime) w) = fs w)
  ∧ (∀ df, outcome process_currency_data w = Ok df →
           main_auto to_datetime w
           = save_to_csv to_datetime df ALL_CURRENCY_FILE w
           ∧ outcome (main_auto to_datetime) w = Ok ()).
Proof.
  pose proof (proj2 (process_cases w)) as Hfs. split.
  - intros e He. unfold outcome, run in *. rewrite main_auto_unfold.
    destruct (process_currency_data w) as [[df|e'] w']; simpl in *; [done |].
    by simplify_eq.
  - intros df Hdf.
    assert (process_currency_data w = (Ok df, w)) as Hp.
    { unfold outcome in Hdf.
      destruct (process_currency_data w) as [r w'] eqn:Hp. simpl in Hdf.
      subst r. by rewrite (process_Ok_same_world _ _ _ Hp). }
    unfold outcome. rewrite main_auto_unfold, Hp.
    split; [done |]. apply save_outcome.
Qed.

End Cycle.

Section CycleInvariant.

Variable to_datetime : string → option Timestamp.

Lemma main_auto_unique_dates w :
  medium w = Healthy →
  (∀ h, history w = Some h → NoDup (dates (rows h))) →
  ∀ h, history (run (main_auto to_datetime) w) = Some h →
       NoDup (dates (rows h)).
Proof.
  intros Hm Hinv h. unfold run. rewrite main_auto_unfold.
  destruct (process_currency_data w) as [[df|e] w'] eqn:Hp.
  - apply process_Ok_same_world in Hp as Hw. subst w'.
    apply (save_to_csv_unique_dates to_datetime df w Hm); [|done].
    apply (process_currency_data_unique_dates w). unfold outcome.
    by rewrite Hp.
  - cbn [snd]. intros Hh. apply Hinv.
    pose proof (proj2 (process_cases w)) as Hfs. unfold run in Hfs.
    rewrite Hp in Hfs. cbn [snd] in Hfs.
    unfold history in *. by rewrite <- Hfs.
Qed.

(** X13. However many cycles have run, whatever the source answered and
    whichever of them failed, a history with one row per date stays a
    history with one row per date; so does every history that the cycles
    create. *)
Theorem X13_cycles_keep_one_row_per_date w w' :
  cycles to_datetime w w' →
  (∀ h, history w = Some h → NoDup (dates (rows h))) →
  ∀ h, history w' = Some h → NoDup (dates (rows h)).
Proof.
  induction 1 as [w|w w' next _ IH Hfs Hm]; intros Hinv; [done |].
  apply main_auto_unique_dates; [done |].
  intros h Hh. apply (IH Hinv). unfold history in *. by rewrite <- Hfs.
Qed.

End CycleInvariant.

(** An instance of X13: a first cycle without history, with a source that
    lists two days. *)
Lemma X13_example_first_cycle :
  ∃ h,
    history (run (main_auto iso_to_datetime)
               (online ∅ (listing entries_0311_0312))) = Some h
    ∧ dates (rows h) = ["2024-03-11"; "2024-03-12"]
    ∧ NoDup (dates (rows h)).
Proof.
  eexists. split; [reflexivity |]. split; [reflexivity |].
  apply (X13_cycles_keep_one_row_per_date iso_to_datetime (offline ∅)
           (run (main_auto iso_to_datetime)
              (online ∅ (listing entries_0311_0312)))).
  - apply (cycles_more _ _ (offline ∅)); [constructor | reflexivity..].
  - intros h Hh. discriminate Hh.
  - reflexivity.
Defined.

(** * Further properties of [save_to_csv] *)

Section SaveProperties.

Variable to_datetime : string → option Timestamp.

Local Abbreviation save df := (save_to_csv to_datetime df ALL_CURRENCY_FILE).

(** The branch of the selection file: the table is written as it is. *)
Lemma save_selected data_frame w :
  save_to_csv to_datetime data_frame SELECTED_CURRENCY_FILE w
  = match medium w with
    | Healthy =>
        (Ok (),
         put_stdout
           (Line (selected_line
                    (bool_decide (is_Some (fs w !! SELECTED_CURRENCY_FILE)))))
           (set_fs (<[SELECTED_CURRENCY_FILE := Csv data_frame]>) w))
    | Faulty residue =>
        (Ok (),
         put_stdout (selected_error_line OSError)
           (set_fs (partial_alter (λ _, residue) SELECTED_CURRENCY_FILE) w))
    end.
Proof.
  unfold save_to_csv.
  change (String.eqb SELECTED_CURRENCY_FILE SELECTED_CURRENCY_FILE) with true.
  cbv iota. unfold try_except, mbind, IO_bind, isfile, to_csv.
  destruct (bool_decide (is_Some (fs w !! SELECTED_CURRENCY_FILE)));
    by destruct (medium w).
Qed.

Lemma save_other data_frame filename w :
  filename ≠ SELECTED_CURRENCY_FILE → filename ≠ ALL_CURRENCY_FILE →
  save_to_csv to_datetime data_frame filename w = (Ok (), w).
Proof.
  intros H1 H2. unfold save_to_csv.
  destruct (String.eqb_spec filename SELECTED_CURRENCY_FILE); [done |].
  by destruct (String.eqb_spec filename ALL_CURRENCY_FILE).
Qed.

(** The three cases of the file name. *)
Lemma filename_cases filename :
  filename = SELECTED_CURRENCY_FILE ∨ filename = ALL_CURRENCY_FILE
  ∨ (filename ≠ SELECTED_CURRENCY_FILE ∧ filename ≠ ALL_CURRENCY_FILE).
Proof.
  destruct (decide (filename = SELECTED_CURRENCY_FILE)); [by left |].
  destruct (decide (filename = ALL_CURRENCY_FILE)); [by right; left |].
  by right; right.
Qed.

Lemma save_to_csv_returns data_frame filename w :
  save_to_csv to_datetime data_frame filename w
  = (Ok (), run (save_to_csv to_datetime data_frame filename) w).
Proof.
  unfold run. destruct (filename_cases filename) as [->|[->|[H1 H2]]].
  - rewrite save_selected. by destruct (medium w).
  - pose proof (save_outcome to_datetime data_frame w) as H.
    unfold outcome in H.
    destruct (save_to_csv to_datetime data_frame ALL_CURRENCY_FILE w).
    cbn in *. by subst.
  - by rewrite save_other.
Qed.

(** X14. [save_to_csv] never raises: whatever the file name, the table,
    the files and the medium, the call returns normally. *)
Theorem X14_save_to_csv_never_raises data_frame filename w :
  outcome (save_to_csv to_datetime data_frame filename) w = Ok ().
Proof. unfold outcome. by rewrite save_to_csv_returns. Qed.

(** X15. [save_to_csv] touches no file but the one it is given, and keeps
    the medium; given a name that is neither of the two file names of the
    program it does nothing at all: no file is written, nothing is
    printed. *)
Theorem X15_save_to_csv_touches_only_its_file data_frame filename w :
  (∀ other, other ≠ filename →
            fs (run (save_to_csv to_datetime data_frame filename) w) !! other
            = fs w !! other)
  ∧ medium (run (save_to_csv to_datetime data_frame filename) w) = medium w
  ∧ (filename ≠ SELECTED_CURRENCY_FILE → filename ≠ ALL_CURRENCY_FILE →
     run (save_to_csv to_datetime data_frame filename) w = w).
Proof.
  destruct (filename_cases filename) as [->|[->|[H1 H2]]].
  - unfold run. rewrite save_selected.
    destruct (medium w) eqn:Hm; cbn.
    + split; [|done]. intros other Hne. by rewrite lookup_insert_ne.
    + split; [|done]. intros other Hne. by rewrite lookup_partial_alter_ne.
  - split; [|split; [apply save_medium | done]].
    intros other Hne. rewrite save_fs.
    destruct (staged to_datetime data_frame w); [|done].
    destruct (medium w).
    + by rewrite lookup_insert_ne.
    + by rewrite lookup_partial_alter_ne.
  - unfold run. by rewrite save_other.
Qed.

(** X16. The selection file is replaced, never merged: on a healthy
    medium it holds the given table afterwards, whatever it held before,
    readable or not, and the dates of the table are not even parsed. The
    line printed says "updated" when the file existed and "saved" when it
    did not. *)
Theorem X16_selection_file_is_replaced data_frame w :
  medium w = Healthy →
  fs (run (save_to_csv to_datetime data_frame SELECTED_CURRENCY_FILE) w)
  = <[SELECTED_CURRENCY_FILE := Csv data_frame]> (fs w)
  ∧ stdout (run (save_to_csv to_datetime data_frame SELECTED_CURRENCY_FILE) w)
    = stdout w
      ++ [Line (selected_line
                  (bool_decide (is_Some (fs w !! SELECTED_CURRENCY_FILE))))].
Proof. intros Hm. unfold run. by rewrite save_selected, Hm. Qed.

End SaveProperties.

(** An instance of X16: the selection file was unreadable. *)
Lemma X16_example_garbled_selection :
  fs (run (save_to_csv iso_to_datetime (table [row_0311])
             SELECTED_CURRENCY_FILE)
        (offline {[ SELECTED_CURRENCY_FILE := Garbled ]}))
  !! SELECTED_CURRENCY_FILE = Some (Csv (table [row_0311])).
Proof.
  destruct (X16_selection_file_is_replaced iso_to_datetime (table [row_0311])
              (offline {[ SELECTED_CURRENCY_FILE := Garbled ]}) eq_refl)
    as [-> _].
  reflexivity.
Defined.

Lemma filter_ext_in {A} (P Q : A → Prop) `{!∀ x, Decision (P x)}
    `{!∀ x, Decision (Q x)} (l : list A) :
  (∀ x, x ∈ l → P x ↔ Q x) → filter P l = filter Q l.
Proof.
  induction l as [|x l IH]; intros Hext; [done |].
  rewrite !filter_cons, IH by (intros y Hy; apply Hext; by right).
  destruct (decide (P x)) as [HP|HP], (decide (Q x)) as [HQ|HQ]; try done.
  - exfalso. apply HQ, Hext; [by left | done].
  - exfalso. apply HP, Hext; [by left | done].
Qed.

Section MergeProperties.

Variable to_datetime : string → option Timestamp.

Local Abbreviation save df := (save_to_csv to_datetime df ALL_CURRENCY_FILE).
Local Abbreviation latest := (latest_date to_datetime).
Local Abbreviation later_than rs := (λ r, newer to_datetime (latest rs) r).

(** The history a committed merge leaves, columns and rows. *)
Lemma save_history_table w existing data_frame :
  history w = Some existing →
  medium w = Healthy →
  parses to_datetime (rows existing) →
  parses to_datetime (rows data_frame) →
  fs (run (save data_frame) w)
  = <[ALL_CURRENCY_FILE :=
        Csv (mkDF (columns existing
                   ++ filter (λ c, c ∉ columns existing) (columns data_frame))
               (drop_duplicates
                  (rows existing
                   ++ filter (later_than (rows existing)) (rows data_frame))))]>
      (fs w).
Proof.
  intros Hh%history_Some Hm He Hi. rewrite save_fs. unfold staged.
  by rewrite Hh, Hm, updated_data_parses.
Qed.

Lemma history_insert files df w :
  fs w = <[ALL_CURRENCY_FILE := Csv df]> files → history w = Some df.
Proof. intros H. apply history_Some. by rewrite H, lookup_insert_eq. Qed.

(** No row of a table is later than the latest date of that table. *)
Lemma no_row_later_than_latest rs : filter (later_than rs) rs = [].
Proof.
  apply elem_of_nil_inv. intros r [Hnew Hr]%list_elem_of_filter.
  apply Is_true_true, newer_spec in Hnew as (z & m & Hz & Hm & Hlt).
  apply series_max_TS in Hm as [_ Hmax].
  assert (z ≤ m); [|lia]. apply Hmax, elem_of_timestamps. eauto.
Qed.

(** X17. Without a history file the table is written as it is, duplicate
    dates included; storing the same table again goes through the merge,
    which appends nothing and keeps one row per date, the first. *)
Theorem X17_first_write_is_verbatim data_frame w :
  fs w !! ALL_CURRENCY_FILE = None →
  medium w = Healthy →
  history (run (save data_frame) w) = Some data_frame
  ∧ (parses to_datetime (rows data_frame) →
     history (run (save data_frame) (run (save data_frame) w))
     = Some (mkDF (columns data_frame) (drop_duplicates (rows data_frame)))).
Proof.
  intros Hf Hm.
  assert (fs (run (save data_frame) w)
          = <[ALL_CURRENCY_FILE := Csv data_frame]> (fs w)) as Hfs
    by (rewrite save_fs; unfold staged; by rewrite Hf, Hm).
  pose proof (history_insert _ _ _ Hfs) as Hh. split; [done |].
  intros Hp. eapply history_insert.
  rewrite (save_history_table _ data_frame data_frame);
    [|done|by rewrite save_medium|done..].
  rewrite no_row_later_than_latest, app_nil_r.
  assert (filter (λ c, c ∉ columns data_frame) (columns data_frame) = [])
    as ->; [|by rewrite app_nil_r].
  apply elem_of_nil_inv. by intros c [? ?]%list_elem_of_filter.
Qed.

(** X18. A history that holds no dated row (a file with a header and no
    rows, or rows whose date cell is empty) takes no row: whatever table
    is merged into it, nothing is appended. *)
Theorem X18_undated_history_takes_no_row w existing data_frame :
  history w = Some existing →
  medium w = Healthy →
  Forall (λ r, to_datetime (Date r) = Some NaT) (rows existing) →
  parses to_datetime (rows data_frame) →
  history (run (save data_frame) w)
  = Some (mkDF (columns existing
                ++ filter (λ c, c ∉ columns existing) (columns data_frame))
               (drop_duplicates (rows existing))).
Proof.
  intros Hh Hm Hnat Hi.
  assert (parses to_datetime (rows existing)) as He.
  { unfold parses. eapply Forall_impl; [exact Hnat |]. by intros r ->. }
  eapply history_insert. rewrite (save_history_table _ existing) by done.
  assert (latest (rows existing) = NaT) as ->.
  { apply series_max_NaT, Forall_forall.
    intros t (r & Hr & Ht)%elem_of_timestamps.
    rewrite Forall_forall in Hnat. rewrite (Hnat _ Hr) in Ht. congruence. }
  assert (filter (λ r, newer to_datetime NaT r) (rows data_frame) = []) as ->.
  { apply elem_of_nil_inv. intros r [Hn _]%list_elem_of_filter.
    by rewrite newer_NaT in Hn. }
  by rewrite app_nil_r.
Qed.

(** X19. A merge that commits never loses a date: of the stored rows it
    keeps the first of each date, in their order, and every row it appends
    is a row of the table that is later than every stored date. *)
Theorem X19_merge_never_loses_a_date w existing data_frame :
  history w = Some existing →
  medium w = Healthy →
  parses to_datetime (rows existing) →
  parses to_datetime (rows data_frame) →
  ∃ merged appended,
    history (run (save data_frame) w) = Some merged
    ∧ rows merged = drop_duplicates (rows existing) ++ appended
    ∧ (∀ date, date ∈ dates (rows existing) → date ∈ dates (rows merged))
    ∧ ∀ r, r ∈ appended →
           r ∈ rows data_frame
           ∧ newer to_datetime (latest (rows existing)) r = true
           ∧ Date r ∉ dates (rows existing).
Proof.
  intros Hh Hm He Hi.
  eexists (mkDF _ _), _. split.
  { eapply history_insert. by apply save_history_table. }
  cbn [rows]. rewrite drop_duplicates_app. split; [reflexivity |]. split.
  - intros date Hd. rewrite <- drop_duplicates_app.
    apply drop_duplicates_dates. unfold dates in *. rewrite fmap_app.
    apply elem_of_app. by left.
  - intros r [Hfresh Hr]%list_elem_of_filter.
    apply drop_duplicates_elem_of, list_elem_of_filter in Hr as [Hn Hr].
    split; [done |]. split; [by apply Is_true_true | done].
Qed.

Lemma drop_duplicates_idemp rs :
  drop_duplicates (drop_duplicates rs) = drop_duplicates rs.
Proof. apply drop_duplicates_id, drop_duplicates_NoDup. Qed.

Lemma drop_duplicates_app_l a b :
  drop_duplicates (drop_duplicates a ++ b) = drop_duplicates (a ++ b).
Proof.
  rewrite !drop_duplicates_app, drop_duplicates_idemp. f_equal.
  apply list_filter_iff. intros r. by rewrite drop_duplicates_dates.
Qed.

(** After a first table, the rows of a table dated after it are later
    than the history exactly when they were later than it before. *)
Lemma later_than_after_merge rs first r :
  (∀ r1, r1 ∈ first → before to_datetime r1 r) →
  newer to_datetime
    (latest (drop_duplicates (rs ++ filter (later_than rs) first))) r
  = newer to_datetime (latest rs) r.
Proof.
  intros Hbefore.
  set (F := filter (later_than rs) first).
  assert (∀ t, t ∈ timestamps to_datetime (drop_duplicates (rs ++ F))
               ↔ t ∈ timestamps to_datetime rs ∨ t ∈ timestamps to_datetime F)
    as Hts.
  { intros t. rewrite timestamps_drop_duplicates. unfold timestamps.
    by rewrite omap_app, elem_of_app. }
  destruct (newer to_datetime (latest rs) r) eqn:Hold.
  - apply newer_spec in Hold as (z & m & Hz & Hm & Hlt).
    apply newer_spec. exists z.
    destruct (latest (drop_duplicates (rs ++ F))) as [|m1] eqn:H1.
    + exfalso. apply series_max_NaT in H1. rewrite Forall_forall in H1.
      apply series_max_TS in Hm as [Hin _].
      assert (TS m = NaT); [|done]. apply H1, Hts. by left.
    + exists m1. split; [done |]. split; [done |].
      apply series_max_TS in H1 as [Hin _]. apply Hts in Hin as [Hin|Hin].
      * apply series_max_TS in Hm as [_ Hmax]. specialize (Hmax _ Hin). lia.
      * apply elem_of_timestamps in Hin as (r1 & Hr1 & Ht1).
        apply list_elem_of_filter in Hr1 as [_ Hr1].
        destruct (Hbefore _ Hr1) as (a & b & Ha & Hb & Hab).
        unfold date_key in Ha, Hb. rewrite Ht1 in Ha. rewrite Hz in Hb.
        simplify_eq. done.
  - destruct (newer to_datetime (latest (drop_duplicates (rs ++ F))) r)
      eqn:Hnew; [|done]. exfalso.
    apply newer_spec in Hnew as (z & m1 & Hz & Hm1 & Hlt).
    assert (∃ m, latest rs = TS m) as [m Hm].
    { destruct (latest rs) as [|m] eqn:Hl; [|by eexists]. exfalso.
      apply series_max_TS in Hm1 as [Hin _]. apply Hts in Hin as [Hin|Hin].
      - apply series_max_NaT in Hl. rewrite Forall_forall in Hl.
        by specialize (Hl _ Hin).
      - apply elem_of_timestamps in Hin as (r1 & Hr1 & _).
        apply list_elem_of_filter in Hr1 as [Hn _].
        by rewrite newer_NaT in Hn. }
    assert (m ≤ m1).
    { apply series_max_TS in Hm1 as [_ Hmax]. apply Hmax, Hts. left.
      by apply series_max_TS in Hm as [Hin _]. }
    rewrite Hm in Hold. unfold newer in Hold. rewrite Hz in Hold.
    cbn in Hold. apply bool_decide_eq_false in Hold. lia.
Qed.

(** X20. Merging a first table and then a second table whose rows are all
    dated after those of the first leaves the files as merging the two
    tables at once, the second after the first, does. *)
Theorem X20_merges_compose w existing first second :
  history w = Some existing →
  medium w = Healthy →
  parses to_datetime (rows existing) →
  parses to_datetime (rows first) →
  parses to_datetime (rows second) →
  columns second = columns first →
  (∀ r1 r2, r1 ∈ rows first → r2 ∈ rows second → before to_datetime r1 r2) →
  fs (run (save second) (run (save first) w))
  = fs (run (save (mkDF (columns first) (rows first ++ rows second))) w).
Proof.
  intros Hh Hm He H1 H2 Hcols Hbefore.
  pose proof (save_history_table _ _ _ Hh Hm He H1) as Hfs1.
  pose proof (history_insert _ _ _ Hfs1) as Hh1.
  rewrite (save_history_table _ _ second Hh1);
    [|by rewrite save_medium| |done].
  - rewrite (save_history_table _ existing (mkDF _ _) Hh Hm He)
      by (by apply parses_app).
    rewrite Hfs1, insert_insert_eq. cbn [rows columns].
    rewrite Hcols, columns_absorbed, app_nil_r. do 3 f_equal.
    rewrite drop_duplicates_app_l, filter_app, <- app_assoc. do 3 f_equal.
    apply filter_ext_in. intros r Hr.
    rewrite later_than_after_merge; [done |].
    intros r1 Hr1. by apply Hbefore.
  - cbn [rows]. eapply parses_subseteq;
      [intros r; apply drop_duplicates_elem_of |].
    apply parses_app. split; [done |].
    eapply parses_subseteq; [|exact H1].
    by intros r [_ ?]%list_elem_of_filter.
Qed.

End MergeProperties.

(** An instance of X17: a table that lists 2024-03-10 twice, stored
    twice. *)
Lemma X17_example_duplicate_dates :
  history (run (save_to_csv iso_to_datetime
                  (table [row_0310; row_0310_revised]) ALL_CURRENCY_FILE)
             (offline ∅))
  = Some (table [row_0310; row_0310_revised])
  ∧ history (run (save_to_csv iso_to_datetime
                    (table [row_0310; row_0310_revised]) ALL_CURRENCY_FILE)
               (run (save_to_csv iso_to_datetime
                       (table [row_0310; row_0310_revised])
                       ALL_CURRENCY_FILE) (offline ∅)))
    = Some (table [row_0310]).
Proof.
  destruct (X17_first_write_is_verbatim iso_to_datetime
              (table [row_0310; row_0310_revised]) (offline ∅))
    as [H1 H2]; [reflexivity.. |].
  split; [exact H1 |]. rewrite H2; [reflexivity |].
  repeat constructor; by eexists.
Defined.

(** An instance of X18: a history with a header and no rows. *)
Lemma X18_example_header_only :
  history (run (save_to_csv iso_to_datetime (table [row_0311; row_0312])
                  ALL_CURRENCY_FILE) (storing []))
  = Some (table []).
Proof.
  rewrite (X18_undated_history_takes_no_row iso_to_datetime (storing [])
             (table []) (table [row_0311; row_0312])).
  - reflexivity.
  - reflexivity.
  - reflexivity.
  - constructor.
  - repeat constructor; by eexists.
Defined.

(** An instance of X19: the history lists 2024-03-10 twice. *)
Lemma X19_example_duplicate_stored :
  ∃ merged,
    history (run (save_to_csv iso_to_datetime (table [row_0311])
                    ALL_CURRENCY_FILE)
               (storing [row_0310; row_0310_revised])) = Some merged
    ∧ rows merged = [row_0310; row_0311].
Proof.
  destruct (X19_merge_never_loses_a_date iso_to_datetime
              (storing [row_0310; row_0310_revised])
              (table [row_0310; row_0310_revised]) (table [row_0311]))
    as (merged & appended & Hh & Hrows & _ & _).
  - reflexivity.
  - reflexivity.
  - repeat constructor; by eexists.
  - repeat constructor; by eexists.
  - exists merged. split; [exact Hh |].
    change (Some (table [row_0310; row_0311]) = Some merged) in Hh.
    by injection Hh as <-.
Defined.

(** An instance of X20: 2024-03-11, then 2024-03-12, into the history of
    2024-03-10. *)
Lemma X20_example_two_days :
  fs (run (save_to_csv iso_to_datetime (table [row_0312]) ALL_CURRENCY_FILE)
        (run (save_to_csv iso_to_datetime (table [row_0311])
                ALL_CURRENCY_FILE) (storing [row_0310])))
  = fs (run (save_to_csv iso_to_datetime (table [row_0311; row_0312])
               ALL_CURRENCY_FILE) (storing [row_0310])).
Proof.
  apply (X20_merges_compose iso_to_datetime (storing [row_0310])
           (table [row_0310]) (table [row_0311]) (table [row_0312])).
  - reflexivity.
  - reflexivity.
  - repeat constructor; by eexists.
  - repeat constructor; by eexists.
  - repeat constructor; by eexists.
  - reflexivity.
  - intros r1 r2 ->%list_elem_of_singleton ->%list_elem_of_singleton.
    by exists 20240311, 20240312.
Defined.

(** * Further properties of the report *)

Section ReportProperties.

Variable to_datetime : string → option Timestamp.
Variable series_sum : list Q → Q.

Local Abbreviation analyze := (analyze_currency_pair to_datetime series_sum).

Lemma analysis_row_Ok data_frame currency_pair :
  currency_pair ∈ columns data_frame →
  currency_pair ≠ "Date" →
  rows data_frame ≠ [] →
  parses to_datetime (rows data_frame) →
  analysis_row to_datetime series_sum data_frame currency_pair
  = Ok (report_row series_sum data_frame currency_pair).
Proof.
  intros Hcol Hdate Hrows Hp. unfold analysis_row, report_row.
  rewrite bool_decide_eq_true_2 by auto. cbn [negb].
  destruct (rows data_frame) as [|r rs] eqn:Hr; [done |].
  rewrite bool_decide_eq_false_2 by done.
  by rewrite to_datetime_series_parses.
Qed.

Lemma analysis_rows_app data_frame good rest :
  analysis_rows to_datetime series_sum data_frame (good ++ rest)
  = match analysis_rows to_datetime series_sum data_frame good with
    | Raised e => Raised e
    | Ok table =>
        match analysis_rows to_datetime series_sum data_frame rest with
        | Raised e => Raised e
        | Ok table' => Ok (table ++ table')
        end
    end.
Proof.
  induction good as [|p good IH]; cbn [app analysis_rows].
  - by destruct (analysis_rows to_datetime series_sum data_frame rest).
  - destruct (analysis_row to_datetime series_sum data_frame p); [|done].
    rewrite IH.
    destruct (analysis_rows to_datetime series_sum data_frame good); [|done].
    by destruct (analysis_rows to_datetime series_sum data_frame rest).
Qed.

Lemma analysis_rows_Forall data_frame pairs :
  Forall (λ p, is_ok (analysis_row to_datetime series_sum data_frame p) = true) pairs →
  is_ok (analysis_rows to_datetime series_sum data_frame pairs) = true.
Proof.
  induction 1 as [|p pairs Hp _ IH]; [done |]. cbn [analysis_rows].
  destruct (analysis_row to_datetime series_sum data_frame p); [|done].
  by destruct (analysis_rows to_datetime series_sum data_frame pairs).
Qed.

(** X21. For a table with rows whose dates parse, asked for columns of
    the table, the report prints one table and nothing else: one row for
    each requested pair, in the order requested, with the pair and its
    four statistics in four decimals. *)
Theorem X21_report_one_row_per_pair data_frame selected_currency_pairs w :
  rows data_frame ≠ [] →
  parses to_datetime (rows data_frame) →
  Forall (λ p, p ∈ columns data_frame ∧ p ≠ "Date") selected_currency_pairs →
  analyze data_frame selected_currency_pairs w
  = (Ok (),
     put_stdout
       (Table field_names (report_row series_sum data_frame <$> selected_currency_pairs))
       w).
Proof.
  intros Hrows Hp Hall.
  assert (analysis_rows to_datetime series_sum data_frame selected_currency_pairs
          = Ok (report_row series_sum data_frame <$> selected_currency_pairs)) as Hr.
  { induction Hall as [|p pairs [Hcol Hdate] _ IH]; [done |].
    cbn [analysis_rows]. by rewrite analysis_row_Ok, IH. }
  unfold analyze_currency_pair, mbind, IO_bind, lift. by rewrite Hr.
Qed.

(** X22. A column in which no row has a value is not an error: its row of
    the report shows 'nan' four times. *)
Theorem X22_report_of_a_column_without_values data_frame currency_pair w :
  currency_pair ∈ columns data_frame →
  currency_pair ≠ "Date" →
  rows data_frame ≠ [] →
  parses to_datetime (rows data_frame) →
  Forall (λ r, cell currency_pair r = None) (rows data_frame) →
  analyze data_frame [currency_pair] w
  = (Ok (),
     put_stdout
       (Table field_names [[currency_pair; "nan"; "nan"; "nan"; "nan"]]) w).
Proof.
  intros Hcol Hdate Hrows Hp Hnone.
  unfold analyze_currency_pair, mbind, IO_bind, lift. cbn [analysis_rows].
  rewrite analysis_row_Ok by done. unfold report_row.
  assert (∀ rs, Forall (λ r, cell currency_pair r = None) rs →
                omap (cell currency_pair) rs = []) as Hempty.
  { clear. induction 1 as [|r rs Hr _ IH]; [done |].
    cbn [omap list_omap]. by rewrite Hr. }
  by rewrite Hempty.
Qed.

(** X23. The report is all or nothing: the first requested pair that
    fails raises its error, and nothing is printed, not even the rows of
    the pairs before it. *)
Theorem X23_report_is_all_or_nothing data_frame good currency_pair rest e w :
  Forall (λ p, is_ok (analysis_row to_datetime series_sum data_frame p) = true) good →
  analysis_row to_datetime series_sum data_frame currency_pair = Raised e →
  analyze data_frame (good ++ currency_pair :: rest) w = (Raised e, w).
Proof.
  intros Hgood%analysis_rows_Forall Hbad.
  unfold analyze_currency_pair, mbind, IO_bind, lift.
  rewrite analysis_rows_app. cbn [analysis_rows]. rewrite Hbad.
  by destruct (analysis_rows to_datetime series_sum data_frame good).
Qed.

(** X24. The report checks the pair before the rows: a pair that is not a
    column raises the [ValueError] 'is not present in the DataFrame', also
    for a table without rows and for dates that do not parse; a column of
    a table without rows raises the [ValueError] 'No data available'. In
    both cases nothing is printed. *)
Theorem X24_report_rejects_unknown_pair_then_empty_table
    data_frame currency_pair rest w :
  currency_pair ≠ "Date" →
  (currency_pair ∉ columns data_frame →
   analyze data_frame (currency_pair :: rest) w
   = (Raised (ValueError (not_present currency_pair)), w))
  ∧ (currency_pair ∈ columns data_frame → rows data_frame = [] →
     analyze data_frame (currency_pair :: rest) w
     = (Raised (ValueError (no_data currency_pair)), w)).
Proof.
  intros Hdate.
  unfold analyze_currency_pair, mbind, IO_bind, lift. cbn [analysis_rows].
  unfold analysis_row. split.
  - intros Hcol. rewrite bool_decide_eq_false_2 by (intros [?|?]; done).
    done.
  - intros Hcol ->. by rewrite bool_decide_eq_true_2 by auto.
Qed.

End ReportProperties.

(** An instance of X21: two requests for the column of the statistics
    example. *)
Lemma X21_example_two_pairs :
  analyze_currency_pair iso_to_datetime sum_in_order eur_usd_frame ["EUR/USD"; "EUR/USD"]
    (offline ∅)
  = (Ok (),
     put_stdout
       (Table field_names
          [ ["EUR/USD"; "1.1125"; "1.1100"; "1.0800"; "1.1500"];
            ["EUR/USD"; "1.1125"; "1.1100"; "1.0800"; "1.1500"] ])
       (offline ∅)).
Proof.
  rewrite (X21_report_one_row_per_pair iso_to_datetime sum_in_order eur_usd_frame
             ["EUR/USD"; "EUR/USD"] (offline ∅)).
  - reflexivity.
  - discriminate.
  - repeat constructor; by eexists.
  - repeat constructor; discriminate.
Defined.

(** An instance of X22. *)
Lemma X22_example_nan :
  analyze_currency_pair iso_to_datetime sum_in_order frame_without_values ["EUR/USD"]
    (offline ∅)
  = (Ok (),
     put_stdout (Table field_names [["EUR/USD"; "nan"; "nan"; "nan"; "nan"]])
       (offline ∅)).
Proof.
  apply (X22_report_of_a_column_without_values iso_to_datetime sum_in_order
           frame_without_values "EUR/USD" (offline ∅)).
  - by left.
  - discriminate.
  - discriminate.
  - repeat constructor; by eexists.
  - repeat constructor.
Defined.

(** An instance of X23: the second pair of three is not a column. *)
Lemma X23_example_second_pair_unknown :
  analyze_currency_pair iso_to_datetime sum_in_order eur_usd_frame
    ["EUR/USD"; "GBP/USD"; "EUR/USD"] (offline ∅)
  = (Raised (ValueError (not_present "GBP/USD")), offline ∅).
Proof.
  apply (X23_report_is_all_or_nothing iso_to_datetime sum_in_order eur_usd_frame
           ["EUR/USD"] "GBP/USD" ["EUR/USD"]).
  - repeat constructor.
  - reflexivity.
Defined.

(** An instance of X24: a table without rows. *)
Lemma X24_example_empty_table :
  analyze_currency_pair iso_to_datetime sum_in_order (mkDF ["EUR/USD"] []) ["GBP/USD"]
    (offline ∅)
  = (Raised (ValueError (not_present "GBP/USD")), offline ∅)
  ∧ analyze_currency_pair iso_to_datetime sum_in_order (mkDF ["EUR/USD"] []) ["EUR/USD"]
      (offline ∅)
    = (Raised (ValueError (no_data "EUR/USD")), offline ∅).
Proof.
  split.
  - apply (X24_report_rejects_unknown_pair_then_empty_table iso_to_datetime sum_in_order
             (mkDF ["EUR/USD"] []) "GBP/USD" [] (offline ∅)).
    + discriminate.
    + intros ?%list_elem_of_singleton. discriminate.
  - apply (X24_report_rejects_unknown_pair_then_empty_table iso_to_datetime sum_in_order
             (mkDF ["EUR/USD"] []) "EUR/USD" [] (offline ∅)).
    + discriminate.
    + by left.
    + reflexivity.
Defined.

(** * The interactive run *)

Lemma split_comma_nonempty s : split_comma s ≠ [].
Proof.
  destruct s as [|c s]; [done |]. cbn [split_comma].
  destruct (Ascii.eqb c ","); [done |]. by destruct (split_comma s).
Qed.

Lemma split_comma_length s :
  length (split_comma s) = S (length (filter (λ c, c = ","%char) (chars s))).
Proof.
  induction s as [|c s IH]; [done |]. cbn [split_comma chars list_ascii_of_string].
  fold (chars s). rewrite filter_cons.
  destruct (Ascii.eqb_spec c ",") as [->|Hne].
  - rewrite decide_True by done. cbn [length]. by rewrite IH.
  - rewrite decide_False by done. rewrite <- IH.
    pose proof (split_comma_nonempty s). by destruct (split_comma s).
Qed.

(** Joining the pieces with commas gives the string back. *)
Lemma split_comma_concat s : String.concat "," (split_comma s) = s.
Proof.
  induction s as [|c s IH]; [done |]. cbn [split_comma].
  pose proof (split_comma_nonempty s) as Hne.
  destruct (Ascii.eqb_spec c ",") as [->|Hc].
  - destruct (split_comma s) as [|piece rest]; [done |].
    cbn [String.concat] in *. by rewrite IH.
  - destruct (split_comma s) as [|piece rest]; [done |].
    destruct rest; cbn [String.concat] in *; by rewrite <- IH.
Qed.

Lemma chars_remove_spaces s :
  chars (remove_spaces s) = filter (λ c, c ≠ " "%char) (chars s).
Proof.
  induction s as [|c s IH]; [done |].
  cbn [remove_spaces chars list_ascii_of_string]. fold (chars s).
  rewrite filter_cons. destruct (Ascii.eqb_spec c " ") as [->|Hne].
  - by rewrite decide_False by auto.
  - rewrite decide_True by done. cbn [chars list_ascii_of_string].
    fold (chars (remove_spaces s)). by rewrite IH.
Qed.

Lemma chars_upper s : chars (upper s) = upper_char <$> chars s.
Proof.
  induction s as [|c s IH]; [done |].
  cbn [upper chars list_ascii_of_string]. fold (chars s) (chars (upper s)).
  by rewrite IH.
Qed.

Lemma upper_char_not_lowercase c : ¬ lowercase (upper_char c).
Proof.
  unfold lowercase.
  destruct c as [[] [] [] [] [] [] [] []]; vm_compute; lia.
Qed.

Lemma upper_char_space c : upper_char c = " "%char → c = " "%char.
Proof. destruct c as [[] [] [] [] [] [] [] []]; vm_compute; congruence. Qed.

(** X25. Whatever is typed at the prompt, the list of requested pairs is
    never empty, so that the check 'No valid currency pairs provided' can
    never fire: it has one pair more than the line has commas. No pair
    holds a space or a letter from a to z; in particular the 'Date' column
    can never be requested. *)
Theorem X25_requested_pairs_are_normalised typed :
  selected_pairs typed ≠ []
  ∧ length (selected_pairs typed)
    = S (length (filter (λ c, c = ","%char) (chars typed)))
  ∧ Forall (λ pair, (" "%char ∉ chars pair)
                    ∧ Forall (λ c, ¬ lowercase c) (chars pair))
      (selected_pairs typed)
  ∧ "Date" ∉ selected_pairs typed.
Proof.
  assert (Forall (λ pair, (" "%char ∉ chars pair)
                          ∧ Forall (λ c, ¬ lowercase c) (chars pair))
            (selected_pairs typed)) as Hall.
  { unfold selected_pairs. apply Forall_fmap, Forall_forall.
    intros piece _. cbn. rewrite chars_upper, chars_remove_spaces. split.
    - intros (c & Hc%eq_sym%upper_char_space & Hin)%list_elem_of_fmap.
      subst c. by apply list_elem_of_filter in Hin as [? _].
    - apply Forall_fmap, Forall_forall. intros c _.
      apply upper_char_not_lowercase. }
  split; [|split; [|split; [done |]]].
  - unfold selected_pairs. pose proof (split_comma_nonempty typed).
    by destruct (split_comma typed).
  - unfold selected_pairs. by rewrite length_fmap, split_comma_length.
  - intros Hin. rewrite Forall_forall in Hall.
    destruct (Hall _ Hin) as [_ Hlow]. rewrite Forall_forall in Hlow.
    apply (Hlow "a"%char).
    + right. by left.
    + unfold lowercase. change (nat_of_ascii "a") with 97%nat. lia.
Qed.

Lemma assoc_filter_keys {V} (dropped : list string) (d : list (string * V)) k :
  assoc k (filter (λ kv, kv.1 ∉ dropped) d)
  = if decide (k ∈ dropped) then None else assoc k d.
Proof.
  induction d as [|[k' v] d IH]; [by case_decide |].
  rewrite filter_cons. cbn [fst].
  destruct (decide (k' ∉ dropped)) as [Hk'|Hk'].
  - rewrite !assoc_cons, IH. repeat case_decide; congruence.
  - rewrite IH, assoc_cons. apply dec_stable in Hk'.
    repeat case_decide; congruence.
Qed.

(** X28. The table that [main_manual] stores and reports on has the dates
    of the full table and, of its columns, those that were requested, in
    the order of the full table; a requested column keeps its values, so
    that its row of the report is the one the full table would give, and a
    column that was not requested has no value left. *)
Theorem X28_selection_keeps_requested_columns (series_sum : list Q → Q)
    (df : DataFrame) (selected_currency_pairs : list string) :
  dates (rows (selection df selected_currency_pairs)) = dates (rows df)
  ∧ columns (selection df selected_currency_pairs)
    = filter (λ col, col ∈ "Date" :: selected_currency_pairs) (columns df)
  ∧ (∀ pair, pair ∈ selected_currency_pairs →
       omap (cell pair) (rows (selection df selected_currency_pairs))
       = omap (cell pair) (rows df)
       ∧ report_row series_sum (selection df selected_currency_pairs) pair
         = report_row series_sum df pair)
  ∧ ∀ col r, col ∈ columns df →
             col ∉ "Date" :: selected_currency_pairs →
             r ∈ rows (selection df selected_currency_pairs) →
             cell col r = None.
Proof.
  unfold selection, drop_columns. cbn [rows columns].
  set (dropped := filter (λ col, col ∉ "Date" :: selected_currency_pairs)
                    (columns df)).
  assert (∀ col, col ∈ dropped
                 ↔ (col ∉ "Date" :: selected_currency_pairs) ∧ col ∈ columns df)
    as Hdropped by (intros col; unfold dropped; by rewrite list_elem_of_filter).
  split; [|split; [|split]].
  - unfold dates. rewrite <- list_fmap_compose. by apply list_fmap_ext.
  - apply filter_ext_in. intros col Hcol.
    rewrite Hdropped. split.
    + intros Hnot. destruct (decide (col ∈ "Date" :: selected_currency_pairs));
        [done |]. exfalso. auto.
    + intros Hin [Hnot _]. done.
  - intros pair Hpair.
    assert (omap (cell pair)
              ((λ r, mkRow (Date r)
                       (filter (λ kv, kv.1 ∉ dropped) (cells r))) <$> rows df)
            = omap (cell pair) (rows df)) as Heq.
    { induction (rows df) as [|r rs IH]; [done |].
      cbn [fmap list_fmap omap list_omap]. unfold cell at 1 3. cbn [cells].
      rewrite assoc_filter_keys, decide_False.
      - fold (cell pair). by rewrite <- IH.
      - rewrite Hdropped. intros [Hnot _]. apply Hnot. by right. }
    split; [done |]. unfold report_row. cbn [rows]. by rewrite Heq.
  - intros col r Hcol Hnot (r0 & -> & _)%list_elem_of_fmap.
    unfold cell. cbn [cells]. rewrite assoc_filter_keys, decide_True; [done |].
    by apply Hdropped.
Qed.

Section Manual.

Variable to_datetime : string → option Timestamp.
Variable series_sum : list Q → Q.

Local Abbreviation manual := (main_manual to_datetime series_sum).

Lemma main_manual_download_failed typed w e w' :
  process_currency_data w = (Raised e, w') →
  manual typed w = (Raised e, w').
Proof. intros Hp. unfold main_manual, mbind, IO_bind. by rewrite Hp. Qed.

Lemma main_manual_downloaded typed w df :
  process_currency_data w = (Ok df, w) →
  manual typed w
  = match typed with
    | EmptyString =>
        (Raised (ValueError (nl +:+ "No currency pairs provided.")),
         put_stdout (Line prompt)
           (run (save_to_csv to_datetime df ALL_CURRENCY_FILE) w))
    | _ =>
        analyze_currency_pair to_datetime series_sum
          (selection df (selected_pairs typed)) (selected_pairs typed)
          (run (save_to_csv to_datetime (selection df (selected_pairs typed))
                  SELECTED_CURRENCY_FILE)
             (put_stdout (Line prompt)
                (run (save_to_csv to_datetime df ALL_CURRENCY_FILE) w)))
    end.
Proof.
  intros Hp. unfold main_manual, mbind, IO_bind. rewrite Hp.
  rewrite save_to_csv_returns. unfold input. cbv beta iota.
  destruct typed as [|c typed]; [done |].
  pose proof (split_comma_nonempty (String c typed)) as Hne.
  unfold selection.
  destruct (selected_pairs (String c typed)) as [|pair pairs] eqn:Hs.
  - unfold selected_pairs in Hs. by destruct (split_comma (String c typed)).
  - by rewrite save_to_csv_returns.
Qed.

Lemma process_outcome_Ok w df :
  outcome process_currency_data w = Ok df →
  process_currency_data w = (Ok df, w).
Proof.
  unfold outcome. destruct (process_currency_data w) as [r w'] eqn:Hp.
  cbn. intros ->. by rewrite (process_Ok_same_world _ _ _ Hp).
Qed.

Lemma analyze_outcome data_frame pairs w :
  analyze_currency_pair to_datetime series_sum data_frame pairs w
  = match analysis_rows to_datetime series_sum data_frame pairs with
    | Ok table => (Ok (), put_stdout (Table field_names table) w)
    | Raised e => (Raised e, w)
    end.
Proof.
  unfold analyze_currency_pair, mbind, IO_bind, lift.
  by destruct (analysis_rows to_datetime series_sum data_frame pairs).
Qed.

(** X26. An interactive run whose download fails raises the failure
    before anything is stored or asked. After a download that succeeds, a
    user who types nothing makes the run raise 'No currency pairs
    provided', and by then the table has been merged into the history and
    the prompt printed. *)
Theorem X26_manual_run_without_pairs w :
  (∀ e typed, outcome process_currency_data w = Raised e →
              outcome (manual typed) w = Raised e
              ∧ fs (run (manual typed) w) = fs w)
  ∧ (∀ df, outcome process_currency_data w = Ok df →
           manual EmptyString w
           = (Raised (ValueError (nl +:+ "No currency pairs provided.")),
              put_stdout (Line prompt)
                (run (save_to_csv to_datetime df ALL_CURRENCY_FILE) w))).
Proof.
  split.
  - intros e typed He. pose proof (proj2 (process_cases w)) as Hfs.
    unfold outcome, run in *.
    destruct (process_currency_data w) as [r w'] eqn:Hp. cbn in He, Hfs.
    subst r. by rewrite (main_manual_download_failed _ _ _ _ Hp).
  - intros df Hp%process_outcome_Ok. by rewrite (main_manual_downloaded _ _ df).
Qed.

(** X27. In an interactive run the selection is stored before the report
    is computed: after a download that succeeds and a line that is not
    empty, on a healthy medium, the selection file holds the selected
    columns whether the report then prints or raises, and the history has
    been merged as by a cycle. The run raises exactly when the report
    does. *)
Theorem X27_selection_is_stored_before_the_report typed w df :
  outcome process_currency_data w = Ok df →
  typed ≠ EmptyString →
  medium w = Healthy →
  fs (run (manual typed) w)
  = <[SELECTED_CURRENCY_FILE := Csv (selection df (selected_pairs typed))]>
      (fs (run (save_to_csv to_datetime df ALL_CURRENCY_FILE) w))
  ∧ outcome (manual typed) w
    = match analysis_rows to_datetime series_sum (selection df (selected_pairs typed))
              (selected_pairs typed) with
      | Ok _ => Ok ()
      | Raised e => Raised e
      end.
Proof.
  intros Hp%process_outcome_Ok Htyped Hm.
  unfold outcome, run. rewrite (main_manual_downloaded _ _ df Hp).
  destruct typed as [|c typed]; [done |].
  rewrite analyze_outcome.
  set (w1 := put_stdout (Line prompt)
               (run (save_to_csv to_datetime df ALL_CURRENCY_FILE) w)).
  assert (medium w1 = Healthy) as Hm1.
  { change (medium w1)
      with (medium (run (save_to_csv to_datetime df ALL_CURRENCY_FILE) w)).
    by rewrite save_medium. }
  pose proof (Hsel := save_selected to_datetime
                        (selection df (selected_pairs (String c typed))) w1).
  unfold run. rewrite Hsel, Hm1.
  by destruct (analysis_rows to_datetime series_sum _ _).
Qed.

End Manual.

(** An instance of X6: the source cannot be reached. *)
Lemma X6_example_unreachable :
  run (fetch_currency_data "EUR" "2023-12-11" "2024-03-10") (offline ∅)
  = offline ∅.
Proof.
  apply (X6_fetch_leaves_the_world "EUR" "2023-12-11" "2024-03-10"
           (offline ∅)).
  intros response Hr. discriminate Hr.
Defined.

(** An instance of X12: a cycle with a source that lists two days. *)
Lemma X12_example_cycle :
  outcome (main_auto iso_to_datetime) (online ∅ (listing entries_0311_0312))
  = Ok ()
  ∧ outcome (main_auto iso_to_datetime) (offline ∅) = Raised ConnectionError.
Proof.
  split.
  - eapply (X12_cycle_outcome iso_to_datetime
              (online ∅ (listing entries_0311_0312))).
    reflexivity.
  - apply (X12_cycle_outcome iso_to_datetime (offline ∅)). reflexivity.
Defined.

(** An instance of X15: a name that is not one of the two files. *)
Lemma X15_example_other_name :
  run (save_to_csv iso_to_datetime (table [row_0311]) "rates.csv")
    (storing [row_0310])
  = storing [row_0310].
Proof.
  apply (X15_save_to_csv_touches_only_its_file iso_to_datetime
           (table [row_0311]) "rates.csv" (storing [row_0310]));
    discriminate.
Defined.

(** An instance of X26: nothing is typed; the history has been merged. *)
Lemma X26_example_nothing_typed :
  outcome (main_manual iso_to_datetime sum_in_order EmptyString)
    (online ∅ (listing entries_0311_0312))
  = Raised (ValueError (nl +:+ "No currency pairs provided."))
  ∧ is_Some (history (run (main_manual iso_to_datetime sum_in_order EmptyString)
                        (online ∅ (listing entries_0311_0312)))).
Proof.
  pose proof (proj2 (X26_manual_run_without_pairs iso_to_datetime sum_in_order
                       (online ∅ (listing entries_0311_0312))) _ eq_refl)
    as H.
  unfold outcome, run. rewrite H. split; [reflexivity |].
  eexists. reflexivity.
Defined.

(** An instance of X27: the pair typed is not a column; the report
    raises, and the selection file has been written. *)
Lemma X27_example_unknown_pair :
  outcome (main_manual iso_to_datetime sum_in_order "gbp/usd")
    (online ∅ (listing entries_0311_0312))
  = Raised (ValueError (not_present "GBP/USD"))
  ∧ is_Some (fs (run (main_manual iso_to_datetime sum_in_order "gbp/usd")
                   (online ∅ (listing entries_0311_0312)))
             !! SELECTED_CURRENCY_FILE).
Proof.
  destruct (X27_selection_is_stored_before_the_report iso_to_datetime sum_in_order
              "gbp/usd" (online ∅ (listing entries_0311_0312)) _ eq_refl)
    as [Hfs Hout].
  - discriminate.
  - reflexivity.
  - split; [rewrite Hout; reflexivity |].
    rewrite Hfs, lookup_insert_eq. by eexists.
Defined.
